(** * ireland-carbon-viz: the synthetic series generators, the mix normalizer
      and the carbon-intensity calculator

    Shallow embedding of [src/data/mock.ts], [src/data/eirgrid.ts], of the
    provider paths and the main content of [src/App.tsx], and of the data the
    two chart components of [src/components] plot.

    A JavaScript [number] is an IEEE-754 binary64 value.  The code is embedded
    once, over an interface [JsNumber] of the operations it uses, and read at
    two instances:

    - [B64]: Rocq's primitive binary64 floats, the arithmetic the program
      really runs (executable; [Math.sin] and [Math.cos], which ECMAScript
      leaves implementation-approximated, are parameters);
    - [Rounded rndA rndM]: real numbers where every operation is followed by
      a rounding of relative error at most [u = 2^-53], and of absolute error
      at most [eta = 2^-1075] more where a product or a quotient underflows:
      the standard model of binary64 with gradual underflow, away from
      overflow, in which the numerical bounds are proved for all inputs. *)

From Stdlib Require Import ZArith QArith Qround Floats Reals Lra Lia List Bool String.
From Stdlib Require Import Uint63.
From Stdlib Require Import Ascii DecimalString.
Import ListNotations.
Close Scope Q_scope.
Open Scope Z_scope.

Set Implicit Arguments.

(** ** Numbers *)

Declare Scope js_scope.
Delimit Scope js_scope with js.

Class JsNumber (T : Type) : Type := {
  num : Q -> T;                 (* a numeric literal of the source *)
  add : T -> T -> T;
  sub : T -> T -> T;
  mul : T -> T -> T;
  div : T -> T -> T;
  le : T -> T -> bool;          (* a <= b *)
  Math_max : T -> T -> T;
  Math_min : T -> T -> T;
  Math_round : T -> T
}.

Class JsMath (T : Type) : Type := {
  Math_PI : T;
  Math_sin : T -> T;
  Math_cos : T -> T
}.

Infix "+" := add : js_scope.
Infix "-" := sub : js_scope.
Infix "*" := mul : js_scope.
Infix "/" := div : js_scope.
Infix "<=?" := le : js_scope.

(** An integer-valued number (a loop index, a count of hours or minutes). *)
Definition numZ {T} `{JsNumber T} (z : Z) : T := num (inject_Z z).

(** *** binary64 *)

Module B64.

(** Integers below 2^53 in magnitude are binary64 values. *)
Definition ofZ (z : Z) : float :=
  if (z <? 0)%Z then PrimFloat.opp (PrimFloat.of_uint63 (Uint63.of_Z (- z)))
  else PrimFloat.of_uint63 (Uint63.of_Z z).

(** A decimal literal denotes the binary64 value nearest to it; the correctly
    rounded quotient of its numerator and denominator is that value. *)
Definition lit (q : Q) : float :=
  PrimFloat.div (ofZ (Qnum q)) (ofZ (Zpos (Qden q))).

(** [Math.max]: NaN if an argument is NaN; +0 is larger than -0. *)
Definition max (a b : float) : float :=
  if PrimFloat.is_nan a || PrimFloat.is_nan b then PrimFloat.nan
  else if PrimFloat.ltb a b then b
  else if PrimFloat.ltb b a then a
  else match PrimFloat.classify a with NZero => b | _ => a end.

(** [Math.min]: NaN if an argument is NaN; -0 is smaller than +0. *)
Definition min (a b : float) : float :=
  if PrimFloat.is_nan a || PrimFloat.is_nan b then PrimFloat.nan
  else if PrimFloat.ltb a b then a
  else if PrimFloat.ltb b a then b
  else match PrimFloat.classify a with PZero => b | _ => a end.

(** [Math.round]: the integer nearest to [x], ties towards +infinity; an
    integral [x], an infinity and NaN are returned as they are, and a result
    of zero keeps the sign of [x]. *)
Definition round (x : float) : float :=
  match Prim2SF x with
  | S754_finite s m e =>
      if (0 <=? e)%Z then x
      else
        let k := (- e)%Z in
        let v := if s then Z.neg m else Z.pos m in
        let n := ((2 * v + 2 ^ k) / 2 ^ (k + 1))%Z in
        if (n =? 0)%Z then (if s then PrimFloat.neg_zero else PrimFloat.zero)
        else ofZ n
  | _ => x
  end.

(** [Math.PI], the binary64 value nearest to pi. *)
Definition PI : float := 0x1.921fb54442d18p+1%float.

End B64.

#[export] Instance B64Number : JsNumber float := {
  num := B64.lit;
  add := PrimFloat.add;
  sub := PrimFloat.sub;
  mul := PrimFloat.mul;
  div := PrimFloat.div;
  le := PrimFloat.leb;
  Math_max := B64.max;
  Math_min := B64.min;
  Math_round := B64.round
}.

(** [Math.sin] and [Math.cos] are implementation-approximated: the binary64
    reading takes them as parameters. *)
Definition B64Math (sinf cosf : float -> float) : JsMath float := {|
  Math_PI := B64.PI;
  Math_sin := sinf;
  Math_cos := cosf
|}.

(** *** Rounded reals *)

(** The unit roundoff of binary64, and half its smallest positive value. *)
Definition u : R := (/ 2 ^ 53)%R.
Definition eta : R := (/ 2 ^ 1075)%R.

Definition Rle_bool (a b : R) : bool := if Rle_dec a b then true else false.

(** Every arithmetic operation returns the rounding of its exact result: sums,
    differences and literals are rounded by [rndA], products and quotients,
    which may underflow, by [rndM]; comparisons, [Math.max], [Math.min] and
    [Math.round] are exact. *)
Definition Rounded (rndA rndM : R -> R) : JsNumber R := {|
  num := fun q => rndA (Q2R q);
  add := fun a b => rndA (a + b)%R;
  sub := fun a b => rndA (a - b)%R;
  mul := fun a b => rndM (a * b)%R;
  div := fun a b => rndM (a / b)%R;
  le := Rle_bool;
  Math_max := Rmax;
  Math_min := Rmin;
  Math_round := fun x => IZR (Zfloor (x + / 2)%R)
|}.

(** ** Data model ([src/types.ts]) *)

Inductive DateRange : Type := Range24h | Range48h | Range7d.

Record GenerationMixBreakdown (T : Type) : Type := {
  wind : T;
  solar : T;
  hydro : T;
  gas : T;
  coal : T;
  biomass : T;
  imports : T
}.

(** [Partial<GenerationMixBreakdown>]: any field may be absent. *)
Record PartialMix (T : Type) : Type := {
  wind_opt : option T;
  solar_opt : option T;
  hydro_opt : option T;
  gas_opt : option T;
  coal_opt : option T;
  biomass_opt : option T;
  imports_opt : option T
}.

(** The keys of a mix, in the order every mix object of the program is built. *)
Inductive Source : Type := Wind | Solar | Hydro | Gas | Coal | Biomass | Imports.

Definition keys : list Source := [Wind; Solar; Hydro; Gas; Coal; Biomass; Imports].

Definition get {T} (k : Source) (m : GenerationMixBreakdown T) : T :=
  match k with
  | Wind => wind m
  | Solar => solar m
  | Hydro => hydro m
  | Gas => gas m
  | Coal => coal m
  | Biomass => biomass m
  | Imports => imports m
  end.

(** [Object.values]. *)
Definition values {T} (m : GenerationMixBreakdown T) : list T :=
  map (fun k => get k m) keys.

(** [Object.fromEntries(Object.entries(m).map(([k, v]) => [k, f v]))]. *)
Definition mapMix {T} (f : T -> T) (m : GenerationMixBreakdown T)
  : GenerationMixBreakdown T :=
  {| wind := f (wind m); solar := f (solar m); hydro := f (hydro m);
     gas := f (gas m); coal := f (coal m); biomass := f (biomass m);
     imports := f (imports m) |}.

(** [x ?? d]. *)
Definition nullish {T} (x : option T) (d : T) : T :=
  match x with Some v => v | None => d end.

(** A [Date] is its time value, in milliseconds since the epoch. *)
Definition Date : Type := Z.

Record CarbonIntensityPoint (T : Type) : Type := {
  ci_timestamp : Date;
  gramsCO2PerKWh : T
}.

Record GenerationMixPoint (T : Type) : Type := {
  gm_timestamp : Date;
  mix : GenerationMixBreakdown T
}.

Record Series (T : Type) : Type := {
  intensity : list (CarbonIntensityPoint T);
  generation : list (GenerationMixPoint T)
}.

(** ** Dates *)

(** date-fns [subHours] and [addMinutes] shift the time value. *)
Definition subHours (d : Date) (amount : Z) : Date := (d - amount * 3600000)%Z.
Definition addMinutes (d : Date) (amount : Z) : Date := (d + amount * 60000)%Z.

(** [getHours] and [getMinutes] read the local time: ECMAScript's
    [HourFromTime] and [MinFromTime] of [t + LocalTZA(t)], where the offset
    [tza] of the host's time zone is a parameter. *)
Definition getHours (tza : Z -> Z) (t : Date) : Z :=
  (((t + tza t) / 3600000) mod 24)%Z.
Definition getMinutes (tza : Z -> Z) (t : Date) : Z :=
  (((t + tza t) / 60000) mod 60)%Z.

(** [getSeconds], alike: [SecFromTime] of the local time; [getTime] is the
    time value. *)
Definition getSeconds (tza : Z -> Z) (t : Date) : Z :=
  (((t + tza t) / 1000) mod 60)%Z.
Definition getTime (d : Date) : Z := d.

(** *** Formatting (date-fns [formatISO9075]) *)

(** [Math.abs(number).toString()] of an integer: its decimal digits. *)
Definition toString (number : Z) : string :=
  NilZero.string_of_uint (N.to_uint (Z.abs_N number)).

(** [s.padStart(targetLength, "0")]. *)
Definition padStart0 (s : string) (targetLength : nat) : string :=
  (string_of_list_ascii (repeat "0"%char (targetLength - String.length s)) ++ s)%string.

(** [addLeadingZeros(number, targetLength)]: the sign, then the digits padded
    with zeros on the left. *)
Definition addLeadingZeros (number : Z) (targetLength : nat) : string :=
  let sign := if (number <? 0)%Z then "-"%string else ""%string in
  let output := padStart0 (toString number) targetLength in
  (sign ++ output)%string.

(** [formatISO9075(date, { representation: 'time' })]: with the default,
    extended, format the result is the local time of day, [HH:mm:ss]. *)
Definition formatISO9075_time (tza : Z -> Z) (date : Date) : string :=
  let timeDelimiter := ":"%string in
  let hour := addLeadingZeros (getHours tza date) 2 in
  let minute := addLeadingZeros (getMinutes tza date) 2 in
  let second := addLeadingZeros (getSeconds tza date) 2 in
  (hour ++ timeDelimiter ++ minute ++ timeDelimiter ++ second)%string.

(** [s.slice(start, end)], for [0 <= start <= end]. *)
Definition slice (s : string) (start end_ : nat) : string :=
  substring start (end_ - start) s.

(** [for (let i = 0; i <= points; i++) body]: the iterations from [i] on, where
    [n] is the number of iterations left. *)
Fixpoint for_from {S : Type} (n : nat) (i : Z) (body : Z -> S -> S) (s : S) : S :=
  match n with
  | O => s
  | Datatypes.S n' => for_from n' (i + 1)%Z body (body i s)
  end.

Definition for_upto {S : Type} (points : Z) (body : Z -> S -> S) (s : S) : S :=
  for_from (Z.to_nat (points + 1)) 0%Z body s.

(** ** [src/data/mock.ts] *)

Module Mock.
Section Mock.
Context {T : Type} `{JsNumber T} `{JsMath T}.
Open Scope js_scope.

Definition EMISSION_FACTORS (k : Source) : T :=
  match k with
  | Wind => num 12
  | Solar => num 50
  | Hydro => num 24
  | Gas => num 400
  | Coal => num 900
  | Biomass => num 230
  | Imports => num 300
  end.

Definition getRangeHours (range : DateRange) : Z :=
  match range with
  | Range24h => 24
  | Range48h => 48
  | Range7d => 24 * 7
  end.

Definition clamp (value min max : T) : T :=
  Math_max min (Math_min max value).

Definition normalizeMix (raw : PartialMix T) : GenerationMixBreakdown T :=
  let base := {|
    wind := nullish (wind_opt raw) (num 0);
    solar := nullish (solar_opt raw) (num 0);
    hydro := nullish (hydro_opt raw) (num 0);
    gas := nullish (gas_opt raw) (num 0);
    coal := nullish (coal_opt raw) (num 0);
    biomass := nullish (biomass_opt raw) (num 0);
    imports := nullish (imports_opt raw) (num 0) |} in
  let total := fold_left (fun a b => a + b) (values base) (num 0) in
  if total <=? num 0 then
    {| wind := num 0.3; solar := num 0.05; hydro := num 0.05;
       gas := num 0.45; coal := num 0.05; biomass := num 0.05;
       imports := num 0.05 |}
  else
    mapMix (fun v => v / total) base.

Definition computeIntensity (mix : GenerationMixBreakdown T) : T :=
  let total :=
    fold_left (fun total key => total + get key mix * EMISSION_FACTORS key)
              keys (num 0) in
  Math_round total.


Definition stepMinutesOf (range : DateRange) : Z :=
  match range with Range7d => 30 | _ => 15 end.

(** [t.getHours() + t.getMinutes() / 60]. *)
Definition hourOfDay (tza : Z -> Z) (t : Date) : T :=
  numZ (getHours tza t) + numZ (getMinutes tza t) / num 60.

Definition dayFactor (hourOfDay : T) : T :=
  Math_sin ((num 2 * Math_PI * (hourOfDay - num 3)) / num 24).

Definition windAt (hourOfDay : T) : T :=
  clamp (num 0.35 + num 0.2 * dayFactor hourOfDay) (num 0.1) (num 0.75).

Definition solarBase (hourOfDay : T) : T :=
  Math_max (num 0) (Math_sin ((Math_PI * (hourOfDay - num 6)) / num 12)).

Definition solarAt (hourOfDay : T) : T :=
  clamp (num 0.18 * solarBase hourOfDay) (num 0) (num 0.25).

Definition hydroAt (points i : Z) : T :=
  num 0.05 + num 0.02 * Math_sin ((num 2 * Math_PI * numZ i) / (numZ points / num 7)).

Definition coalAt (points i : Z) : T :=
  num 0.04 + num 0.01 * Math_sin ((num 2 * Math_PI * numZ i) / (numZ points / num 3)).

Definition gasAt (hourOfDay wind solar : T) : T :=
  let gas := num 0.4 + num 0.1 * Math_cos ((num 2 * Math_PI * hourOfDay) / num 24)
             - (wind + solar - num 0.3) in
  clamp gas (num 0.05) (num 0.7).

(** The object literal [{ wind, solar, hydro, gas, coal, biomass, imports }]
    of one iteration, before normalization. *)
Definition rawMix (points i : Z) (hourOfDay : T) : PartialMix T :=
  let wind := windAt hourOfDay in
  let solar := solarAt hourOfDay in
  let hydro := hydroAt points i in
  let coal := coalAt points i in
  let biomass := num 0.05 in
  let gas := gasAt hourOfDay wind solar in
  let imports :=
    clamp (num 1 - (wind + solar + hydro + gas + coal + biomass))
               (num 0.02) (num 0.2) in
  {| wind_opt := Some wind; solar_opt := Some solar; hydro_opt := Some hydro;
     gas_opt := Some gas; coal_opt := Some coal; biomass_opt := Some biomass;
     imports_opt := Some imports |}.

(** The body of the loop: both arrays receive one point. *)
Definition body (tza : Z -> Z) (start : Date) (stepMinutes points : Z)
    (i : Z) (acc : Series T) : Series T :=
  let t := addMinutes start (i * stepMinutes) in
  let mix := normalizeMix (rawMix points i (hourOfDay tza t)) in
  let ci := computeIntensity mix in
  {| intensity := intensity acc ++ [{| ci_timestamp := t; gramsCO2PerKWh := ci |}];
     generation := generation acc ++ [{| gm_timestamp := t; mix := mix |}] |}.

(** [generateMockSeries(range)], where [now] is the instant [new Date()]
    reads. *)
Definition generateMockSeries (tza : Z -> Z) (now : Date) (range : DateRange)
  : Series T :=
  let hours := getRangeHours range in
  let stepMinutes := stepMinutesOf range in
  let points := ((hours * 60) / stepMinutes)%Z in
  let start := subHours now hours in
  for_upto points (body tza start stepMinutes points)
           {| intensity := []; generation := [] |}.

Definition formatTickTime (tza : Z -> Z) (date : Date) : string :=
  slice (formatISO9075_time tza date) 0 5.

End Mock.
End Mock.

(** ** [src/data/eirgrid.ts] *)

(** What a rejected promise carries: the message of the [Error] thrown. *)
Inductive Result (A : Type) : Type :=
| Ok (a : A)
| Err (message : string).
Arguments Err {A} message.

(** The text [toISOString] produces determines the time value it was made of. *)
Inductive ISOString : Type := ISO (t : Date).
Definition toISOString (d : Date) : ISOString := ISO d.
Definition newDateOf (s : ISOString) : Date := match s with ISO t => t end.

Record EirGridDataPoint (T : Type) : Type := {
  eg_timestamp : ISOString;
  eg_wind : T;
  eg_solar : T;
  eg_hydro : T;
  eg_gas : T;
  eg_coal : T;
  eg_biomass : T;
  eg_imports : T;
  eg_total : T
}.

Module Eirgrid.
Section Eirgrid.
Context {T : Type} `{JsNumber T} `{JsMath T}.
Open Scope js_scope.

Definition EMISSION_FACTORS (k : Source) : T :=
  match k with
  | Wind => num 12
  | Solar => num 50
  | Hydro => num 24
  | Gas => num 400
  | Coal => num 900
  | Biomass => num 230
  | Imports => num 300
  end.

Definition getRangeHours (range : DateRange) : Z :=
  match range with
  | Range24h => 24
  | Range48h => 48
  | Range7d => 24 * 7
  end.

Definition normalizeMix (raw : PartialMix T) : GenerationMixBreakdown T :=
  let base := {|
    wind := nullish (wind_opt raw) (num 0);
    solar := nullish (solar_opt raw) (num 0);
    hydro := nullish (hydro_opt raw) (num 0);
    gas := nullish (gas_opt raw) (num 0);
    coal := nullish (coal_opt raw) (num 0);
    biomass := nullish (biomass_opt raw) (num 0);
    imports := nullish (imports_opt raw) (num 0) |} in
  let total := fold_left (fun a b => a + b) (values base) (num 0) in
  if total <=? num 0 then
    {| wind := num 0.3; solar := num 0.05; hydro := num 0.05;
       gas := num 0.45; coal := num 0.05; biomass := num 0.05;
       imports := num 0.05 |}
  else
    mapMix (fun v => v / total) base.

Definition computeIntensity (mix : GenerationMixBreakdown T) : T :=
  let total :=
    fold_left (fun total key => total + get key mix * EMISSION_FACTORS key)
              keys (num 0) in
  Math_round total.

Definition stepMinutesOf (range : DateRange) : Z :=
  match range with Range7d => 30 | _ => 15 end.

Definition hourOfDay (tza : Z -> Z) (timestamp : Date) : T :=
  numZ (getHours tza timestamp) + numZ (getMinutes tza timestamp) / num 60.

Definition windAt (hourOfDay : T) : T :=
  let windBase := num 0.4 in
  let windVariation :=
    Math_sin ((num 2 * Math_PI * (hourOfDay - num 2)) / num 24) * num 0.3 in
  Math_max (num 0.1) (Math_min (num 0.8) (windBase + windVariation)).

Definition solarBase (hourOfDay : T) : T :=
  Math_max (num 0) (Math_sin ((Math_PI * (hourOfDay - num 6)) / num 12)).

Definition solarAt (hourOfDay : T) : T :=
  Math_max (num 0) (Math_min (num 0.15) (num 0.12 * solarBase hourOfDay)).

Definition hydroAt (points i : Z) : T :=
  num 0.08 + num 0.03 * Math_sin ((num 2 * Math_PI * numZ i) / (numZ points / num 7)).

Definition gasAt (hourOfDay wind solar : T) : T :=
  let gas := num 0.35 + num 0.1 * Math_cos ((num 2 * Math_PI * hourOfDay) / num 24)
             - (wind + solar - num 0.3) in
  Math_max (num 0.05) (Math_min (num 0.6) gas).

Definition coalAt (points i : Z) : T :=
  num 0.02 + num 0.01 * Math_sin ((num 2 * Math_PI * numZ i) / (numZ points / num 3)).

Definition dataPoint (tza : Z -> Z) (startDate : Date) (stepMinutes points i : Z)
  : EirGridDataPoint T :=
  let timestamp := addMinutes startDate (i * stepMinutes) in
  let hourOfDay := hourOfDay tza timestamp in
  let wind := windAt hourOfDay in
  let solar := solarAt hourOfDay in
  let hydro := hydroAt points i in
  let gas := gasAt hourOfDay wind solar in
  let coal := coalAt points i in
  let biomass := num 0.06 in
  let imports :=
    Math_max (num 0.02)
      (Math_min (num 0.15) (num 1 - (wind + solar + hydro + gas + coal + biomass))) in
  let total := wind + solar + hydro + gas + coal + biomass + imports in
  {| eg_timestamp := toISOString timestamp;
     eg_wind := wind; eg_solar := solar; eg_hydro := hydro; eg_gas := gas;
     eg_coal := coal; eg_biomass := biomass; eg_imports := imports;
     eg_total := total |}.

Definition generateRealisticIrishData (tza : Z -> Z) (now : Date) (range : DateRange)
  : Result (list (EirGridDataPoint T)) :=
  let hours := getRangeHours range in
  let endDate := now in
  let startDate := subHours endDate hours in
  let stepMinutes := stepMinutesOf range in
  let points := ((hours * 60) / stepMinutes)%Z in
  Ok (for_upto points
        (fun i dataPoints => dataPoints ++ [dataPoint tza startDate stepMinutes points i])
        []).

(** [try { return await ... } catch (error) { throw error }]. *)
Definition fetchEirGridData (tza : Z -> Z) (now : Date) (range : DateRange)
  : Result (list (EirGridDataPoint T)) :=
  match generateRealisticIrishData tza now range with
  | Ok dataPoints => Ok dataPoints
  | Err error => Err error
  end.

(** The body of [for (const point of rawData)]. *)
Definition pushPoint (acc : Series T) (point : EirGridDataPoint T) : Series T :=
  let timestamp := newDateOf (eg_timestamp point) in
  let mix := normalizeMix
    {| wind_opt := Some (eg_wind point); solar_opt := Some (eg_solar point);
       hydro_opt := Some (eg_hydro point); gas_opt := Some (eg_gas point);
       coal_opt := Some (eg_coal point); biomass_opt := Some (eg_biomass point);
       imports_opt := Some (eg_imports point) |} in
  let ci := computeIntensity mix in
  {| intensity := intensity acc
        ++ [{| ci_timestamp := timestamp; gramsCO2PerKWh := ci |}];
     generation := generation acc ++ [{| gm_timestamp := timestamp; mix := mix |}] |}.

Definition fetchRealEirGridData (tza : Z -> Z) (now : Date) (range : DateRange)
  : Result (Series T) :=
  match fetchEirGridData tza now range with
  | Ok rawData =>
      Ok (fold_left pushPoint rawData {| intensity := []; generation := [] |})
  | Err _ => Err "Failed to generate Irish electricity data"
  end.

(** [fetchENTSOEData()]: the only statement of its body is the [throw]. *)
Definition fetchENTSOEData (_ : unit) : Result (Series T) :=
  Err "ENTSO-E integration not yet implemented".

Definition formatTickTime (tza : Z -> Z) (date : Date) : string :=
  slice (formatISO9075_time tza date) 0 5.

End Eirgrid.
End Eirgrid.

(** ** [src/components/CarbonIntensityChart.tsx] and
       [src/components/GenerationMixChart.tsx] *)

(** An end of the X axis of a chart: a time, or one of recharts' ['dataMin']
    and ['dataMax']. *)
Inductive AxisBound : Type :=
| AxisAt (time : Z)
| AxisDataMin
| AxisDataMax.

(** What a chart component returns: the box with a text, or the chart drawn
    over [chartData], with the [domain] of its X axis. *)
Inductive ChartView (Row : Type) : Type :=
| Box (text : string)
| Plot (chartData : list Row) (domain : AxisBound * AxisBound).
Arguments Box {Row} text.

(** A row of the [chartData] of the carbon-intensity chart. *)
Record IntensityRow (T : Type) : Type := {
  ir_time : Z;
  ir_label : Date;
  ir_ci : T
}.

(** A row of the [chartData] of the emissions chart. *)
Record EmissionsRow (T : Type) : Type := {
  em_time : Z;
  em_total : T;
  em_wind : T;
  em_solar : T;
  em_hydro : T;
  em_gas : T;
  em_coal : T;
  em_biomass : T;
  em_imports : T
}.

(** [xs[i]], which is [undefined] out of range. *)
Definition at_index {A : Type} (xs : list A) (i : Z) : option A :=
  if (i <? 0)%Z then None else nth_error xs (Z.to_nat i).

Module Charts.
Section Charts.
Context {T : Type} `{JsNumber T}.
Open Scope js_scope.

(** [CarbonIntensityChart({ data })]; [data] is [None] when the prop is
    [null] or [undefined]. *)
Definition CarbonIntensityChart (data : option (list (CarbonIntensityPoint T)))
  : ChartView (IntensityRow T) :=
  match data with
  | None => Box "No data available"
  | Some data =>
      if (Z.of_nat (List.length data) =? 0)%Z then Box "No data available"
      else
        let chartData :=
          map (fun d => {| ir_time := getTime (ci_timestamp d);
                           ir_label := ci_timestamp d;
                           ir_ci := gramsCO2PerKWh d |}) data in
        Plot chartData
          (match at_index chartData 0 with
           | Some row => AxisAt (ir_time row)
           | None => AxisDataMin
           end,
           match at_index chartData (Z.of_nat (List.length chartData) - 1) with
           | Some row => AxisAt (ir_time row)
           | None => AxisDataMax
           end)
  end.

(** The row [GenerationMixChart] computes for one point: the emissions of each
    source, their total, and the rounding of each. *)
Definition emissionsRow (d : GenerationMixPoint T) : EmissionsRow T :=
  let windEmissions := wind (mix d) * num 12 in
  let solarEmissions := solar (mix d) * num 50 in
  let hydroEmissions := hydro (mix d) * num 24 in
  let gasEmissions := gas (mix d) * num 400 in
  let coalEmissions := coal (mix d) * num 900 in
  let biomassEmissions := biomass (mix d) * num 230 in
  let importsEmissions := imports (mix d) * num 300 in
  let totalEmissions :=
    windEmissions + solarEmissions + hydroEmissions + gasEmissions
    + coalEmissions + biomassEmissions + importsEmissions in
  {| em_time := getTime (gm_timestamp d);
     em_total := Math_round totalEmissions;
     em_wind := Math_round windEmissions;
     em_solar := Math_round solarEmissions;
     em_hydro := Math_round hydroEmissions;
     em_gas := Math_round gasEmissions;
     em_coal := Math_round coalEmissions;
     em_biomass := Math_round biomassEmissions;
     em_imports := Math_round importsEmissions |}.

(** [GenerationMixChart({ data })]. *)
Definition GenerationMixChart (data : option (list (GenerationMixPoint T)))
  : ChartView (EmissionsRow T) :=
  match data with
  | None => Box "No data available"
  | Some data =>
      if (Z.of_nat (List.length data) =? 0)%Z then Box "No data available"
      else
        let chartData := map emissionsRow data in
        Plot chartData
          (match at_index chartData 0 with
           | Some row => AxisAt (em_time row)
           | None => AxisDataMin
           end,
           match at_index chartData (Z.of_nat (List.length chartData) - 1) with
           | Some row => AxisAt (em_time row)
           | None => AxisDataMax
           end)
  end.

End Charts.
End Charts.

(** ** [src/App.tsx] *)

Inductive Provider : Type :=
| MockOffline       (* 'Mock (offline)' *)
| EirGridRealtime   (* 'EirGrid (real-time)' *)
| ENTSOERealtime.   (* 'ENTSO-E (real-time)' *)

Record AppState (T : Type) : Type := {
  data : option (Series T);
  loading : bool;
  error : option string
}.

Module App.
Section App.
Context {T : Type} `{JsNumber T} `{JsMath T}.
Open Scope js_scope.

(** [Object.values(modifiedMix).reduce((sum, val) => sum + val, 0)] and the
    seven divisions that follow it. *)
Definition renormalize (modifiedMix : GenerationMixBreakdown T)
  : GenerationMixBreakdown T :=
  let total := fold_left (fun sum val => sum + val) (values modifiedMix) (num 0) in
  {| wind := wind modifiedMix / total;
     solar := solar modifiedMix / total;
     hydro := hydro modifiedMix / total;
     gas := gas modifiedMix / total;
     coal := coal modifiedMix / total;
     biomass := biomass modifiedMix / total;
     imports := imports modifiedMix / total |}.

(** The 'EirGrid (real-time)' branch, on one point of each series. *)
Definition eirgridIntensity (point : CarbonIntensityPoint T) : CarbonIntensityPoint T :=
  {| ci_timestamp := ci_timestamp point;
     gramsCO2PerKWh := Math_round (gramsCO2PerKWh point * num 0.8) |}.

Definition eirgridModifiedMix (m : GenerationMixBreakdown T) : GenerationMixBreakdown T :=
  {| wind := wind m * num 1.3;
     solar := solar m * num 1.2;
     hydro := hydro m;
     gas := gas m * num 0.9;
     coal := coal m * num 0.5;
     biomass := biomass m;
     imports := imports m * num 0.8 |}.

Definition eirgridGeneration (point : GenerationMixPoint T) : GenerationMixPoint T :=
  {| gm_timestamp := gm_timestamp point;
     mix := renormalize (eirgridModifiedMix (mix point)) |}.

(** The 'ENTSO-E (real-time)' branch, on one point of each series. *)
Definition entsoeIntensity (point : CarbonIntensityPoint T) : CarbonIntensityPoint T :=
  {| ci_timestamp := ci_timestamp point;
     gramsCO2PerKWh := Math_round (gramsCO2PerKWh point * num 0.6) |}.

Definition entsoeModifiedMix (m : GenerationMixBreakdown T) : GenerationMixBreakdown T :=
  {| wind := wind m * num 1.5;
     solar := solar m * num 1.8;
     hydro := hydro m * num 1.2;
     gas := gas m * num 0.7;
     coal := coal m * num 0.2;
     biomass := biomass m * num 1.3;
     imports := imports m * num 0.6 |}.

Definition entsoeGeneration (point : GenerationMixPoint T) : GenerationMixPoint T :=
  {| gm_timestamp := gm_timestamp point;
     mix := renormalize (entsoeModifiedMix (mix point)) |}.

Definition generateProviderSpecificData (tza : Z -> Z) (now : Date)
    (provider : Provider) (dateRange : DateRange) : Series T :=
  let baseData := Mock.generateMockSeries tza now dateRange in
  match provider with
  | MockOffline => baseData
  | EirGridRealtime =>
      {| intensity := map eirgridIntensity (intensity baseData);
         generation := map eirgridGeneration (generation baseData) |}
  | ENTSOERealtime =>
      {| intensity := map entsoeIntensity (intensity baseData);
         generation := map entsoeGeneration (generation baseData) |}
  end.

(** The [try] block of [fetchData]: the value it passes to [setData], or the
    error it throws. *)
Definition fetchResult (tza : Z -> Z) (now : Date)
    (provider : Provider) (dateRange : DateRange) : Result (Series T) :=
  match provider with
  | MockOffline => Ok (generateProviderSpecificData tza now provider dateRange)
  | EirGridRealtime => Eirgrid.fetchRealEirGridData tza now dateRange
  | ENTSOERealtime => Err "ENTSO-E integration requires API key setup"
  end.

(** [fetchData]: [try], [catch] with the fallback to mock data, [finally].
    [now] is the clock when the [try] block runs, [later] when the fallback
    does. *)
Definition fetchData (tza : Z -> Z) (now later : Date)
    (provider : Provider) (dateRange : DateRange) (st : AppState T) : AppState T :=
  let st := {| data := data st; loading := true; error := None |} in
  let st :=
    match fetchResult tza now provider dateRange with
    | Ok result => {| data := Some result; loading := loading st; error := error st |}
    | Err message =>
        let fallbackData := generateProviderSpecificData tza later MockOffline dateRange in
        {| data := Some fallbackData; loading := loading st; error := Some message |}
    end in
  {| data := data st; loading := false; error := error st |}.

(** What [App] returns below its header, as far as it depends on the state:
    the error box, the loading box, and, once there is data, the two chart
    cards, each the chart component or a placeholder. *)
Inductive Card (Row : Type) : Type :=
| Placeholder (text : string)
| Component (view : ChartView Row).
Arguments Placeholder {Row} text.

Record MainContent : Type := {
  error_message : option string;
  loading_message : bool;
  intensity_card : option (Card (IntensityRow T));
  generation_card : option (Card (EmissionsRow T))
}.

Definition main_content (st : AppState T) : MainContent :=
  {| error_message :=
       match error st with
       | Some message => if (message =? "")%string then None else Some message
       | None => None
       end;
     loading_message := loading st;
     intensity_card :=
       match data st with
       | None => None
       | Some data =>
           Some (if (0 <? Z.of_nat (List.length (intensity data)))%Z
                 then Component (Charts.CarbonIntensityChart (Some (intensity data)))
                 else Placeholder "No intensity data available")
       end;
     generation_card :=
       match data st with
       | None => None
       | Some data =>
           Some (if (0 <? Z.of_nat (List.length (generation data)))%Z
                 then Component (Charts.GenerationMixChart (Some (generation data)))
                 else Placeholder "No generation data available")
       end |}.

End App.
End App.

(** ** The text of a timestamp ([toISOString], [new Date(string)])

    [generateRealisticIrishData] stores each timestamp as
    [timestamp.toISOString()] and [fetchRealEirGridData] reads it back with
    [new Date(point.timestamp)].  The two are embedded from ECMAScript's
    definitions: the day and year arithmetic of the time values, the Date
    Time String Format [YYYY-MM-DDTHH:mm:ss.sssZ], with the expanded years
    [+YYYYYY] and [-YYYYYY], and [Date.parse] on that format. *)

Module ISO.

Definition msPerDay : Z := 86400000.
Definition msPerHour : Z := 3600000.
Definition msPerMinute : Z := 60000.
Definition msPerSecond : Z := 1000.

Definition Day (t : Z) : Z := t / msPerDay.
Definition TimeWithinDay (t : Z) : Z := t mod msPerDay.

Definition DaysInYear (y : Z) : Z :=
  if negb (y mod 4 =? 0) then 365
  else if negb (y mod 100 =? 0) then 366
  else if negb (y mod 400 =? 0) then 365
  else 366.

Definition DayFromYear (y : Z) : Z :=
  365 * (y - 1970) + (y - 1969) / 4 - (y - 1901) / 100 + (y - 1601) / 400.

Definition TimeFromYear (y : Z) : Z := msPerDay * DayFromYear y.

(** [YearFromTime(t)], the largest [y] with [TimeFromYear(y) <= t]: the year
    the mean length of the Gregorian year gives, corrected by one where the
    day falls before its first day or after its last. *)
Definition YearFromTime (t : Z) : Z :=
  let d := Day t in
  let y := 1970 + (400 * d) / 146097 in
  if d <? DayFromYear y then y - 1
  else if DayFromYear (y + 1) <=? d then y + 1
  else y.

Definition InLeapYear (t : Z) : Z :=
  if DaysInYear (YearFromTime t) =? 366 then 1 else 0.

Definition DayWithinYear (t : Z) : Z := Day t - DayFromYear (YearFromTime t).

Definition MonthFromTime (t : Z) : Z :=
  let d := DayWithinYear t in
  let leap := InLeapYear t in
  if d <? 31 then 0
  else if d <? 59 + leap then 1
  else if d <? 90 + leap then 2
  else if d <? 120 + leap then 3
  else if d <? 151 + leap then 4
  else if d <? 181 + leap then 5
  else if d <? 212 + leap then 6
  else if d <? 243 + leap then 7
  else if d <? 273 + leap then 8
  else if d <? 304 + leap then 9
  else if d <? 334 + leap then 10
  else 11.

Definition DateFromTime (t : Z) : Z :=
  let d := DayWithinYear t in
  let leap := InLeapYear t in
  match MonthFromTime t with
  | 0 => d + 1
  | 1 => d - 30
  | 2 => d - 58 - leap
  | 3 => d - 89 - leap
  | 4 => d - 119 - leap
  | 5 => d - 150 - leap
  | 6 => d - 180 - leap
  | 7 => d - 211 - leap
  | 8 => d - 242 - leap
  | 9 => d - 272 - leap
  | 10 => d - 303 - leap
  | _ => d - 333 - leap
  end.

Definition HourFromTime (t : Z) : Z := (t / msPerHour) mod 24.
Definition MinFromTime (t : Z) : Z := (t / msPerMinute) mod 60.
Definition SecFromTime (t : Z) : Z := (t / msPerSecond) mod 60.
Definition msFromTime (t : Z) : Z := t mod msPerSecond.

Definition MakeTime (hour min sec ms : Z) : Z :=
  hour * msPerHour + min * msPerMinute + sec * msPerSecond + ms.

(** The number of days of the year before the first of month [mn], counted
    from 0, in a common or a leap year. *)
Definition daysBeforeMonth (mn leap : Z) : Z :=
  match mn with
  | 0 => 0
  | 1 => 31
  | 2 => 59 + leap
  | 3 => 90 + leap
  | 4 => 120 + leap
  | 5 => 151 + leap
  | 6 => 181 + leap
  | 7 => 212 + leap
  | 8 => 243 + leap
  | 9 => 273 + leap
  | 10 => 304 + leap
  | _ => 334 + leap
  end.

(** [MakeDay(year, month, date)]: the day of the first of the month, which is
    the day [Day(t)] of the [t] with [YearFromTime(t) = ym],
    [MonthFromTime(t) = mn] and [DateFromTime(t) = 1], then [date - 1] days
    on. *)
Definition MakeDay (year month date : Z) : Z :=
  let ym := year + month / 12 in
  let mn := month mod 12 in
  let leap := if DaysInYear ym =? 366 then 1 else 0 in
  DayFromYear ym + daysBeforeMonth mn leap + date - 1.

Definition MakeDate (day time : Z) : Z := day * msPerDay + time.

(** [TimeClip]: a time value is at most 8.64e15 in magnitude. *)
Definition TimeClip (time : Z) : option Z :=
  if (Z.abs time <=? 8640000000000000) then Some time else None.

(** *** The Date Time String Format *)

Definition digitOf (d : Z) : ascii := ascii_of_nat (48 + Z.to_nat d).

(** The [k] decimal digits of [n]. *)
Fixpoint digits (k : nat) (n : Z) : list ascii :=
  match k with
  | O => []
  | Datatypes.S k' => digits k' (n / 10) ++ [digitOf (n mod 10)]
  end.

(** [Date.prototype.toISOString]: the UTC fields of the time value [tv], the
    year with four digits from 0000 to 9999 and as an expanded year
    otherwise. *)
Definition toISOString (tv : Z) : string :=
  let year := YearFromTime tv in
  let YYYY :=
    if (0 <=? year) && (year <=? 9999) then digits 4 year
    else (if year <? 0 then "-"%char else "+"%char) :: digits 6 (Z.abs year) in
  string_of_list_ascii
    (YYYY ++ ["-"%char] ++ digits 2 (MonthFromTime tv + 1)
          ++ ["-"%char] ++ digits 2 (DateFromTime tv)
          ++ ["T"%char] ++ digits 2 (HourFromTime tv)
          ++ [":"%char] ++ digits 2 (MinFromTime tv)
          ++ [":"%char] ++ digits 2 (SecFromTime tv)
          ++ ["."%char] ++ digits 3 (msFromTime tv)
          ++ ["Z"%char]).

(** Reading the format: a number of [k] digits, a given character. *)
Definition valueOfDigit (c : ascii) : option Z :=
  let n := Z.of_nat (nat_of_ascii c) in
  if (48 <=? n) && (n <=? 57) then Some (n - 48) else None.

Fixpoint number (k : nat) (acc : Z) (cs : list ascii) : option (Z * list ascii) :=
  match k with
  | O => Some (acc, cs)
  | Datatypes.S k' =>
      match cs with
      | c :: cs' =>
          match valueOfDigit c with
          | Some v => number k' (10 * acc + v) cs'
          | None => None
          end
      | [] => None
      end
  end.

Definition character (c : ascii) (cs : list ascii) : option (list ascii) :=
  match cs with
  | c' :: cs' => if Ascii.eqb c c' then Some cs' else None
  | [] => None
  end.

(** The year: four digits, or a sign and six digits; [-000000] is not a
    year. *)
Definition yearOf (cs : list ascii) : option (Z * list ascii) :=
  match cs with
  | c :: cs' =>
      if Ascii.eqb c "+" then number 6 0 cs'
      else if Ascii.eqb c "-" then
        match number 6 0 cs' with
        | Some (y, rest) => if y =? 0 then None else Some (- y, rest)
        | None => None
        end
      else number 4 0 cs
  | [] => None
  end.

(** [Date.parse] on the complete form [YYYY-MM-DDTHH:mm:ss.sssZ] of the
    format, the form [toISOString] writes.  Its fields are a month from 01 to
    12, a day from 01 to 31, an hour from 00 to 24 (24 at the end of the day
    only), minutes and seconds from 00 to 59.  [None] stands for a text that
    is not of this form (the shorter forms of the format are not embedded),
    and for NaN, the time value of an invalid date: a field out of its
    bounds, a time beyond the range of the time values. *)
Definition parse (s : string) : option Z :=
  match yearOf (list_ascii_of_string s) with
  | None => None
  | Some (year, cs) =>
  match character "-" cs with None => None | Some cs =>
  match number 2 0 cs with None => None | Some (month, cs) =>
  match character "-" cs with None => None | Some cs =>
  match number 2 0 cs with None => None | Some (day, cs) =>
  match character "T" cs with None => None | Some cs =>
  match number 2 0 cs with None => None | Some (hour, cs) =>
  match character ":" cs with None => None | Some cs =>
  match number 2 0 cs with None => None | Some (minute, cs) =>
  match character ":" cs with None => None | Some cs =>
  match number 2 0 cs with None => None | Some (second, cs) =>
  match character "." cs with None => None | Some cs =>
  match number 3 0 cs with None => None | Some (ms, cs) =>
  match character "Z" cs with None => None | Some cs =>
  match cs with
  | _ :: _ => None
  | [] =>
      if (1 <=? month) && (month <=? 12)
         && (1 <=? day) && (day <=? 31)
         && (hour <=? 24) && (minute <=? 59) && (second <=? 59)
         && ((hour <? 24) || ((minute =? 0) && (second =? 0) && (ms =? 0)))
      then TimeClip (MakeDate (MakeDay year (month - 1) day)
                              (MakeTime hour minute second ms))
      else None
  end end end end end end end end end end end end end end
  end.

End ISO.

(** ** Vocabulary of the statements *)

(** The indices [i, i+1, ..., i+n-1] a loop visits. *)
Fixpoint zseq (i : Z) (n : nat) : list Z :=
  match n with
  | O => []
  | Datatypes.S n' => i :: zseq (i + 1) n'
  end.

(** A list of timestamps covers [now - hours, now] in steps of [step] minutes:
    it has [hours*60/step + 1] entries, neighbours are [step] minutes apart, the
    first is [now - hours] and the last is [now]. *)
Definition on_grid (now hours step : Z) (ts : list Date) : Prop :=
  List.length ts = Z.to_nat (hours * 60 / step + 1)
  /\ (forall k, (Datatypes.S k < List.length ts)%nat ->
        (nth (Datatypes.S k) ts 0 - nth k ts 0 = step * 60000)%Z)
  /\ (nth 0 ts 0 = now - hours * 3600000)%Z
  /\ (nth (List.length ts - 1) ts 0 = now)%Z
  /\ (nth (List.length ts - 1) ts 0 - nth 0 ts 0 = hours * 3600000)%Z.

(** What the range resolver yields: [(totalHours, stepMinutes)]. *)
Definition resolved (range : DateRange) : Z * Z :=
  match range with
  | Range24h => (24, 15)
  | Range48h => (48, 15)
  | Range7d => (168, 30)
  end%Z.

(** *** The host's [Math.sin] (binary64) *)

(** The arcs on which the sine is negative, each taken with a margin from the
    zeros of the sine at [-pi], [0], [pi] and [2 pi]. *)
Definition inNegArc (x : float) : bool :=
  (PrimFloat.leb (-3.14) x && PrimFloat.leb x (-0.001)
   || PrimFloat.leb 3.142 x && PrimFloat.leb x 6.28)%float.

(** [Math.sin] has the sign of the sine away from its zeros. *)
Definition sin_sign_correct (sinf : float -> float) : Prop :=
  forall x, inNegArc x = true -> PrimFloat.leb (sinf x) 0 = true.

(** [Math.sin] of a finite number is a number. *)
Definition sin_total (sinf : float -> float) : Prop :=
  forall x, PrimFloat.is_finite x = true -> PrimFloat.is_nan (sinf x) = false.

(** The fractional hour of day at [hours:minutes] on the clock. *)
Definition clockHour (hours minutes : Z) : float :=
  PrimFloat.add (B64.lit (inject_Z hours))
                (PrimFloat.div (B64.lit (inject_Z minutes)) (B64.lit 60)).

(** The arguments the generators pass to [Math.sin]. *)
Definition solarArg (h : float) : float :=
  PrimFloat.div (PrimFloat.mul B64.PI (PrimFloat.sub h (B64.lit 6))) (B64.lit 12).

Definition windArg (phase : Q) (h : float) : float :=
  PrimFloat.div
    (PrimFloat.mul (PrimFloat.mul (B64.lit 2) B64.PI) (PrimFloat.sub h (B64.lit phase)))
    (B64.lit 24).

(** Outside daylight: before 06:00 or after 18:00. *)
Definition outsideDaylight (h : float) : bool :=
  (PrimFloat.ltb h 6 || PrimFloat.ltb 18 h)%float.

(** A square wave with the sign of the sine on [inNegArc]: a host function for
    the examples. *)
Definition squareSin (x : float) : float :=
  if inNegArc x then (-1)%float else 1%float.

Definition constCos (x : float) : float := 1%float.

(** *** Raw mixes *)

Definition allPresent {T} (m : GenerationMixBreakdown T) : PartialMix T :=
  {| wind_opt := Some (wind m); solar_opt := Some (solar m);
     hydro_opt := Some (hydro m); gas_opt := Some (gas m);
     coal_opt := Some (coal m); biomass_opt := Some (biomass m);
     imports_opt := Some (imports m) |}.

Definition nothingPresent {T} : PartialMix T :=
  {| wind_opt := None; solar_opt := None; hydro_opt := None; gas_opt := None;
     coal_opt := None; biomass_opt := None; imports_opt := None |}.

(** *** Mixes over binary64 *)

(** The raw mix with its absent fields read as 0. *)
Definition withDefaults (raw : PartialMix float) : GenerationMixBreakdown float :=
  {| wind := nullish (wind_opt raw) 0%float;
     solar := nullish (solar_opt raw) 0%float;
     hydro := nullish (hydro_opt raw) 0%float;
     gas := nullish (gas_opt raw) 0%float;
     coal := nullish (coal_opt raw) 0%float;
     biomass := nullish (biomass_opt raw) 0%float;
     imports := nullish (imports_opt raw) 0%float |}.

(** The sum of the seven fields, added from 0 in the order of the keys. *)
Definition sum7 (m : GenerationMixBreakdown float) : float :=
  (0 + wind m + solar m + hydro m + gas m + coal m + biomass m + imports m)%float.

(** [|s - 1| <= 1e-9]. *)
Definition sumsToOne (m : GenerationMixBreakdown float) : bool :=
  PrimFloat.leb (PrimFloat.abs (sum7 m - 1)) 1e-9%float.

Definition fallbackMix : GenerationMixBreakdown float :=
  {| wind := 0.3; solar := 0.05; hydro := 0.05; gas := 0.45;
     coal := 0.05; biomass := 0.05; imports := 0.05 |}%float.

Definition zeroMix : GenerationMixBreakdown float :=
  {| wind := 0; solar := 0; hydro := 0; gas := 0;
     coal := 0; biomass := 0; imports := 0 |}%float.

(** Two non-negative fields whose sum overflows. *)
Definition hugeMix : PartialMix float :=
  {| wind_opt := Some 1e308%float; solar_opt := Some 1e308%float;
     hydro_opt := None; gas_opt := None; coal_opt := None;
     biomass_opt := None; imports_opt := None |}.

(** Fields of both signs whose sum cancels. *)
Definition cancellingMix : PartialMix float :=
  {| wind_opt := Some 3e16%float; solar_opt := Some 5%float;
     hydro_opt := Some (-3e16)%float; gas_opt := Some 2%float;
     coal_opt := None; biomass_opt := None; imports_opt := None |}.

Definition evenMix : GenerationMixBreakdown float :=
  {| wind := 0.5; solar := 0.25; hydro := 0.25; gas := 0;
     coal := 0; biomass := 0; imports := 0 |}%float.

(** *** An example host *)

(** A polynomial sine and cosine: the argument is reduced to [[-pi, pi]] and
    the Taylor polynomial of degree 27 (28 for the cosine) is evaluated in
    Horner form.  One [Math.sin] and [Math.cos] a host may provide, on which
    the generators can be run. *)
Definition reduceArg (x : float) : float :=
  (x - B64.round (x / (2 * B64.PI)) * (2 * B64.PI))%float.

Definition horner (r2 : float) (ds : list float) : float :=
  fold_right (fun d acc => (1 - r2 / d * acc)%float) 1%float ds.

Definition polySin (x : float) : float :=
  let r := reduceArg x in
  (r * horner (r * r) [6; 20; 42; 72; 110; 156; 210; 272; 342; 420; 506; 600; 702])%float.

Definition polyCos (x : float) : float :=
  let r := reduceArg x in
  horner (r * r) [2; 12; 30; 56; 90; 132; 182; 240; 306; 380; 462; 552; 650; 756]%float.

(** 2023-11-14T22:13:20Z, on a host in the UTC time zone. *)
Definition exampleNow : Date := 1700000000000.
Definition utc (t : Z) : Z := 0.

(** *** Rounded reals *)

(** [rnd] rounds with relative error at most [u]: binary64's rounding to
    nearest of a sum, a difference or a literal that does not overflow (a sum
    in the subnormal range is exact). *)
Definition relative (rnd : R -> R) : Prop :=
  forall x : R, (Rabs (rnd x - x) <= u * Rabs x)%R.

(** [rnd] rounds with relative error at most [u] or absolute error at most
    [eta], and keeps the sign: binary64's rounding to nearest of a product or a
    quotient that does not overflow, gradual underflow included. *)
Definition gradual (rnd : R -> R) : Prop :=
  (forall x : R, (Rabs (rnd x - x) <= u * Rabs x + eta)%R)
  /\ (forall x : R, (0 <= x)%R -> (0 <= rnd x)%R).

Definition rounding (rndA rndM : R -> R) : Prop :=
  relative rndA /\ gradual rndM.

(** Exact arithmetic. *)
Definition unrounded (x : R) : R := x.

(** Every sum is rounded away from zero by the full relative error, every
    product by the full relative and absolute error. *)
Definition inflate (x : R) : R := (x * (1 + u))%R.
Definition inflateM (x : R) : R := (x * (1 + u) + eta)%R.

(** [x] is [y] up to [p] roundings of a numerator and [q] of a denominator. *)
Definition lo (p q : nat) : R := ((1 - u) ^ p / (1 + u) ^ q)%R.
Definition hi (p q : nat) : R := ((1 + u) ^ p / (1 - u) ^ q)%R.
Definition approx (p q : nat) (x y : R) : Prop :=
  (y * lo p q <= x <= y * hi p q)%R.

(** The same, up to one underflow as well. *)
Definition nearly (p q : nat) (x y : R) : Prop :=
  (y * lo p q - eta <= x <= y * hi p q + eta)%R.

(** The sum of the seven fields in exact arithmetic. *)
Definition exactSum (m : GenerationMixBreakdown R) : R :=
  (wind m + solar m + hydro m + gas m + coal m + biomass m + imports m)%R.

(** The sum of the seven fields as the program adds them. *)
Definition roundedSum (rndA : R -> R) (m : GenerationMixBreakdown R) : R :=
  fold_left (fun a b => rndA (a + b)%R) (values m) (rndA (Q2R 0)).

Definition nonneg (m : GenerationMixBreakdown R) : Prop :=
  (0 <= wind m /\ 0 <= solar m /\ 0 <= hydro m /\ 0 <= gas m
   /\ 0 <= coal m /\ 0 <= biomass m /\ 0 <= imports m)%R.

Definition nonnegField (x : option R) : Prop :=
  match x with Some v => (0 <= v)%R | None => True end.

Definition nonnegRaw (raw : PartialMix R) : Prop :=
  nonnegField (wind_opt raw) /\ nonnegField (solar_opt raw)
  /\ nonnegField (hydro_opt raw) /\ nonnegField (gas_opt raw)
  /\ nonnegField (coal_opt raw) /\ nonnegField (biomass_opt raw)
  /\ nonnegField (imports_opt raw).

(** Field by field, [m] is [m'] up to roundings. *)
Definition approxMix (p q : nat) (m m' : GenerationMixBreakdown R) : Prop :=
  approx p q (wind m) (wind m') /\ approx p q (solar m) (solar m')
  /\ approx p q (hydro m) (hydro m') /\ approx p q (gas m) (gas m')
  /\ approx p q (coal m) (coal m') /\ approx p q (biomass m) (biomass m')
  /\ approx p q (imports m) (imports m').

Definition nearlyMix (p q : nat) (m m' : GenerationMixBreakdown R) : Prop :=
  nearly p q (wind m) (wind m') /\ nearly p q (solar m) (solar m')
  /\ nearly p q (hydro m) (hydro m') /\ nearly p q (gas m) (gas m')
  /\ nearly p q (coal m) (coal m') /\ nearly p q (biomass m) (biomass m')
  /\ nearly p q (imports m) (imports m').

(** The weighted sum of the intensity calculator in exact arithmetic. *)
Definition exactIntensity (m : GenerationMixBreakdown R) : R :=
  (wind m * 12 + solar m * 50 + hydro m * 24 + gas m * 400 + coal m * 900
   + biomass m * 230 + imports m * 300)%R.

(** Per-field multiplicative scaling, as both provider branches do it. *)
Definition scaleMix {T} `{JsNumber T} (factors m : GenerationMixBreakdown T)
  : GenerationMixBreakdown T :=
  {| wind := (wind m * wind factors)%js;
     solar := (solar m * solar factors)%js;
     hydro := (hydro m * hydro factors)%js;
     gas := (gas m * gas factors)%js;
     coal := (coal m * coal factors)%js;
     biomass := (biomass m * biomass factors)%js;
     imports := (imports m * imports factors)%js |}.

(** Every field is at least [c]. *)
Definition atLeast (c : R) (m : GenerationMixBreakdown R) : Prop :=
  (c <= wind m /\ c <= solar m /\ c <= hydro m /\ c <= gas m
   /\ c <= coal m /\ c <= biomass m /\ c <= imports m)%R.

(** [Math.round] on the reals. *)
Definition roundHalfUp (x : R) : Z := Zfloor (x + / 2)%R.

(** The weighted sum of the intensity calculator as the program adds it. *)
Definition roundedIntensity (rndA rndM : R -> R) (m : GenerationMixBreakdown R) : R :=
  fold_left
    (fun total key =>
       rndA (total + rndM (get key m
                           * Mock.EMISSION_FACTORS (H := Rounded rndA rndM) key))%R)
    keys (rndA (Q2R 0)).

(** The raw mix with its absent fields read as [num 0]. *)
Definition baseOf {T} `{JsNumber T} (raw : PartialMix T) : GenerationMixBreakdown T :=
  {| wind := nullish (wind_opt raw) (num 0);
     solar := nullish (solar_opt raw) (num 0);
     hydro := nullish (hydro_opt raw) (num 0);
     gas := nullish (gas_opt raw) (num 0);
     coal := nullish (coal_opt raw) (num 0);
     biomass := nullish (biomass_opt raw) (num 0);
     imports := nullish (imports_opt raw) (num 0) |}.

(** The fallback distribution in exact arithmetic. *)
Definition exactFallback : GenerationMixBreakdown R :=
  {| wind := 3 / 10; solar := 5 / 100; hydro := 5 / 100; gas := 45 / 100;
     coal := 5 / 100; biomass := 5 / 100; imports := 5 / 100 |}%R.

(** A normalized mix: non-negative fields that sum to 1 within 1e-9. *)
Definition normalized (m : GenerationMixBreakdown R) : Prop :=
  nonneg m /\ (Rabs (exactSum m - 1) <= 1 / 1000000000)%R.

(** A mix is a distribution within the tolerance: it is normalized, and its
    fields sum to 1 within 1e-9 as the program adds them as well. *)
Definition isDistribution (rndA : R -> R) (m : GenerationMixBreakdown R) : Prop :=
  normalized m /\ (Rabs (roundedSum rndA m - 1) <= 1 / 1000000000)%R.

Definition exampleMixR : GenerationMixBreakdown R :=
  {| wind := 1; solar := 2; hydro := 1; gas := 0; coal := 0; biomass := 0;
     imports := 0 |}%R.

Definition quarterMixR : GenerationMixBreakdown R :=
  {| wind := 1 / 4; solar := 1 / 2; hydro := 1 / 4; gas := 0; coal := 0;
     biomass := 0; imports := 0 |}%R.

Definition onesR : GenerationMixBreakdown R :=
  {| wind := 1; solar := 1; hydro := 1; gas := 1; coal := 1; biomass := 1;
     imports := 1 |}%R.

(** The factors of the ENTSO-E branch and their inverses, over binary64. *)
Definition entsoeFactors : GenerationMixBreakdown float :=
  {| wind := num 1.5; solar := num 1.8; hydro := num 1.2; gas := num 0.7;
     coal := num 0.2; biomass := num 1.3; imports := num 0.6 |}.

Definition inverseFactors (f : GenerationMixBreakdown float) : GenerationMixBreakdown float :=
  mapMix (fun v => (1 / v)%float) f.

(** *** The example host *)

Definition exampleHost : JsMath float := B64Math polySin polyCos.

Definition allRanges : list DateRange := [Range24h; Range48h; Range7d].
Definition allProviders : list Provider := [MockOffline; EirGridRealtime; ENTSOERealtime].

(** A binary64 value that is a non-negative integer. *)
Definition isNonNegInteger (x : float) : bool :=
  PrimFloat.leb 0 x && PrimFloat.eqb (B64.round x) x.

(** Every mix the two generators publish on the example host, for the three
    ranges, sums to 1 within 1e-9. *)
Definition exampleMixesSumToOne : bool :=
  forallb (fun range =>
    forallb (fun p => sumsToOne (mix p))
      (generation (Mock.generateMockSeries (H0 := exampleHost) utc exampleNow range))
    && match Eirgrid.fetchRealEirGridData (H0 := exampleHost) utc exampleNow range with
       | Ok s => forallb (fun p => sumsToOne (mix p)) (generation s)
       | Err _ => false
       end) allRanges.

(** Every intensity the two generators publish on the example host, for the
    three ranges, is a non-negative integer. *)
Definition exampleIntensitiesAreIntegers : bool :=
  forallb (fun range =>
    forallb (fun p => isNonNegInteger (gramsCO2PerKWh p))
      (intensity (Mock.generateMockSeries (H0 := exampleHost) utc exampleNow range))
    && match Eirgrid.fetchRealEirGridData (H0 := exampleHost) utc exampleNow range with
       | Ok s => forallb (fun p => isNonNegInteger (gramsCO2PerKWh p)) (intensity s)
       | Err _ => false
       end) allRanges.

(** Every mix of every provider variant on the example host, for the three
    ranges, sums to 1 within 1e-9. *)
Definition exampleVariantsSumToOne : bool :=
  forallb (fun range =>
    forallb (fun provider =>
      forallb (fun p => sumsToOne (mix p))
        (generation (App.generateProviderSpecificData (H0 := exampleHost)
                       utc exampleNow provider range)))
      allProviders) allRanges.

(** On the example host, the solar share of every published mix whose
    timestamp is outside daylight is 0. *)
Definition examplePublishedSolarZero : bool :=
  forallb (fun range =>
    forallb (fun p =>
        implb (outsideDaylight (Mock.hourOfDay utc (gm_timestamp p)))
              (PrimFloat.eqb (solar (mix p)) 0))
      (generation (Mock.generateMockSeries (H0 := exampleHost) utc exampleNow range))
    && match Eirgrid.fetchRealEirGridData (H0 := exampleHost) utc exampleNow range with
       | Ok s => forallb (fun p =>
           implb (outsideDaylight (Mock.hourOfDay utc (gm_timestamp p)))
                 (PrimFloat.eqb (solar (mix p)) 0)) (generation s)
       | Err _ => false
       end) allRanges.

Definition inBand (lo hi : Q) (w : float) : bool :=
  PrimFloat.leb (B64.lit lo) w && PrimFloat.leb w (B64.lit hi).

(** On the example host, the wind share of every published mix is in the band
    of its generator. *)
Definition examplePublishedWindInBand : bool :=
  forallb (fun range =>
    forallb (fun p => inBand 0.1 0.75 (wind (mix p)))
      (generation (Mock.generateMockSeries (H0 := exampleHost) utc exampleNow range))
    && match Eirgrid.fetchRealEirGridData (H0 := exampleHost) utc exampleNow range with
       | Ok s => forallb (fun p => inBand 0.1 0.8 (wind (mix p))) (generation s)
       | Err _ => false
       end) allRanges.

(** *** Exact values of binary64 mixes *)

(** A raw mix of total 4. *)
Definition pairMix : PartialMix float :=
  {| wind_opt := Some 2%float; solar_opt := Some 2%float;
     hydro_opt := None; gas_opt := None; coal_opt := None;
     biomass_opt := None; imports_opt := None |}.

Definition halvesMix : GenerationMixBreakdown float :=
  {| wind := 0.5; solar := 0.5; hydro := 0; gas := 0;
     coal := 0; biomass := 0; imports := 0 |}%float.

(** The rational number a finite binary64 value is. *)
Definition exactValue (x : float) : Q :=
  match Prim2SF x with
  | S754_finite s m e =>
      Qmult (inject_Z (if s then Z.neg m else Z.pos m)) (Qpower (2 # 1) e)
  | _ => 0%Q
  end.

(** The sum of the seven fields and their weighted sum, with the factors 12,
    50, 24, 400, 900, 230 and 300, in exact rational arithmetic. *)
Definition exactFieldSum (m : GenerationMixBreakdown float) : Q :=
  (exactValue (wind m) + exactValue (solar m) + exactValue (hydro m)
   + exactValue (gas m) + exactValue (coal m) + exactValue (biomass m)
   + exactValue (imports m))%Q.

Definition exactWeightedSum (m : GenerationMixBreakdown float) : Q :=
  (exactValue (wind m) * 12 + exactValue (solar m) * 50 + exactValue (hydro m) * 24
   + exactValue (gas m) * 400 + exactValue (coal m) * 900
   + exactValue (biomass m) * 230 + exactValue (imports m) * 300)%Q.

(** A normalized mix of solar and hydro whose weighted sum is [24.5 - 2^-49],
    half a unit in the last place below the tie 24.5. *)
Definition tie24 : GenerationMixBreakdown float :=
  {| wind := 0; solar := 0x1.3b13b13b13bp-6; hydro := 0x1.f627627627628p-1;
     gas := 0; coal := 0; biomass := 0; imports := 0 |}%float.

(** ** Vocabulary of the further properties *)

(** *** binary64 *)

(** [x] and [y] are the same binary64 value, or [x] is [+0] where [y] is
    [-0]: the same number in either case. *)
Definition upToZeroSign (x y : float) : Prop :=
  x = y \/ (x = 0%float /\ y = (-0)%float).

(** The same value of binary64, decided on the representation. *)
Definition SF_eqb (x y : spec_float) : bool :=
  match x, y with
  | S754_zero s, S754_zero s' => Bool.eqb s s'
  | S754_infinity s, S754_infinity s' => Bool.eqb s s'
  | S754_nan, S754_nan => true
  | S754_finite s m e, S754_finite s' m' e' =>
      Bool.eqb s s' && Pos.eqb m m' && Z.eqb e e'
  | _, _ => false
  end.

Definition identical (x y : float) : bool := SF_eqb (Prim2SF x) (Prim2SF y).

(** The seven fields of a mix, as [sum7] adds them, without the leading 0. *)
Definition plainSum (m : GenerationMixBreakdown float) : float :=
  (wind m + solar m + hydro m + gas m + coal m + biomass m + imports m)%float.

(** The place of a binary64 number on the number line: its class (negative
    or positive infinity, negative or positive finite, zero), then its exponent
    and its mantissa, both with the sign of the number.  Numbers compare as
    their ranks do, in lexicographic order. *)
Definition rank (x : spec_float) : Z * Z * Z :=
  match x with
  | S754_zero _ => (0, 0, 0)
  | S754_infinity s => (if s then -2 else 2, 0, 0)
  | S754_nan => (0, 0, 0)
  | S754_finite s m e => if s then (-1, - e, Z.neg m) else (1, e, Z.pos m)
  end%Z.

Definition lexcmp (r r' : Z * Z * Z) : comparison :=
  let '(a, b, c) := r in
  let '(a', b', c') := r' in
  match (a ?= a')%Z with
  | Eq => match (b ?= b')%Z with Eq => (c ?= c')%Z | o => o end
  | o => o
  end.

(** The object literal [fetchRealEirGridData] passes to [normalizeMix] for a
    raw data point. *)
Definition rawOf {T} (point : EirGridDataPoint T) : PartialMix T :=
  {| wind_opt := Some (eg_wind point); solar_opt := Some (eg_solar point);
     hydro_opt := Some (eg_hydro point); gas_opt := Some (eg_gas point);
     coal_opt := Some (eg_coal point); biomass_opt := Some (eg_biomass point);
     imports_opt := Some (eg_imports point) |}.

(** An intensity point carrying the integer [b]. *)
Definition intensityPoint (t : Date) (b : Z) : CarbonIntensityPoint float :=
  {| ci_timestamp := t; gramsCO2PerKWh := numZ b |}.

(** Over binary64 the two provider scalings of the integer [b] are the
    integers nearest to [0.8 b] and [0.6 b]. *)
Definition scalingIsNearest (b : Z) : bool :=
  identical (gramsCO2PerKWh (App.eirgridIntensity (intensityPoint 0 b)))
            (numZ ((8 * b + 5) / 10))
  && identical (gramsCO2PerKWh (App.entsoeIntensity (intensityPoint 0 b)))
               (numZ ((6 * b + 5) / 10)).

(** *** Rounded reals *)

(** The host's [Math] on the rounded reals: [Math.PI] is the rounding of pi,
    [Math.sin] and [Math.cos] are parameters. *)
Definition RoundedMath (rndA : R -> R) (sinR cosR : R -> R) : JsMath R :=
  {| Math_PI := rndA PI; Math_sin := sinR; Math_cos := cosR |}.

(** [Math.sin] stays in [[-1, 1]]. *)
Definition sin_bounded (sinR : R -> R) : Prop :=
  forall x : R, (-1 <= sinR x <= 1)%R.

(** A mix with all its generation in one source. *)
Definition windOnly : GenerationMixBreakdown R :=
  {| wind := 1; solar := 0; hydro := 0; gas := 0; coal := 0; biomass := 0;
     imports := 0 |}%R.

Definition coalOnly : GenerationMixBreakdown R :=
  {| wind := 0; solar := 0; hydro := 0; gas := 0; coal := 1; biomass := 0;
     imports := 0 |}%R.

(** Two mixes over binary64 with the same seven values. *)
Definition identicalMix (m m' : GenerationMixBreakdown float) : bool :=
  forallb (fun k => identical (get k m) (get k m')) keys.

(** On the example host, some mix the mock generator publishes is changed by
    a second normalization. *)
Definition exampleRenormalizationMoves : bool :=
  existsb (fun p => negb (identicalMix (Mock.normalizeMix (allPresent (mix p))) (mix p)))
    (generation (Mock.generateMockSeries (H0 := exampleHost) utc exampleNow Range24h)).

(** *** Tick labels *)

(** The character of a decimal digit, and the two digits of a number below
    100. *)
Definition digitChar (d : Z) : ascii := ascii_of_nat (48 + Z.to_nat d).

Definition twoDigits (n : Z) : string :=
  String (digitChar (n / 10)) (String (digitChar (n mod 10)) EmptyString).

(** [HH:mm]. *)
Definition clockLabel (hours minutes : Z) : string :=
  (twoDigits hours ++ ":" ++ twoDigits minutes)%string.

(** The values the generators pass to their clamps on wind and solar. *)
Definition mockWindRaw {T} `{JsNumber T} `{JsMath T} (hourOfDay : T) : T :=
  (num 0.35 + num 0.2 * Mock.dayFactor hourOfDay)%js.

Definition mockSolarRaw {T} `{JsNumber T} `{JsMath T} (hourOfDay : T) : T :=
  (num 0.18 * Mock.solarBase hourOfDay)%js.

Definition eirgridSolarRaw {T} `{JsNumber T} `{JsMath T} (hourOfDay : T) : T :=
  (num 0.12 * Eirgrid.solarBase hourOfDay)%js.

(** Over binary64, on the example host, at each of the 1440 clock readings:
    the clamps of the mock generator on wind and solar, and the clamp of the
    realistic generator on solar, return the value they are given. *)
Definition exampleClampsIdle : bool :=
  forallb (fun hh => forallb (fun mm =>
      let h := clockHour hh mm in
      identical (Mock.windAt (H0 := exampleHost) h) (mockWindRaw (H0 := exampleHost) h)
      && identical (Mock.solarAt (H0 := exampleHost) h)
                   (mockSolarRaw (H0 := exampleHost) h)
      && identical (Eirgrid.solarAt (H0 := exampleHost) h)
                   (eirgridSolarRaw (H0 := exampleHost) h))
    (zseq 0 60)) (zseq 0 24).

(** A raw mix with an infinite field. *)
Definition infiniteMix : PartialMix float :=
  {| wind_opt := Some PrimFloat.infinity; solar_opt := Some 1%float;
     hydro_opt := None; gas_opt := None; coal_opt := None;
     biomass_opt := None; imports_opt := None |}.

(** A number that is not negative and not infinite. *)
Definition finiteNonNeg (v : float) : Prop :=
  PrimFloat.leb 0 v = true /\ PrimFloat.ltb v PrimFloat.infinity = true.

(** The representations of the numbers that are not negative: a zero of
    either sign, a positive finite number, [+Infinity]. *)
Definition notNegative (x : spec_float) : Prop :=
  match x with
  | S754_zero _ => True
  | S754_finite s _ _ => s = false
  | S754_infinity s => s = false
  | S754_nan => False
  end.

(** * Properties *)

Unset Implicit Arguments.

(** ** Loops *)

Lemma zseq_length (n : nat) : forall i, List.length (zseq i n) = n.
Proof. induction n as [|n IH]; intros i; simpl; [reflexivity | now rewrite IH]. Qed.

Lemma map_zseq_nth {A : Type} (f : Z -> A) (n : nat) :
  forall i k d, (k < n)%nat -> nth k (map f (zseq i n)) d = f (i + Z.of_nat k)%Z.
Proof.
  induction n as [|n IH]; intros i k d Hk; [lia|].
  destruct k as [|k]; simpl.
  - f_equal. lia.
  - rewrite IH by lia. f_equal. lia.
Qed.

(** A loop whose body pushes one element per array is a [map] over the indices. *)
Lemma for_from_push {A : Type} (f : Z -> A) (n : nat) :
  forall i acc,
    for_from n i (fun i acc => acc ++ [f i]) acc = acc ++ map f (zseq i n).
Proof.
  induction n as [|n IH]; intros i acc; simpl.
  - now rewrite app_nil_r.
  - rewrite IH, <- app_assoc. reflexivity.
Qed.

Lemma for_from_push2 {T : Type} (f : Z -> CarbonIntensityPoint T)
    (g : Z -> GenerationMixPoint T) (n : nat) :
  forall i acc,
    for_from n i
      (fun i acc => {| intensity := intensity acc ++ [f i];
                       generation := generation acc ++ [g i] |}) acc
    = {| intensity := intensity acc ++ map f (zseq i n);
         generation := generation acc ++ map g (zseq i n) |}.
Proof.
  induction n as [|n IH]; intros i acc; simpl.
  - rewrite !app_nil_r. now destruct acc.
  - rewrite IH. simpl. rewrite <- !app_assoc. reflexivity.
Qed.

Lemma fold_left_push2 {T A : Type} (f : A -> CarbonIntensityPoint T)
    (g : A -> GenerationMixPoint T) (l : list A) :
  forall acc,
    fold_left
      (fun acc x => {| intensity := intensity acc ++ [f x];
                       generation := generation acc ++ [g x] |}) l acc
    = {| intensity := intensity acc ++ map f l;
         generation := generation acc ++ map g l |}.
Proof.
  induction l as [|x l IH]; intros acc; simpl.
  - rewrite !app_nil_r. now destruct acc.
  - rewrite IH. simpl. rewrite <- !app_assoc. reflexivity.
Qed.

(** ** The sampling grid *)

Lemma grid_of_indices (now hours step : Z) :
  (0 < step)%Z -> (0 <= hours)%Z -> (hours * 60 mod step = 0)%Z ->
  on_grid now hours step
    (map (fun i => addMinutes (subHours now hours) (i * step))
         (zseq 0 (Z.to_nat (hours * 60 / step + 1)))).
Proof.
  intros Hstep Hh Hdiv.
  set (points := (hours * 60 / step)%Z).
  assert (Hp : (0 <= points)%Z) by (apply Z.div_pos; lia).
  assert (Hexact : (points * step = hours * 60)%Z).
  { unfold points. pose proof (Z.div_mod (hours * 60) step). lia. }
  assert (Hnth : forall k, (k < Z.to_nat (points + 1))%nat ->
            nth k (map (fun i => addMinutes (subHours now hours) (i * step))
                       (zseq 0 (Z.to_nat (points + 1)))) 0%Z
            = (now - hours * 3600000 + Z.of_nat k * step * 60000)%Z).
  { intros k Hk.
    rewrite map_zseq_nth by assumption.
    unfold addMinutes, subHours. lia. }
  unfold on_grid. rewrite length_map, zseq_length.
  repeat split.
  - intros k Hk. rewrite !Hnth by lia. lia.
  - rewrite Hnth by lia. lia.
  - rewrite Hnth by lia. nia.
  - rewrite !Hnth by lia. nia.
Qed.

Lemma mock_timestamps {T} `{JsNumber T} `{JsMath T} tza now range :
  let s := Mock.generateMockSeries (T := T) tza now range in
  let hours := Mock.getRangeHours range in
  let step := Mock.stepMinutesOf range in
  let idx := zseq 0 (Z.to_nat (hours * 60 / step + 1)) in
  map (@ci_timestamp T) (intensity s)
    = map (fun i => addMinutes (subHours now hours) (i * step)) idx
  /\ map (@gm_timestamp T) (generation s)
    = map (fun i => addMinutes (subHours now hours) (i * step)) idx.
Proof.
  cbv zeta. unfold Mock.generateMockSeries, for_upto, Mock.body.
  rewrite for_from_push2. simpl intensity. simpl generation.
  rewrite !map_map. simpl. split; reflexivity.
Qed.

Lemma eirgrid_series {T} `{JsNumber T} `{JsMath T} tza now range :
  let hours := Eirgrid.getRangeHours range in
  let step := Eirgrid.stepMinutesOf range in
  let idx := zseq 0 (Z.to_nat (hours * 60 / step + 1)) in
  exists s : Series T,
    Eirgrid.fetchRealEirGridData tza now range = Ok s
    /\ map (@ci_timestamp T) (intensity s)
       = map (fun i => addMinutes (subHours now hours) (i * step)) idx
    /\ map (@gm_timestamp T) (generation s)
       = map (fun i => addMinutes (subHours now hours) (i * step)) idx.
Proof.
  cbv zeta.
  unfold Eirgrid.fetchRealEirGridData, Eirgrid.fetchEirGridData,
    Eirgrid.generateRealisticIrishData, for_upto.
  rewrite for_from_push. simpl app.
  eexists. split; [reflexivity|].
  unfold Eirgrid.pushPoint. rewrite fold_left_push2.
  simpl intensity. simpl generation.
  rewrite !map_map. simpl. split; reflexivity.
Qed.

(** C4: for each of the three ranges the resolver yields (24, 15), (48, 15)
    and (168, 30); both series of the mock generator and both series of the
    realistic generator have [totalHours*60/stepMinutes + 1] points, neighbours
    [stepMinutes] apart, the first at [now - totalHours] and the last at
    [now]. *)
Theorem series_cover_range :
  forall (T : Type) (N : JsNumber T) (M : JsMath T)
         (tza : Z -> Z) (now : Date) (range : DateRange),
    let hours := Mock.getRangeHours range in
    let step := Mock.stepMinutesOf range in
    (hours, step) = resolved range
    /\ (Eirgrid.getRangeHours range, Eirgrid.stepMinutesOf range) = resolved range
    /\ (let s := Mock.generateMockSeries tza now range in
        on_grid now hours step (map (@ci_timestamp T) (intensity s))
        /\ on_grid now hours step (map (@gm_timestamp T) (generation s)))
    /\ (exists s : Series T,
          Eirgrid.fetchRealEirGridData tza now range = Ok s
          /\ on_grid now hours step (map (@ci_timestamp T) (intensity s))
          /\ on_grid now hours step (map (@gm_timestamp T) (generation s))).
Proof.
  intros T N M tza now range hours step.
  assert (Hgrid : on_grid now hours step
            (map (fun i => addMinutes (subHours now hours) (i * step))
                 (zseq 0 (Z.to_nat (hours * 60 / step + 1))))).
  { apply grid_of_indices; subst hours step; destruct range; simpl; try lia;
      reflexivity. }
  split; [now destruct range|]. split; [now destruct range|]. split.
  - destruct (mock_timestamps (T := T) tza now range) as [Hi Hg].
    cbv zeta in Hi, Hg. cbv zeta. rewrite Hi, Hg. split; exact Hgrid.
  - destruct (eirgrid_series (T := T) tza now range) as (s & Hs & Hi & Hg).
    exists s. split; [exact Hs|].
    replace (Eirgrid.getRangeHours range) with hours in Hi, Hg by now destruct range.
    replace (Eirgrid.stepMinutesOf range) with step in Hi, Hg by now destruct range.
    rewrite Hi, Hg. split; exact Hgrid.
Qed.

(** ** binary64: comparisons, [Math.max], [Math.min] and NaN *)

Module B64Facts.

Lemma SFcompare_antisym (x y : spec_float) :
  SFcompare y x = option_map CompOpp (SFcompare x y).
Proof.
  destruct x as [sx|sx| |sx mx ex], y as [sy|sy| |sy my ey]; simpl;
    try reflexivity;
    try (destruct sx; reflexivity); try (destruct sy; reflexivity);
    try (destruct sx, sy; reflexivity).
  destruct sx, sy; simpl; try reflexivity;
    rewrite (Z.compare_antisym ex ey);
    destruct (ex ?= ey)%Z; simpl; try reflexivity; f_equal.
  - rewrite CompOpp_involutive. exact (Pos.compare_cont_antisym my mx Eq).
  - symmetry. exact (Pos.compare_cont_antisym mx my Eq).
Qed.

Lemma SFcompare_refl (x : spec_float) :
  x <> S754_nan -> SFcompare x x = Some Eq.
Proof.
  destruct x as [s|s| |s m e]; simpl; intros Hx; try congruence.
  - now destruct s.
  - destruct s; rewrite Z.compare_refl, Pos.compare_cont_refl; reflexivity.
Qed.

Lemma SFcompare_nan_l (x y : spec_float) :
  SFcompare x y <> None -> x <> S754_nan.
Proof. intros H ->. now apply H. Qed.

Lemma SFcompare_nan_r (x y : spec_float) :
  SFcompare x y <> None -> y <> S754_nan.
Proof. intros H ->. apply H. now destruct x. Qed.

Lemma SFcompare_some (x y : spec_float) :
  x <> S754_nan -> y <> S754_nan -> exists c, SFcompare x y = Some c.
Proof.
  destruct x as [sx|sx| |sx mx ex], y as [sy|sy| |sy my ey]; simpl;
    intros Hx Hy; try congruence; eexists; reflexivity.
Qed.

Lemma is_nan_spec (x : float) :
  PrimFloat.is_nan x = false <-> Prim2SF x <> S754_nan.
Proof.
  unfold PrimFloat.is_nan. rewrite FloatAxioms.eqb_spec. unfold SFeqb. split.
  - intros H Hn. rewrite Hn in H. discriminate.
  - intros Hn. now rewrite SFcompare_refl.
Qed.

(** A comparison that answers [true] has two numbers as operands. *)
Lemma leb_num (x y : float) :
  PrimFloat.leb x y = true ->
  PrimFloat.is_nan x = false /\ PrimFloat.is_nan y = false.
Proof.
  rewrite FloatAxioms.leb_spec, !is_nan_spec. unfold SFleb. intros H.
  split; [apply SFcompare_nan_l with (y := Prim2SF y)
         | apply SFcompare_nan_r with (x := Prim2SF x)];
    intros E; rewrite E in H; discriminate.
Qed.

Lemma leb_refl (x : float) :
  PrimFloat.is_nan x = false -> PrimFloat.leb x x = true.
Proof.
  rewrite is_nan_spec, FloatAxioms.leb_spec. unfold SFleb. intros H.
  now rewrite SFcompare_refl.
Qed.

Lemma ltb_leb (x y : float) :
  PrimFloat.ltb x y = true -> PrimFloat.leb x y = true.
Proof.
  rewrite FloatAxioms.ltb_spec, FloatAxioms.leb_spec. unfold SFltb, SFleb.
  destruct (SFcompare _ _) as [[]|]; congruence.
Qed.

Lemma ltb_not_leb (x y : float) :
  PrimFloat.ltb x y = true -> PrimFloat.leb y x = false.
Proof.
  rewrite FloatAxioms.ltb_spec, FloatAxioms.leb_spec. unfold SFltb, SFleb.
  rewrite (SFcompare_antisym (Prim2SF x) (Prim2SF y)).
  destruct (SFcompare _ _) as [[]|]; simpl; congruence.
Qed.

Lemma leb_not_ltb (x y : float) :
  PrimFloat.leb x y = true -> PrimFloat.ltb y x = false.
Proof.
  rewrite FloatAxioms.ltb_spec, FloatAxioms.leb_spec. unfold SFltb, SFleb.
  rewrite (SFcompare_antisym (Prim2SF x) (Prim2SF y)).
  destruct (SFcompare _ _) as [[]|]; simpl; congruence.
Qed.

(** Two numbers neither of which is below the other compare equal. *)
Lemma not_ltb_leb (x y : float) :
  PrimFloat.is_nan x = false -> PrimFloat.is_nan y = false ->
  PrimFloat.ltb x y = false -> PrimFloat.leb y x = true.
Proof.
  rewrite !is_nan_spec, FloatAxioms.ltb_spec, FloatAxioms.leb_spec. unfold SFltb, SFleb.
  intros Hx Hy. rewrite (SFcompare_antisym (Prim2SF x) (Prim2SF y)).
  destruct (SFcompare_some _ _ Hx Hy) as [c ->].
  destruct c; simpl; congruence.
Qed.

Lemma min_cases (a b : float) :
  PrimFloat.is_nan a = false -> PrimFloat.is_nan b = false ->
  B64.min a b = a \/ B64.min a b = b.
Proof.
  intros Ha Hb. unfold B64.min. rewrite Ha, Hb. simpl.
  destruct (PrimFloat.ltb a b); [now left|].
  destruct (PrimFloat.ltb b a); [now right|].
  destruct (PrimFloat.classify a); auto.
Qed.

Lemma max_cases (a b : float) :
  PrimFloat.is_nan a = false -> PrimFloat.is_nan b = false ->
  B64.max a b = a \/ B64.max a b = b.
Proof.
  intros Ha Hb. unfold B64.max. rewrite Ha, Hb. simpl.
  destruct (PrimFloat.ltb a b); [now right|].
  destruct (PrimFloat.ltb b a); [now left|].
  destruct (PrimFloat.classify a); auto.
Qed.

Lemma min_le_l (a b : float) :
  PrimFloat.is_nan a = false -> PrimFloat.is_nan b = false ->
  PrimFloat.leb (B64.min a b) a = true.
Proof.
  intros Ha Hb. unfold B64.min. rewrite Ha, Hb. simpl.
  destruct (PrimFloat.ltb a b) eqn:Hab; [now apply leb_refl|].
  destruct (PrimFloat.ltb b a) eqn:Hba; [now apply ltb_leb|].
  assert (Hle : PrimFloat.leb b a = true) by now apply not_ltb_leb.
  destruct (PrimFloat.classify a); solve [now apply leb_refl | exact Hle].
Qed.

Lemma max_ge_l (a b : float) :
  PrimFloat.is_nan a = false -> PrimFloat.is_nan b = false ->
  PrimFloat.leb a (B64.max a b) = true.
Proof.
  intros Ha Hb. unfold B64.max. rewrite Ha, Hb. simpl.
  destruct (PrimFloat.ltb a b) eqn:Hab; [now apply ltb_leb|].
  destruct (PrimFloat.ltb b a) eqn:Hba; [now apply leb_refl|].
  assert (Hle : PrimFloat.leb a b = true) by now apply not_ltb_leb.
  destruct (PrimFloat.classify a); solve [now apply leb_refl | exact Hle].
Qed.

(** [Math.max(lo, Math.min(hi, v))] lies in [[lo, hi]] whenever [lo <= hi] and
    [v] is a number. *)
Lemma clamp_band (v lo hi : float) :
  PrimFloat.leb lo hi = true -> PrimFloat.is_nan v = false ->
  let w := B64.max lo (B64.min hi v) in
  PrimFloat.leb lo w = true /\ PrimFloat.leb w hi = true.
Proof.
  intros Hlh Hv w. destruct (leb_num _ _ Hlh) as [Hlo Hhi].
  assert (Hm : PrimFloat.is_nan (B64.min hi v) = false).
  { destruct (min_cases hi v Hhi Hv) as [-> | ->]; assumption. }
  split.
  - now apply max_ge_l.
  - subst w. destruct (max_cases lo (B64.min hi v) Hlo Hm) as [-> | ->].
    + exact Hlh.
    + now apply min_le_l.
Qed.

(** [Math.max(0, s)] is [+0] when [s <= 0]. *)
Lemma max_zero_nonpos (s : float) :
  PrimFloat.leb s 0 = true -> B64.max 0 s = 0%float.
Proof.
  intros Hs. destruct (leb_num _ _ Hs) as [Hn _].
  unfold B64.max. rewrite Hn, (leb_not_ltb _ _ Hs). simpl.
  destruct (PrimFloat.ltb s 0); reflexivity.
Qed.

(** Rounding a non-negative mantissa never yields NaN. *)
Lemma iter_pos_inv {A : Type} (P : A -> Prop) (f : A -> A) :
  (forall x, P x -> P (f x)) -> forall n x, P x -> P (SpecFloat.iter_pos f n x).
Proof.
  intros Hf. induction n as [n IH|n IH|]; intros x Hx; simpl; auto.
Qed.

Lemma shr_1_nonneg (mrs : shr_record) :
  (0 <= shr_m mrs)%Z -> (0 <= shr_m (shr_1 mrs))%Z.
Proof.
  destruct mrs as [m r s]. simpl.
  destruct m as [|p|p]; [simpl; lia | | lia].
  intros _. destruct p; simpl; lia.
Qed.

Lemma shr_fexp_nonneg (m e : Z) (l : location) :
  (0 <= m)%Z -> (0 <= shr_m (fst (shr_fexp prec emax m e l)))%Z.
Proof.
  intros Hm. unfold shr_fexp, shr.
  assert (H0 : (0 <= shr_m (shr_record_of_loc m l))%Z).
  { destruct l as [|[]]; exact Hm. }
  destruct (fexp prec emax (Zdigits2 m + e) - e)%Z; simpl; try exact H0.
  apply (iter_pos_inv (fun r => (0 <= shr_m r)%Z)); [apply shr_1_nonneg | exact H0].
Qed.

Lemma round_nearest_even_nonneg (m : Z) (l : location) :
  (0 <= m)%Z -> (0 <= round_nearest_even m l)%Z.
Proof.
  intros Hm. destruct l as [|[]]; simpl; try lia.
  destruct (Z.even m); lia.
Qed.

Lemma binary_round_aux_num (sx : bool) (mx ex : Z) (lx : location) :
  (0 <= mx)%Z -> binary_round_aux prec emax sx mx ex lx <> S754_nan.
Proof.
  intros Hm. unfold binary_round_aux.
  pose proof (shr_fexp_nonneg mx ex lx Hm) as H1.
  destruct (shr_fexp prec emax mx ex lx) as [mrs' e']. simpl in H1.
  pose proof (shr_fexp_nonneg _ e' loc_Exact
                (round_nearest_even_nonneg _ (loc_of_shr_record mrs') H1)) as H2.
  destruct (shr_fexp prec emax _ e' loc_Exact) as [mrs'' e'']. simpl in H2.
  destruct (shr_m mrs'') as [|p|p]; [discriminate | | lia].
  destruct (Z.leb _ _); discriminate.
Qed.

Lemma binary_normalize_num (m e : Z) (szero : bool) :
  binary_normalize prec emax m e szero <> S754_nan.
Proof.
  unfold binary_normalize, binary_round.
  destruct m as [|p|p]; [discriminate | |];
    destruct (shl_align _ _ _) as [mz ez]; apply binary_round_aux_num; lia.
Qed.

(** The product of a finite non-zero number and a number is a number. *)
Lemma mul_num (a b : float) s m e :
  Prim2SF a = S754_finite s m e -> PrimFloat.is_nan b = false ->
  PrimFloat.is_nan (a * b) = false /\ PrimFloat.is_nan (b * a) = false.
Proof.
  rewrite !is_nan_spec, !FloatAxioms.mul_spec. intros -> Hb. unfold SF64mul.
  destruct (Prim2SF b) as [sb|sb| |sb mb eb]; simpl; try congruence;
    split; try discriminate; apply binary_round_aux_num; lia.
Qed.

(** The sum of a finite number and a number is a number. *)
Lemma add_num (a b : float) s m e :
  Prim2SF a = S754_finite s m e -> PrimFloat.is_nan b = false ->
  PrimFloat.is_nan (a + b) = false.
Proof.
  rewrite !is_nan_spec, !FloatAxioms.add_spec. intros -> Hb. unfold SF64add.
  destruct (Prim2SF b) as [sb|sb| |sb mb eb]; simpl; try congruence;
    try discriminate.
  apply binary_normalize_num.
Qed.

End B64Facts.

(** ** The generators over binary64 *)

Lemma zseq_In (n : nat) : forall i k, (i <= k < i + Z.of_nat n)%Z -> In k (zseq i n).
Proof.
  induction n as [|n IH]; intros i k Hk; [lia|].
  simpl. destruct (Z.eq_dec i k) as [->|Hne]; [now left|].
  right. apply IH. lia.
Qed.

Lemma getHours_range tza t : (0 <= getHours tza t < 24)%Z.
Proof. unfold getHours. apply Z.mod_pos_bound. lia. Qed.

Lemma getMinutes_range tza t : (0 <= getMinutes tza t < 60)%Z.
Proof. unfold getMinutes. apply Z.mod_pos_bound. lia. Qed.

(** A property checked at the 1440 clock readings holds at every reading. *)
Lemma clock_forall (P : float -> bool) :
  forallb (fun hh => forallb (fun mm => P (clockHour hh mm)) (zseq 0 60)) (zseq 0 24)
    = true ->
  forall tza t, P (Mock.hourOfDay tza t) = true.
Proof.
  intros Hall tza t.
  change (Mock.hourOfDay tza t) with (clockHour (getHours tza t) (getMinutes tza t)).
  rewrite forallb_forall in Hall.
  specialize (Hall (getHours tza t)
                (zseq_In 24 0 (getHours tza t) ltac:(pose proof (getHours_range tza t); lia))).
  rewrite forallb_forall in Hall.
  apply Hall. apply zseq_In. pose proof (getMinutes_range tza t). lia.
Qed.

Lemma eirgrid_hourOfDay tza t :
  Eirgrid.hourOfDay (T := float) tza t = Mock.hourOfDay tza t.
Proof. reflexivity. Qed.

(** Outside daylight the argument of the solar sine lies on a negative arc. *)
Lemma solarArg_negative tza t :
  outsideDaylight (Mock.hourOfDay tza t) = true ->
  inNegArc (solarArg (Mock.hourOfDay tza t)) = true.
Proof.
  intros Hout.
  pose proof (clock_forall
    (fun h => implb (outsideDaylight h) (inNegArc (solarArg h)))) as Hc.
  cbv beta in Hc. specialize (Hc ltac:(vm_compute; reflexivity) tza t).
  rewrite Hout in Hc. exact Hc.
Qed.

(** The arguments of the wind sines are finite. *)
Lemma windArg_finite (phase : Q) :
  forallb (fun hh => forallb (fun mm =>
     PrimFloat.is_finite (windArg phase (clockHour hh mm))) (zseq 0 60)) (zseq 0 24) = true ->
  forall tza t, PrimFloat.is_finite (windArg phase (Mock.hourOfDay tza t)) = true.
Proof. intros Hall. exact (clock_forall (fun h => PrimFloat.is_finite (windArg phase h)) Hall). Qed.

(** Every point the generators produce is the sample of some index. *)
Lemma zseq_In_inv (n : nat) : forall i k, In k (zseq i n) -> (i <= k < i + Z.of_nat n)%Z.
Proof.
  induction n as [|n IH]; intros i k Hk; simpl in Hk; [contradiction|].
  destruct Hk as [<-|Hk]; [lia|]. apply IH in Hk. lia.
Qed.

Lemma mock_generation_points {T} `{JsNumber T} `{JsMath T} tza now range point :
  In point (generation (Mock.generateMockSeries (T := T) tza now range)) ->
  exists i : Z,
    let hours := Mock.getRangeHours range in
    let stepMinutes := Mock.stepMinutesOf range in
    let points := (hours * 60 / stepMinutes)%Z in
    (0 <= i <= points)%Z
    /\ gm_timestamp point = addMinutes (subHours now hours) (i * stepMinutes)
    /\ mix point
       = Mock.normalizeMix (Mock.rawMix points i (Mock.hourOfDay tza (gm_timestamp point))).
Proof.
  unfold Mock.generateMockSeries, for_upto, Mock.body.
  rewrite for_from_push2. cbn [generation app].
  rewrite in_map_iff. intros (i & <- & Hi). apply zseq_In_inv in Hi.
  exists i. cbv zeta. cbn [gm_timestamp mix].
  assert (0 <= Mock.getRangeHours range * 60 / Mock.stepMinutesOf range)%Z
    by (destruct range; cbv; discriminate).
  split; [lia|]. split; reflexivity.
Qed.

Lemma eirgrid_data_points {T} `{JsNumber T} `{JsMath T} tza now range dataPoints point :
  Eirgrid.generateRealisticIrishData (T := T) tza now range = Ok dataPoints ->
  In point dataPoints ->
  exists i : Z,
    let hours := Eirgrid.getRangeHours range in
    let stepMinutes := Eirgrid.stepMinutesOf range in
    let points := (hours * 60 / stepMinutes)%Z in
    (0 <= i <= points)%Z
    /\ point = Eirgrid.dataPoint tza (subHours now hours) stepMinutes points i.
Proof.
  unfold Eirgrid.generateRealisticIrishData, for_upto.
  rewrite for_from_push. cbn [app]. intros [= <-].
  rewrite in_map_iff. intros (i & <- & Hi). apply zseq_In_inv in Hi.
  exists i. cbv zeta.
  assert (0 <= Eirgrid.getRangeHours range * 60 / Eirgrid.stepMinutesOf range)%Z
    by (destruct range; cbv; discriminate).
  split; [lia | reflexivity].
Qed.

Section Host.
Variables sinf cosf : float -> float.
Let M : JsMath float := B64Math sinf cosf.

Lemma mock_solar_zero (h : float) :
  sin_sign_correct sinf -> inNegArc (solarArg h) = true ->
  Mock.solarAt (H0 := M) h = 0%float.
Proof.
  intros Hsin Harc. unfold Mock.solarAt, Mock.solarBase.
  change (Math_max (num 0) (Math_sin (Math_PI * (h - num 6) / num 12))%js)
    with (B64.max 0 (sinf (solarArg h))).
  rewrite (B64Facts.max_zero_nonpos _ (Hsin _ Harc)).
  vm_compute. reflexivity.
Qed.

Lemma eirgrid_solar_zero (h : float) :
  sin_sign_correct sinf -> inNegArc (solarArg h) = true ->
  Eirgrid.solarAt (H0 := M) h = 0%float.
Proof.
  intros Hsin Harc. unfold Eirgrid.solarAt, Eirgrid.solarBase.
  change (Math_max (num 0) (Math_sin (Math_PI * (h - num 6) / num 12))%js)
    with (B64.max 0 (sinf (solarArg h))).
  rewrite (B64Facts.max_zero_nonpos _ (Hsin _ Harc)).
  vm_compute. reflexivity.
Qed.

Lemma lit_finite (q : Q) :
  (exists s m e, Prim2SF (B64.lit q) = S754_finite s m e) ->
  forall b, PrimFloat.is_nan b = false ->
    PrimFloat.is_nan (B64.lit q * b) = false
    /\ PrimFloat.is_nan (b * B64.lit q) = false
    /\ PrimFloat.is_nan (B64.lit q + b) = false.
Proof.
  intros (s & m & e & E) b Hb.
  destruct (B64Facts.mul_num _ b _ _ _ E Hb) as [H1 H2].
  repeat split; try assumption. exact (B64Facts.add_num _ b _ _ _ E Hb).
Qed.

Lemma mock_wind_band (h : float) :
  sin_total sinf -> PrimFloat.is_finite (windArg 3 h) = true ->
  let w := Mock.windAt (H0 := M) h in
  (num 0.1 <=? w)%js = true /\ (w <=? num 0.75)%js = true.
Proof.
  intros Hsin Hfin.
  unfold Mock.windAt, Mock.clamp, Mock.dayFactor.
  change (Math_sin (num 2 * Math_PI * (h - num 3) / num 24)%js)
    with (sinf (windArg 3 h)).
  apply B64Facts.clamp_band; [vm_compute; reflexivity|].
  apply lit_finite; [vm_compute; eauto|].
  apply lit_finite; [vm_compute; eauto|].
  now apply Hsin.
Qed.

Lemma eirgrid_wind_band (h : float) :
  sin_total sinf -> PrimFloat.is_finite (windArg 2 h) = true ->
  let w := Eirgrid.windAt (H0 := M) h in
  (num 0.1 <=? w)%js = true /\ (w <=? num 0.8)%js = true.
Proof.
  intros Hsin Hfin.
  unfold Eirgrid.windAt.
  change (Math_sin (num 2 * Math_PI * (h - num 2) / num 24)%js)
    with (sinf (windArg 2 h)).
  apply B64Facts.clamp_band; [vm_compute; reflexivity|].
  apply lit_finite; [vm_compute; eauto|].
  apply lit_finite; [vm_compute; eauto|].
  now apply Hsin.
Qed.

End Host.

(** ** Properties over binary64 *)

(** C5: in either generator, the raw solar share of a sample whose fractional
    hour of day is below 6 or above 18 is exactly 0, for every host whose
    [Math.sin] has the sign of the sine away from its zeros: so it is at every
    index of the loop of either generator, and every mix the mock generator
    publishes is the normalization of such a raw mix, every data point of the
    realistic generator such a sample.  On the example host the solar share of
    every published, normalized, mix outside daylight is 0 as well. *)
Theorem solar_zero_outside_daylight :
  (forall (sinf cosf : float -> float) (tza : Z -> Z),
    sin_sign_correct sinf ->
    let M := B64Math sinf cosf in
    (forall (startDate : Date) (stepMinutes points i : Z),
        let t := addMinutes startDate (i * stepMinutes) in
        outsideDaylight (Mock.hourOfDay tza t) = true ->
        solar_opt (Mock.rawMix (H0 := M) points i (Mock.hourOfDay tza t)) = Some 0%float
        /\ eg_solar (Eirgrid.dataPoint (H0 := M) tza startDate stepMinutes points i)
           = 0%float)
    /\ (forall (now : Date) (range : DateRange) (point : GenerationMixPoint float),
          In point (generation (Mock.generateMockSeries (H0 := M) tza now range)) ->
          exists raw : PartialMix float,
            mix point = Mock.normalizeMix raw
            /\ (outsideDaylight (Mock.hourOfDay tza (gm_timestamp point)) = true ->
                solar_opt raw = Some 0%float))
    /\ (forall (now : Date) (range : DateRange)
               (dataPoints : list (EirGridDataPoint float)) (point : EirGridDataPoint float),
          Eirgrid.generateRealisticIrishData (H0 := M) tza now range = Ok dataPoints ->
          In point dataPoints ->
          outsideDaylight (Eirgrid.hourOfDay tza (newDateOf (eg_timestamp point))) = true ->
          eg_solar point = 0%float))
  /\ examplePublishedSolarZero = true.
Proof.
  split; [|vm_compute; reflexivity].
  intros sinf cosf tza Hsin M.
  assert (Hsample : forall (startDate : Date) (stepMinutes points i : Z),
    let t := addMinutes startDate (i * stepMinutes) in
    outsideDaylight (Mock.hourOfDay tza t) = true ->
    solar_opt (Mock.rawMix (H0 := M) points i (Mock.hourOfDay tza t)) = Some 0%float
    /\ eg_solar (Eirgrid.dataPoint (H0 := M) tza startDate stepMinutes points i)
       = 0%float).
  { intros startDate stepMinutes points i t Hout.
    pose proof (solarArg_negative tza t Hout) as Harc.
    split.
    - unfold Mock.rawMix. cbv zeta. cbn [solar_opt]. f_equal.
      exact (mock_solar_zero sinf cosf _ Hsin Harc).
    - unfold Eirgrid.dataPoint. cbv zeta. cbn [eg_solar].
      fold t. rewrite eirgrid_hourOfDay.
      exact (eirgrid_solar_zero sinf cosf _ Hsin Harc). }
  split; [exact Hsample|]. split.
  - intros now range point Hin.
    destruct (mock_generation_points tza now range point Hin) as (i & _ & Ht & Hmix).
    eexists. split; [exact Hmix|].
    intros Hout. rewrite Ht in Hout |- *.
    exact (proj1 (Hsample _ _ _ i Hout)).
  - intros now range dataPoints point Hgen Hin Hout.
    destruct (eirgrid_data_points tza now range dataPoints point Hgen Hin)
      as (i & _ & ->).
    apply Hsample. exact Hout.
Qed.

Lemma solar_zero_outside_daylight_witness :
  solar_opt (Mock.rawMix (H0 := B64Math squareSin constCos) 96 0
               (Mock.hourOfDay (fun _ => 0%Z) (addMinutes 0 (0 * 15)))) = Some 0%float
  /\ eg_solar (Eirgrid.dataPoint (H0 := B64Math squareSin constCos)
                 (fun _ => 0%Z) 0%Z 15 96 0) = 0%float.
Proof.
  refine (proj1 (proj1 solar_zero_outside_daylight squareSin constCos (fun _ => 0%Z) _)
            0%Z 15%Z 96%Z 0%Z _).
  - intros x Hx. unfold squareSin. rewrite Hx. reflexivity.
  - vm_compute. reflexivity.
Defined.

(** C6: the raw wind share of every sample stays in the clamp band,
    [[0.1, 0.75]] in the mock generator and [[0.1, 0.8]] in the realistic one,
    for every host whose [Math.sin] returns a number on finite arguments: so it
    does at every index of the loop of either generator, and every mix the mock
    generator publishes is the normalization of such a raw mix, every data
    point of the realistic generator such a sample.  On the example host the
    wind share of every published, normalized, mix is in the band as well. *)
Theorem wind_within_band :
  (forall (sinf cosf : float -> float) (tza : Z -> Z),
    sin_total sinf ->
    let M := B64Math sinf cosf in
    (forall (startDate : Date) (stepMinutes points i : Z),
        let t := addMinutes startDate (i * stepMinutes) in
        (exists w,
            wind_opt (Mock.rawMix (H0 := M) points i (Mock.hourOfDay tza t)) = Some w
            /\ (num 0.1 <=? w)%js = true /\ (w <=? num 0.75)%js = true)
        /\ (let w := eg_wind (Eirgrid.dataPoint (H0 := M) tza startDate stepMinutes points i) in
            (num 0.1 <=? w)%js = true /\ (w <=? num 0.8)%js = true))
    /\ (forall (now : Date) (range : DateRange) (point : GenerationMixPoint float),
          In point (generation (Mock.generateMockSeries (H0 := M) tza now range)) ->
          exists (raw : PartialMix float) (w : float),
            mix point = Mock.normalizeMix raw
            /\ wind_opt raw = Some w
            /\ (num 0.1 <=? w)%js = true /\ (w <=? num 0.75)%js = true)
    /\ (forall (now : Date) (range : DateRange)
               (dataPoints : list (EirGridDataPoint float)) (point : EirGridDataPoint float),
          Eirgrid.generateRealisticIrishData (H0 := M) tza now range = Ok dataPoints ->
          In point dataPoints ->
          (num 0.1 <=? eg_wind point)%js = true /\ (eg_wind point <=? num 0.8)%js = true))
  /\ examplePublishedWindInBand = true.
Proof.
  split; [|vm_compute; reflexivity].
  intros sinf cosf tza Hsin M.
  assert (Hsample : forall (startDate : Date) (stepMinutes points i : Z),
    let t := addMinutes startDate (i * stepMinutes) in
    (exists w,
        wind_opt (Mock.rawMix (H0 := M) points i (Mock.hourOfDay tza t)) = Some w
        /\ (num 0.1 <=? w)%js = true /\ (w <=? num 0.75)%js = true)
    /\ (let w := eg_wind (Eirgrid.dataPoint (H0 := M) tza startDate stepMinutes points i) in
        (num 0.1 <=? w)%js = true /\ (w <=? num 0.8)%js = true)).
  { intros startDate stepMinutes points i t. split.
    - eexists. split; [reflexivity|].
      apply mock_wind_band; [exact Hsin|].
      apply windArg_finite. vm_compute. reflexivity.
    - unfold Eirgrid.dataPoint. cbv zeta. cbn [eg_wind].
      fold t. rewrite eirgrid_hourOfDay.
      apply eirgrid_wind_band; [exact Hsin|].
      apply windArg_finite. vm_compute. reflexivity. }
  split; [exact Hsample|]. split.
  - intros now range point Hin.
    destruct (mock_generation_points tza now range point Hin) as (i & _ & Ht & Hmix).
    destruct (proj1 (Hsample (subHours now (Mock.getRangeHours range))
                       (Mock.stepMinutesOf range)
                       (Mock.getRangeHours range * 60 / Mock.stepMinutesOf range)%Z i))
      as (w & Hw & Hband).
    rewrite <- Ht in Hw.
    eexists. exists w. split; [exact Hmix|]. split; [exact Hw | exact Hband].
  - intros now range dataPoints point Hgen Hin.
    destruct (eirgrid_data_points tza now range dataPoints point Hgen Hin)
      as (i & _ & ->).
    apply Hsample.
Qed.

Lemma wind_within_band_witness :
  (exists w, wind_opt (Mock.rawMix (H0 := B64Math squareSin constCos) 96 7
                         (Mock.hourOfDay (fun _ => 0%Z) (addMinutes 0 (7 * 15)))) = Some w
             /\ (num 0.1 <=? w)%js = true /\ (w <=? num 0.75)%js = true)
  /\ (let w := eg_wind (Eirgrid.dataPoint (H0 := B64Math squareSin constCos)
                          (fun _ => 0%Z) 0%Z 15 96 7) in
      (num 0.1 <=? w)%js = true /\ (w <=? num 0.8)%js = true).
Proof.
  refine (proj1 (proj1 wind_within_band squareSin constCos (fun _ => 0%Z) _)
            0%Z 15%Z 96%Z 7%Z).
  intros x _. unfold squareSin. destruct (inNegArc x); reflexivity.
Defined.

Lemma normalizeMix_total (raw : PartialMix float) :
  Mock.normalizeMix raw
  = if PrimFloat.leb (sum7 (withDefaults raw)) 0
    then fallbackMix
    else mapMix (fun v => (v / sum7 (withDefaults raw))%float) (withDefaults raw).
Proof. reflexivity. Qed.

(** C2: a raw mix whose seven fields, absent ones read as 0, sum to at most 0
    is normalized to the fallback distribution (0.3, 0.05, 0.05, 0.45, 0.05,
    0.05, 0.05), in particular the all-zero and the empty mix; every other raw
    mix, in particular one of positive sum, is normalized to its seven fields
    each divided by the sum.  Both copies of the normalizer do so. *)
Theorem normalize_by_cases :
  forall raw : PartialMix float,
    let base := withDefaults raw in
    let total := sum7 base in
    let divided :=
      {| wind := wind base / total; solar := solar base / total;
         hydro := hydro base / total; gas := gas base / total;
         coal := coal base / total; biomass := biomass base / total;
         imports := imports base / total |}%float in
    (PrimFloat.leb total 0 = true -> Mock.normalizeMix raw = fallbackMix)
    /\ (base = zeroMix -> Mock.normalizeMix raw = fallbackMix)
    /\ (PrimFloat.leb total 0 = false -> Mock.normalizeMix raw = divided)
    /\ (PrimFloat.ltb 0 total = true -> Mock.normalizeMix raw = divided)
    /\ Eirgrid.normalizeMix raw = Mock.normalizeMix raw.
Proof.
  intros raw base total divided. rewrite normalizeMix_total. fold base. fold total.
  split; [|split; [|split; [|split]]].
  - intros ->. reflexivity.
  - intros Hz. subst total. rewrite Hz. reflexivity.
  - intros ->. reflexivity.
  - intros Hpos. rewrite (B64Facts.ltb_not_leb _ _ Hpos). reflexivity.
  - reflexivity.
Qed.

Lemma normalize_by_cases_witness :
  Mock.normalizeMix nothingPresent = fallbackMix
  /\ Mock.normalizeMix (allPresent zeroMix) = fallbackMix
  /\ Mock.normalizeMix pairMix = halvesMix
  /\ Mock.normalizeMix (allPresent evenMix) = evenMix.
Proof.
  split; [|split; [|split]].
  - destruct (normalize_by_cases nothingPresent) as (Hle & _).
    apply Hle. reflexivity.
  - destruct (normalize_by_cases (allPresent zeroMix)) as (_ & Hzero & _).
    apply Hzero. reflexivity.
  - destruct (normalize_by_cases pairMix) as (_ & _ & Hdiv & _).
    rewrite Hdiv by reflexivity. reflexivity.
  - destruct (normalize_by_cases (allPresent evenMix)) as (_ & _ & _ & Hpos & _).
    rewrite Hpos by reflexivity. reflexivity.
Defined.

(** C1, as stated, fails over binary64: two non-negative fields whose sum
    overflows are normalized to seven zeros, and fields of both signs whose sum
    cancels are normalized to fields that add up to 4/3. *)
Lemma normalized_sum_not_one :
  sum7 (Mock.normalizeMix hugeMix) = 0%float
  /\ sumsToOne (Mock.normalizeMix hugeMix) = false
  /\ sumsToOne (Mock.normalizeMix cancellingMix) = false.
Proof. repeat split; vm_compute; reflexivity. Qed.

(** ** Properties at every reading of the numbers *)

(** C9: the two copies of the normalizer and of the intensity calculator, in
    [mock.ts] and in [eirgrid.ts], return the same results on every input, and
    their emission-factor tables are the same. *)
Theorem copies_agree :
  forall (T : Type) (N : JsNumber T),
    (forall raw : PartialMix T, Mock.normalizeMix raw = Eirgrid.normalizeMix raw)
    /\ (forall m : GenerationMixBreakdown T,
          Mock.computeIntensity m = Eirgrid.computeIntensity m)
    /\ (forall k : Source, Mock.EMISSION_FACTORS (T := T) k = Eirgrid.EMISSION_FACTORS k).
Proof.
  intros T N. split; [|split].
  - intros raw. reflexivity.
  - intros m. reflexivity.
  - intros k. reflexivity.
Qed.

(** C7: every call of the ENTSO-E entrypoint fails with the error
    "ENTSO-E integration not yet implemented" and yields no series; selecting
    the ENTSO-E provider in the application fails before any generator is
    called, and the state then shows the error and the mock data. *)
Theorem entsoe_always_fails :
  forall (T : Type) (N : JsNumber T) (M : JsMath T),
    (forall request : unit,
        Eirgrid.fetchENTSOEData (T := T) request
        = Err "ENTSO-E integration not yet implemented"
        /\ (forall s : Series T, Eirgrid.fetchENTSOEData request <> Ok s))
    /\ (forall (tza : Z -> Z) (now later : Date) (range : DateRange) (st : AppState T),
          App.fetchResult (T := T) tza now ENTSOERealtime range
          = Err "ENTSO-E integration requires API key setup"
          /\ App.fetchData tza now later ENTSOERealtime range st
             = {| data := Some (Mock.generateMockSeries tza later range);
                  loading := false;
                  error := Some "ENTSO-E integration requires API key setup"%string |}).
Proof.
  intros T N M. split.
  - intros request. split; [reflexivity | intros s; discriminate].
  - intros tza now later range st. split; reflexivity.
Qed.

Lemma provider_intensities {T} `{JsNumber T} `{JsMath T} tza now range :
  let base := Mock.generateMockSeries (T := T) tza now range in
  map (@gramsCO2PerKWh T)
      (intensity (App.generateProviderSpecificData tza now EirGridRealtime range))
  = map (fun p => Math_round (gramsCO2PerKWh p * num 0.8)%js) (intensity base)
  /\ map (@gramsCO2PerKWh T)
      (intensity (App.generateProviderSpecificData tza now ENTSOERealtime range))
  = map (fun p => Math_round (gramsCO2PerKWh p * num 0.6)%js) (intensity base).
Proof.
  cbv zeta. unfold App.generateProviderSpecificData. cbn [intensity].
  rewrite !map_map. split; reflexivity.
Qed.

(** C10: on the provider-variant paths every published intensity is
    [round(base * scale)], with scale 0.8 for EirGrid and 0.6 for ENTSO-E, of
    the mock intensity at the same index; it is not the intensity of the
    transformed mix: over binary64, on the example host, the first EirGrid
    point publishes 259 where its mix yields 291, and the first ENTSO-E point
    publishes 194 where its mix yields 252. *)
Theorem provider_intensity_is_scaled :
  (forall (T : Type) (N : JsNumber T) (M : JsMath T)
          (tza : Z -> Z) (now : Date) (range : DateRange),
      let base := Mock.generateMockSeries tza now range in
      map (@gramsCO2PerKWh T)
          (intensity (App.generateProviderSpecificData tza now EirGridRealtime range))
      = map (fun p => Math_round (gramsCO2PerKWh p * num 0.8)%js) (intensity base)
      /\ map (@gramsCO2PerKWh T)
          (intensity (App.generateProviderSpecificData tza now ENTSOERealtime range))
      = map (fun p => Math_round (gramsCO2PerKWh p * num 0.6)%js) (intensity base))
  /\ (let M := exampleHost in
      let published provider :=
        map (@gramsCO2PerKWh float)
          (intensity (App.generateProviderSpecificData (H0 := M) utc exampleNow provider Range24h)) in
      let recomputed provider :=
        map (fun p => Mock.computeIntensity (mix p))
          (generation (App.generateProviderSpecificData (H0 := M) utc exampleNow provider Range24h)) in
      hd_error (published EirGridRealtime) = Some 259%float
      /\ hd_error (recomputed EirGridRealtime) = Some 291%float
      /\ hd_error (published ENTSOERealtime) = Some 194%float
      /\ hd_error (recomputed ENTSOERealtime) = Some 252%float).
Proof.
  split.
  - intros T N M tza now range. apply provider_intensities.
  - cbv zeta. repeat split; vm_compute; reflexivity.
Qed.

(** ** Rounded reals: error bounds *)

(** The side conditions [field] leaves. *)
Ltac nonzero :=
  repeat match goal with |- _ /\ _ => split end;
  try apply pow_nonzero; lra.

Section ErrorBounds.
Local Open Scope R_scope.

Lemma div_ge a b c : 0 < c -> a * c <= b -> a <= b / c.
Proof.
  intros Hc H. apply Rmult_le_reg_r with c; [exact Hc|].
  unfold Rdiv. rewrite Rmult_assoc, Rinv_l by lra. lra.
Qed.

Lemma div_le a b c : 0 < c -> b <= a * c -> b / c <= a.
Proof.
  intros Hc H. apply Rmult_le_reg_r with c; [exact Hc|].
  unfold Rdiv. rewrite Rmult_assoc, Rinv_l by lra. lra.
Qed.

Lemma u_pos : 0 < u.
Proof. unfold u. lra. Qed.

Lemma u_lt_1 : u < 1.
Proof. unfold u. lra. Qed.

Lemma lo_pos p q : 0 < lo p q.
Proof.
  unfold lo. pose proof u_pos. pose proof u_lt_1.
  apply Rdiv_lt_0_compat; apply pow_lt; lra.
Qed.

Lemma hi_pos p q : 0 < hi p q.
Proof.
  unfold hi. pose proof u_pos. pose proof u_lt_1.
  apply Rdiv_lt_0_compat; apply pow_lt; lra.
Qed.

Lemma lo_le_1 p q : lo p q <= 1.
Proof.
  unfold lo. pose proof u_pos. pose proof u_lt_1.
  assert (H1 : (1 - u) ^ p <= 1).
  { apply Rle_trans with (1 ^ p); [apply pow_incr; lra | rewrite pow1; lra]. }
  assert (H2 : 1 <= (1 + u) ^ q) by (apply pow_R1_Rle; lra).
  apply Rle_trans with ((1 + u) ^ q / (1 + u) ^ q).
  - unfold Rdiv. apply Rmult_le_compat_r; [|lra].
    apply Rlt_le, Rinv_0_lt_compat. lra.
  - right. field. lra.
Qed.

Lemma hi_ge_1 p q : 1 <= hi p q.
Proof.
  unfold hi. pose proof u_pos. pose proof u_lt_1.
  assert (H1 : 0 < (1 - u) ^ q) by (apply pow_lt; lra).
  assert (H2 : (1 - u) ^ q <= 1).
  { apply Rle_trans with (1 ^ q); [apply pow_incr; lra | rewrite pow1; lra]. }
  assert (H3 : 1 <= (1 + u) ^ p) by (apply pow_R1_Rle; lra).
  apply Rle_trans with ((1 - u) ^ q / (1 - u) ^ q).
  - right. field. lra.
  - unfold Rdiv. apply Rmult_le_compat_r; [|lra].
    apply Rlt_le, Rinv_0_lt_compat. lra.
Qed.

Lemma lo_add p q p' q' : lo (p + p') (q + q') = lo p q * lo p' q'.
Proof.
  unfold lo. rewrite !pow_add. pose proof u_pos.
  field. nonzero.
Qed.

Lemma hi_add p q p' q' : hi (p + p') (q + q') = hi p q * hi p' q'.
Proof.
  unfold hi. rewrite !pow_add. pose proof u_lt_1.
  field. nonzero.
Qed.

Lemma lo_mono p q p' q' : (p <= p')%nat -> (q <= q')%nat -> lo p' q' <= lo p q.
Proof.
  intros Hp Hq.
  replace p' with (p + (p' - p))%nat by lia.
  replace q' with (q + (q' - q))%nat by lia.
  rewrite lo_add.
  pose proof (lo_pos p q). pose proof (lo_le_1 (p' - p) (q' - q)).
  pose proof (lo_pos (p' - p) (q' - q)). nra.
Qed.

Lemma hi_mono p q p' q' : (p <= p')%nat -> (q <= q')%nat -> hi p q <= hi p' q'.
Proof.
  intros Hp Hq.
  replace p' with (p + (p' - p))%nat by lia.
  replace q' with (q + (q' - q))%nat by lia.
  rewrite hi_add.
  pose proof (hi_pos p q). pose proof (hi_ge_1 (p' - p) (q' - q)). nra.
Qed.

Lemma approx_refl p q x : 0 <= x -> approx p q x x.
Proof.
  intros Hx. unfold approx.
  pose proof (lo_le_1 p q). pose proof (hi_ge_1 p q). pose proof (lo_pos p q).
  split; nra.
Qed.

Lemma approx_zero p q : approx p q 0 0.
Proof. unfold approx. lra. Qed.

Lemma approx_nonneg p q x y : 0 <= y -> approx p q x y -> 0 <= x.
Proof.
  intros Hy [Hl _]. pose proof (lo_pos p q).
  apply Rle_trans with (y * lo p q); [|exact Hl]. apply Rmult_le_pos; lra.
Qed.

Lemma approx_pos p q x y : 0 < y -> approx p q x y -> 0 < x.
Proof.
  intros Hy [Hl _]. pose proof (lo_pos p q).
  apply Rlt_le_trans with (y * lo p q); [|exact Hl]. apply Rmult_lt_0_compat; lra.
Qed.

Lemma approx_mono p q p' q' x y :
  (p <= p')%nat -> (q <= q')%nat -> 0 <= y -> approx p q x y -> approx p' q' x y.
Proof.
  intros Hp Hq Hy [Hl Hh]. unfold approx.
  pose proof (lo_mono p q p' q' Hp Hq). pose proof (hi_mono p q p' q' Hp Hq).
  split.
  - apply Rle_trans with (y * lo p q); [|exact Hl]. apply Rmult_le_compat_l; lra.
  - apply Rle_trans with (y * hi p q); [exact Hh|]. apply Rmult_le_compat_l; lra.
Qed.

Lemma approx_add p q a a' b b' :
  approx p q a a' -> approx p q b b' -> approx p q (a + b) (a' + b').
Proof. unfold approx. intros [? ?] [? ?]. split; lra. Qed.

Lemma approx_mul p q p' q' a a' b b' :
  0 <= a' -> 0 <= b' ->
  approx p q a a' -> approx p' q' b b' ->
  approx (p + p') (q + q') (a * b) (a' * b').
Proof.
  intros Ha Hb [Hal Hah] [Hbl Hbh]. unfold approx. rewrite lo_add, hi_add.
  pose proof (lo_pos p q). pose proof (lo_pos p' q').
  assert (0 <= a' * lo p q) by (apply Rmult_le_pos; lra).
  assert (0 <= b' * lo p' q') by (apply Rmult_le_pos; lra).
  split.
  - replace (a' * b' * (lo p q * lo p' q')) with ((a' * lo p q) * (b' * lo p' q')) by ring.
    apply Rmult_le_compat; lra.
  - replace (a' * b' * (hi p q * hi p' q')) with ((a' * hi p q) * (b' * hi p' q')) by ring.
    apply Rmult_le_compat; lra.
Qed.

Lemma lo_hi_inv p : lo 0 p = / hi p 0.
Proof.
  unfold lo, hi. simpl. pose proof u_pos.
  field. nonzero.
Qed.

Lemma hi_lo_inv p : hi 0 p = / lo p 0.
Proof.
  unfold lo, hi. simpl. pose proof u_lt_1.
  field. nonzero.
Qed.

(** A quotient: the roundings of the divisor count on the other side. *)
Lemma approx_div p k a a' t t' :
  0 <= a' -> 0 < t' ->
  approx p 0 a a' -> approx k 0 t t' -> approx p k (a / t) (a' / t').
Proof.
  intros Ha Ht [Hal Hah] [Htl Hth].
  pose proof (lo_pos p 0). pose proof (lo_pos k 0). pose proof (hi_pos k 0).
  assert (Htpos : 0 < t).
  { apply Rlt_le_trans with (t' * lo k 0); [apply Rmult_lt_0_compat; lra | exact Htl]. }
  assert (Hinv_lo : / (t' * hi k 0) <= / t).
  { apply Rinv_le_contravar; lra. }
  assert (Hinv_hi : / t <= / (t' * lo k 0)).
  { apply Rinv_le_contravar; [apply Rmult_lt_0_compat; lra | lra]. }
  assert (Hlo : lo p k = lo p 0 * / hi k 0).
  { replace p with (p + 0)%nat at 1 by lia. replace k with (0 + k)%nat at 1 by lia.
    rewrite lo_add, lo_hi_inv. reflexivity. }
  assert (Hhi : hi p k = hi p 0 * / lo k 0).
  { replace p with (p + 0)%nat at 1 by lia. replace k with (0 + k)%nat at 1 by lia.
    rewrite hi_add, hi_lo_inv. reflexivity. }
  assert (0 <= a' * lo p 0) by (apply Rmult_le_pos; lra).
  assert (0 < / t) by (apply Rinv_0_lt_compat; lra).
  assert (0 < / (t' * hi k 0)) by (apply Rinv_0_lt_compat, Rmult_lt_0_compat; lra).
  unfold approx, Rdiv. rewrite Hlo, Hhi. split.
  - replace (a' * / t' * (lo p 0 * / hi k 0)) with ((a' * lo p 0) * / (t' * hi k 0))
      by (field; lra).
    apply Rmult_le_compat; lra.
  - replace (a' * / t' * (hi p 0 * / lo k 0)) with ((a' * hi p 0) * / (t' * lo k 0))
      by (field; lra).
    apply Rmult_le_compat; lra.
Qed.

(** Forty roundings on either side change a value by less than one part in
    ten billion. *)
Lemma lo_40 : 1 - 1 / 10000000000 <= lo 40 40.
Proof.
  unfold lo. apply div_ge; [apply pow_lt; pose proof u_pos; lra|].
  unfold u. lra.
Qed.

Lemma hi_40 : hi 40 40 <= 1 + 1 / 10000000000.
Proof.
  unfold hi. apply div_le; [apply pow_lt; pose proof u_lt_1; lra|].
  unfold u. lra.
Qed.

Lemma eta_pos : 0 < eta.
Proof. unfold eta. lra. Qed.

Lemma eta_tiny : 8 * eta <= / 10 ^ 300.
Proof. unfold eta. lra. Qed.

Lemma approx_bounds p q x y :
  (p <= 40)%nat -> (q <= 40)%nat -> 0 <= y -> approx p q x y ->
  y * (1 - 1 / 10000000000) <= x <= y * (1 + 1 / 10000000000).
Proof.
  intros Hp Hq Hy H.
  apply (approx_mono p q 40 40) in H; [|assumption|assumption|lra].
  destruct H as [Hl Hh]. pose proof lo_40. pose proof hi_40. split; nra.
Qed.

Lemma approx_nearly p q x y : approx p q x y -> nearly p q x y.
Proof. intros [Hl Hh]. pose proof eta_pos. split; lra. Qed.

Lemma nearly_bounds p q x y :
  (p <= 40)%nat -> (q <= 40)%nat -> 0 <= y -> nearly p q x y ->
  y * (1 - 1 / 10000000000) - eta <= x <= y * (1 + 1 / 10000000000) + eta.
Proof.
  intros Hp Hq Hy [Hl Hh].
  pose proof (lo_mono 0 0 p q ltac:(lia) ltac:(lia)).
  pose proof (lo_mono p q 40 40 Hp Hq). pose proof (hi_mono p q 40 40 Hp Hq).
  pose proof lo_40. pose proof hi_40. split; nra.
Qed.

Lemma Rabs_le_both x b : Rabs x <= b -> - b <= x <= b.
Proof. unfold Rabs. destruct (Rcase_abs x); lra. Qed.

End ErrorBounds.

(** Weaken a bound to the numbers of roundings the goal asks for. *)
Ltac weaken H :=
  eapply approx_mono; [ | | | exact H]; [lia | lia | ].

Section Rounding.
Local Open Scope R_scope.
Variable rnd : R -> R.
Hypothesis Hrnd : relative rnd.

Lemma rnd_bounds x : 0 <= x -> x * (1 - u) <= rnd x <= x * (1 + u).
Proof.
  intros Hx. pose proof (Hrnd x) as H. rewrite (Rabs_pos_eq x Hx) in H.
  unfold Rabs in H. destruct (Rcase_abs (rnd x - x)); lra.
Qed.

Lemma rnd_zero : rnd 0 = 0.
Proof. pose proof (rnd_bounds 0 (Rle_refl 0)). lra. Qed.

Lemma approx_rnd p q x y :
  0 <= y -> approx p q x y -> approx (S p) q (rnd x) y.
Proof.
  intros Hy Hxy. pose proof (approx_nonneg p q x y Hy Hxy) as Hx.
  destruct (rnd_bounds x Hx) as [Hl Hh]. destruct Hxy as [Hxl Hxh].
  pose proof u_pos. pose proof u_lt_1.
  assert (El : lo (S p) q = lo p q * (1 - u)).
  { unfold lo. simpl. field. nonzero. }
  assert (Eh : hi (S p) q = hi p q * (1 + u)).
  { unfold hi. simpl. field. nonzero. }
  unfold approx. rewrite El, Eh. split.
  - apply Rle_trans with (x * (1 - u)); [|exact Hl].
    replace (y * (lo p q * (1 - u))) with ((y * lo p q) * (1 - u)) by ring.
    apply Rmult_le_compat_r; lra.
  - apply Rle_trans with (x * (1 + u)); [exact Hh|].
    replace (y * (hi p q * (1 + u))) with ((y * hi p q) * (1 + u)) by ring.
    apply Rmult_le_compat_r; lra.
Qed.

(** One step of a running sum. *)
Lemma approx_acc p q p0 acc acc' x y :
  (p0 <= p)%nat -> 0 <= acc' -> 0 <= y ->
  approx p q acc acc' -> approx p0 q x y ->
  approx (S p) q (rnd (acc + x)) (acc' + y).
Proof.
  intros Hp Hacc Hy Ha Hx.
  apply approx_rnd; [lra|]. apply approx_add; [exact Ha|].
  apply (approx_mono p0 q p q); auto.
Qed.

End Rounding.

Section Gradual.
Local Open Scope R_scope.
Variable rnd : R -> R.
Hypothesis Hrnd : gradual rnd.

Lemma gradual_bounds x : 0 <= x -> x * (1 - u) - eta <= rnd x <= x * (1 + u) + eta.
Proof.
  intros Hx. pose proof (proj1 Hrnd x) as H. rewrite (Rabs_pos_eq x Hx) in H.
  unfold Rabs in H. destruct (Rcase_abs (rnd x - x)); lra.
Qed.

Lemma gradual_nonneg x : 0 <= x -> 0 <= rnd x.
Proof. exact (proj2 Hrnd x). Qed.

(** A rounding that may underflow. *)
Lemma nearly_rnd p q x y :
  0 <= y -> approx p q x y -> nearly (S p) q (rnd x) y.
Proof.
  intros Hy Hxy. pose proof (approx_nonneg p q x y Hy Hxy) as Hx.
  destruct (gradual_bounds x Hx) as [Hl Hh]. destruct Hxy as [Hxl Hxh].
  pose proof u_pos. pose proof u_lt_1.
  assert (El : lo (S p) q = lo p q * (1 - u)).
  { unfold lo. simpl. field. nonzero. }
  assert (Eh : hi (S p) q = hi p q * (1 + u)).
  { unfold hi. simpl. field. nonzero. }
  unfold nearly. rewrite El, Eh. split.
  - apply Rle_trans with (x * (1 - u) - eta); [|exact Hl].
    replace (y * (lo p q * (1 - u))) with ((y * lo p q) * (1 - u)) by ring.
    apply Rplus_le_compat_r. apply Rmult_le_compat_r; lra.
  - apply Rle_trans with (x * (1 + u) + eta); [exact Hh|].
    replace (y * (hi p q * (1 + u))) with ((y * hi p q) * (1 + u)) by ring.
    apply Rplus_le_compat_r. apply Rmult_le_compat_r; lra.
Qed.

End Gradual.

(** ** Rounded reals: the normalizer, the intensity and the rescaling *)

Section MixBounds.
Local Open Scope R_scope.
Variables rndA rndM : R -> R.
Hypothesis HA : relative rndA.
Hypothesis HM : gradual rndM.
Let N : JsNumber R := Rounded rndA rndM.
Existing Instance N.

Lemma rnd_nonneg x : 0 <= x -> 0 <= rndA x.
Proof.
  intros Hx. pose proof (rnd_bounds rndA HA x Hx). pose proof u_lt_1.
  apply Rle_trans with (x * (1 - u)); [apply Rmult_le_pos; lra | lra].
Qed.

Lemma num_zero : rndA (Q2R 0) = 0.
Proof.
  replace (Q2R 0) with 0 by (unfold Q2R; simpl; lra).
  apply (rnd_zero rndA HA).
Qed.

(** A literal is its decimal value up to one rounding. *)
Lemma num_approx (c : Q) : 0 <= Q2R c -> approx 1 0 (num c) (Q2R c).
Proof.
  intros Hc. change (num c) with (rndA (Q2R c)).
  apply (approx_rnd rndA HA); [exact Hc|]. now apply approx_refl.
Qed.

Lemma roundedSum_unfold m :
  roundedSum rndA m
  = rndA (rndA (rndA (rndA (rndA (rndA (rndA (0 + wind m) + solar m) + hydro m)
                            + gas m) + coal m) + biomass m) + imports m).
Proof.
  unfold roundedSum. cbn [fold_left values keys map get].
  rewrite num_zero. reflexivity.
Qed.

(** The sum as the program adds it is the exact sum up to seven roundings. *)
Lemma sum_approx p q m m' :
  nonneg m' -> approxMix p q m m' ->
  approx (7 + p) q (roundedSum rndA m) (exactSum m').
Proof.
  intros (Hw & Hs & Hh & Hg & Hc & Hb & Hi) (Aw & As & Ah & Ag & Ac & Ab & Ai).
  rewrite roundedSum_unfold.
  replace (exactSum m') with
    (0 + wind m' + solar m' + hydro m' + gas m' + coal m' + biomass m' + imports m')
    by (unfold exactSum; ring).
  simpl Nat.add.
  apply (approx_acc rndA HA) with (p0 := p); try lia; try lra; [|exact Ai].
  apply (approx_acc rndA HA) with (p0 := p); try lia; try lra; [|exact Ab].
  apply (approx_acc rndA HA) with (p0 := p); try lia; try lra; [|exact Ac].
  apply (approx_acc rndA HA) with (p0 := p); try lia; try lra; [|exact Ag].
  apply (approx_acc rndA HA) with (p0 := p); try lia; try lra; [|exact Ah].
  apply (approx_acc rndA HA) with (p0 := p); try lia; try lra; [|exact As].
  apply (approx_acc rndA HA) with (p0 := p); try lia; try lra; [|exact Aw].
  apply approx_zero.
Qed.

Lemma approxMix_refl p q m : nonneg m -> approxMix p q m m.
Proof.
  intros (Hw & Hs & Hh & Hg & Hc & Hb & Hi).
  repeat split; apply approx_refl; assumption.
Qed.

Lemma approxMix_nearly p q m m' : approxMix p q m m' -> nearlyMix p q m m'.
Proof.
  intros (Aw & As & Ah & Ag & Ac & Ab & Ai).
  repeat split; apply approx_nearly; assumption.
Qed.

(** Seven fields, each up to forty roundings and one underflow from its exact
    value, sum to the exact sum within two parts in ten billion. *)
Lemma nearlyMix_sum p q m m' :
  (p <= 40)%nat -> (q <= 40)%nat -> nonneg m' -> nearlyMix p q m m' ->
  exactSum m' * (1 - 1 / 10000000000) - 7 * eta <= exactSum m
  <= exactSum m' * (1 + 1 / 10000000000) + 7 * eta.
Proof.
  intros Hp Hq (Hw & Hs & Hh & Hg & Hc & Hb & Hi) (Aw & As & Ah & Ag & Ac & Ab & Ai).
  apply (nearly_bounds p q _ _ Hp Hq Hw) in Aw.
  apply (nearly_bounds p q _ _ Hp Hq Hs) in As.
  apply (nearly_bounds p q _ _ Hp Hq Hh) in Ah.
  apply (nearly_bounds p q _ _ Hp Hq Hg) in Ag.
  apply (nearly_bounds p q _ _ Hp Hq Hc) in Ac.
  apply (nearly_bounds p q _ _ Hp Hq Hb) in Ab.
  apply (nearly_bounds p q _ _ Hp Hq Hi) in Ai.
  unfold exactSum. split; lra.
Qed.

(** A mix that is a distribution up to roundings and underflows is one within
    the tolerance. *)
Lemma distribution_sums p q m m' :
  (p <= 40)%nat -> (q <= 40)%nat ->
  nonneg m -> nearlyMix p q m m' -> nonneg m' -> exactSum m' = 1 ->
  isDistribution rndA m.
Proof.
  intros Hp Hq Hm Hnear Hn H1.
  pose proof (nearlyMix_sum p q m m' Hp Hq Hn Hnear) as [Sl Sh].
  rewrite H1 in Sl, Sh. pose proof eta_tiny. pose proof eta_pos.
  assert (T : / 10 ^ 300 <= 1 / 10000000000) by lra.
  assert (HS : 0 <= exactSum m).
  { destruct Hm as (Hw & Hs & Hh & Hg & Hc & Hb & Hi). unfold exactSum. lra. }
  pose proof (sum_approx 0 0 m m Hm (approxMix_refl 0 0 m Hm)) as A.
  apply (approx_bounds 7 0 _ _ ltac:(lia) ltac:(lia) HS) in A.
  destruct A as [Al Ah].
  unfold isDistribution, normalized.
  split; [split; [exact Hm|]|]; apply Rabs_le; split; nra.
Qed.

(** Dividing the fields by their rounded sum: each quotient is the exact share
    up to one rounding of the numerator, seven of the denominator, and one
    underflow. *)
Lemma divide_approx x :
  nonneg x -> 0 < exactSum x ->
  let t := roundedSum rndA x in
  0 < t
  /\ nearlyMix 1 7 (mapMix (fun v => rndM (v / t)) x) (mapMix (fun v => v / exactSum x) x)
  /\ nonneg (mapMix (fun v => rndM (v / t)) x)
  /\ nonneg (mapMix (fun v => v / exactSum x) x)
  /\ exactSum (mapMix (fun v => v / exactSum x) x) = 1.
Proof.
  intros Hx HS t.
  assert (Ht : approx 7 0 t (exactSum x)).
  { exact (sum_approx 0 0 x x Hx (approxMix_refl 0 0 x Hx)). }
  assert (Hq : forall v, 0 <= v -> 0 <= v / exactSum x).
  { intros v Hv. apply Rmult_le_pos; [exact Hv | apply Rlt_le, Rinv_0_lt_compat, HS]. }
  assert (Hfield : forall v, 0 <= v -> nearly 1 7 (rndM (v / t)) (v / exactSum x)).
  { intros v Hv. apply (nearly_rnd rndM HM); [now apply Hq|].
    apply approx_div; auto. now apply approx_refl. }
  assert (Htpos : 0 < t) by exact (approx_pos 7 0 t _ HS Ht).
  assert (Hsign : forall v, 0 <= v -> 0 <= rndM (v / t)).
  { intros v Hv. apply (gradual_nonneg rndM HM).
    apply Rmult_le_pos; [exact Hv | apply Rlt_le, Rinv_0_lt_compat, Htpos]. }
  destruct Hx as (Hw & Hs & Hh & Hg & Hc & Hb & Hi).
  split; [exact Htpos|].
  split; [repeat split; simpl; apply Hfield; assumption|].
  split; [repeat split; simpl; apply Hsign; assumption|].
  split; [repeat split; simpl; apply Hq; assumption|].
  unfold exactSum in *. simpl. field. lra.
Qed.

Lemma baseOf_nonneg raw : nonnegRaw raw -> nonneg (baseOf raw).
Proof.
  intros (Hw & Hs & Hh & Hg & Hc & Hb & Hi).
  destruct raw as [[w|] [s|] [h|] [g|] [c|] [b|] [i|]];
    cbn [nonnegField wind_opt solar_opt hydro_opt gas_opt coal_opt biomass_opt
         imports_opt] in *;
    repeat split;
    cbn [baseOf nullish wind solar hydro gas coal biomass imports wind_opt solar_opt
         hydro_opt gas_opt coal_opt biomass_opt imports_opt num Rounded N];
    rewrite ?num_zero; try assumption; lra.
Qed.

Lemma normalizeMix_rounded raw :
  Mock.normalizeMix raw
  = if Rle_bool (roundedSum rndA (baseOf raw)) 0
    then {| wind := num 0.3; solar := num 0.05; hydro := num 0.05; gas := num 0.45;
            coal := num 0.05; biomass := num 0.05; imports := num 0.05 |}
    else mapMix (fun v => rndM (v / roundedSum rndA (baseOf raw))) (baseOf raw).
Proof.
  unfold Mock.normalizeMix. fold (baseOf raw).
  change (fold_left (fun a b => (a + b)%js) (values (baseOf raw)) (num 0))
    with (roundedSum rndA (baseOf raw)).
  change (le (roundedSum rndA (baseOf raw)) (num 0%Q))
    with (Rle_bool (roundedSum rndA (baseOf raw)) (rndA (Q2R 0))).
  rewrite num_zero. reflexivity.
Qed.

Lemma fallback_approx :
  approxMix 1 7
    {| wind := num 0.3; solar := num 0.05; hydro := num 0.05; gas := num 0.45;
       coal := num 0.05; biomass := num 0.05; imports := num 0.05 |}
    exactFallback.
Proof.
  assert (H : forall (c : Q) (r : R), Q2R c = r -> 0 <= r -> approx 1 7 (num c) r).
  { intros c r <- Hr. pose proof (num_approx c Hr) as A. weaken A. exact Hr. }
  unfold approxMix, exactFallback.
  cbn [wind solar hydro gas coal biomass imports].
  repeat split; apply H; unfold Q2R; cbn [Qnum Qden]; lra.
Qed.

Lemma exactFallback_distribution : nonneg exactFallback /\ exactSum exactFallback = 1.
Proof.
  split; [unfold nonneg, exactFallback; simpl; repeat split; lra|].
  unfold exactSum, exactFallback. simpl. lra.
Qed.

Lemma fallback_distribution :
  isDistribution rndA
    {| wind := num 0.3; solar := num 0.05; hydro := num 0.05; gas := num 0.45;
       coal := num 0.05; biomass := num 0.05; imports := num 0.05 |}.
Proof.
  destruct exactFallback_distribution as [Hn H1].
  apply (distribution_sums 1 7 _ exactFallback); try lia; try assumption.
  - repeat split; cbn [wind solar hydro gas coal biomass imports];
      apply rnd_nonneg; unfold Q2R; cbn [Qnum Qden]; lra.
  - apply approxMix_nearly, fallback_approx.
Qed.

End MixBounds.

(** ** Properties over rounded reals *)

Section RoundedMixes.
Local Open Scope R_scope.
Variables rndA rndM : R -> R.
Hypothesis HA : relative rndA.
Hypothesis HM : gradual rndM.
Local Notation "'NR'" := (Rounded rndA rndM).

(** The fallback branch, whatever the signs of the fields. *)
Lemma normalize_fallback_distribution raw :
  roundedSum rndA (baseOf (H := NR) raw) <= 0 -> isDistribution rndA (Mock.normalizeMix (H := NR) raw).
Proof.
  intros Hle. rewrite (normalizeMix_rounded rndA rndM HA).
  unfold Rle_bool.
  destruct (Rle_dec (roundedSum rndA (baseOf (H := NR) raw)) 0) as [_|Hn];
    [|exfalso; exact (Hn Hle)].
  exact (fallback_distribution rndA rndM HA).
Qed.

(** Either branch, on non-negative fields. *)
Lemma normalize_distribution raw :
  nonnegRaw raw -> isDistribution rndA (Mock.normalizeMix (H := NR) raw).
Proof.
  intros Hraw. pose proof (baseOf_nonneg rndA rndM HA raw Hraw) as Hb.
  assert (HS : 0 <= exactSum (baseOf (H := NR) raw)).
  { destruct Hb as (Hw & Hs & Hh & Hg & Hc & Hbi & Hi). unfold exactSum. lra. }
  destruct (Rle_lt_or_eq_dec _ _ HS) as [Hpos | Hzero].
  - destruct (divide_approx rndA rndM HA HM _ Hb Hpos) as (Ht & Hq & Hs & Hn & H1).
    rewrite (normalizeMix_rounded rndA rndM HA). unfold Rle_bool.
    destruct (Rle_dec (roundedSum rndA (baseOf (H := NR) raw)) 0) as [Hle|_]; [lra|].
    exact (distribution_sums rndA HA 1 7 _ _ ltac:(lia) ltac:(lia) Hs Hq Hn H1).
  - apply normalize_fallback_distribution.
    pose proof (sum_approx rndA HA 0 0 _ _ Hb (approxMix_refl 0 0 _ Hb)) as [Hl Hh].
    rewrite <- Hzero in Hh. lra.
Qed.

Lemma renormalize_distribution x :
  nonneg x -> 0 < exactSum x -> isDistribution rndA (App.renormalize (H := NR) x).
Proof.
  intros Hx HS.
  destruct (divide_approx rndA rndM HA HM x Hx HS) as (_ & Hq & Hs & Hn & H1).
  change (App.renormalize (H := NR) x)
    with (mapMix (fun v => rndM (v / roundedSum rndA x)) x).
  exact (distribution_sums rndA HA 1 7 _ _ ltac:(lia) ltac:(lia) Hs Hq Hn H1).
Qed.

(** A scaled field does not fall below a thousandth of the field, up to two
    roundings and one underflow. *)
Lemma scaled_field v f :
  0 <= v -> (1 - u) / 1000 <= f ->
  0 <= rndM (v * f) /\ v * ((1 - u) ^ 2 / 1000) - eta <= rndM (v * f).
Proof.
  intros Hv Hf. pose proof u_pos. pose proof u_lt_1.
  assert (Hvf : 0 <= v * f) by (apply Rmult_le_pos; lra).
  split; [exact (gradual_nonneg rndM HM _ Hvf)|].
  destruct (gradual_bounds rndM HM _ Hvf) as [Hl _].
  apply Rle_trans with (v * f * (1 - u) - eta); [|exact Hl].
  apply Rplus_le_compat_r.
  replace (v * ((1 - u) ^ 2 / 1000)) with (v * ((1 - u) / 1000) * (1 - u)) by field.
  apply Rmult_le_compat_r; [lra|]. apply Rmult_le_compat_l; lra.
Qed.

Lemma kept_field v :
  0 <= v -> 0 <= v /\ v * ((1 - u) ^ 2 / 1000) - eta <= v.
Proof.
  intros Hv. split; [exact Hv|]. pose proof u_pos. pose proof u_lt_1.
  pose proof eta_pos.
  assert (Hc : (1 - u) ^ 2 / 1000 <= 1) by (unfold u; lra).
  assert (v * ((1 - u) ^ 2 / 1000) <= v * 1) by (apply Rmult_le_compat_l; lra).
  lra.
Qed.

Lemma literal_factor (c : Q) : 1 / 1000 <= Q2R c -> (1 - u) / 1000 <= num (JsNumber := NR) c.
Proof.
  intros Hc. change (num (JsNumber := NR) c) with (rndA (Q2R c)).
  assert (H0 : 0 <= Q2R c) by lra.
  destruct (rnd_bounds rndA HA _ H0) as [Hl _]. pose proof u_pos. pose proof u_lt_1.
  apply Rle_trans with (Q2R c * (1 - u)); [|exact Hl].
  unfold Rdiv. rewrite (Rmult_comm (1 - u)). apply Rmult_le_compat_r; lra.
Qed.

Lemma given_factor f : 1 / 1000 <= f -> (1 - u) / 1000 <= f.
Proof. intros Hf. pose proof u_pos. lra. Qed.

(** A normalized mix whose fields do not fall below a thousandth of their
    values keeps a positive sum. *)
Lemma positive_sum_preserved m x :
  normalized m ->
  (0 <= wind x /\ wind m * ((1 - u) ^ 2 / 1000) - eta <= wind x) ->
  (0 <= solar x /\ solar m * ((1 - u) ^ 2 / 1000) - eta <= solar x) ->
  (0 <= hydro x /\ hydro m * ((1 - u) ^ 2 / 1000) - eta <= hydro x) ->
  (0 <= gas x /\ gas m * ((1 - u) ^ 2 / 1000) - eta <= gas x) ->
  (0 <= coal x /\ coal m * ((1 - u) ^ 2 / 1000) - eta <= coal x) ->
  (0 <= biomass x /\ biomass m * ((1 - u) ^ 2 / 1000) - eta <= biomass x) ->
  (0 <= imports x /\ imports m * ((1 - u) ^ 2 / 1000) - eta <= imports x) ->
  nonneg x /\ 0 < exactSum x.
Proof.
  intros [Hm H1] [Xw Pw] [Xs Ps] [Xh Ph] [Xg Pg] [Xc Pc] [Xb Pb] [Xi Pi].
  split; [repeat split; assumption|].
  apply Rabs_le_both in H1. unfold exactSum in *.
  pose proof eta_tiny. pose proof eta_pos.
  assert (C : 1 / 2000 <= (1 - u) ^ 2 / 1000) by (unfold u; lra).
  assert (T : / 10 ^ 300 <= 1 / 10000) by lra.
  set (c := (1 - u) ^ 2 / 1000) in *.
  assert (S' : (wind m + solar m + hydro m + gas m + coal m + biomass m + imports m) * c
               - 7 * eta
               <= wind x + solar x + hydro x + gas x + coal x + biomass x + imports x)
    by lra.
  assert (1 / 2 * (1 / 2000)
          <= (wind m + solar m + hydro m + gas m + coal m + biomass m + imports m) * c)
    by (apply Rmult_le_compat; lra).
  lra.
Qed.

Lemma scaleMix_positive f m :
  atLeast (1 / 1000) f -> normalized m ->
  nonneg (scaleMix (H := NR) f m) /\ 0 < exactSum (scaleMix (H := NR) f m).
Proof.
  intros (Fw & Fs & Fh & Fg & Fc & Fb & Fi) Hm.
  pose proof (proj1 Hm) as (Hw & Hs & Hh & Hg & Hc & Hb & Hi).
  apply (positive_sum_preserved m); auto;
    apply scaled_field; try assumption; now apply given_factor.
Qed.

Lemma eirgrid_modified_positive m :
  normalized m ->
  nonneg (App.eirgridModifiedMix (H := NR) m) /\ 0 < exactSum (App.eirgridModifiedMix (H := NR) m).
Proof.
  intros Hm. pose proof (proj1 Hm) as (Hw & Hs & Hh & Hg & Hc & Hb & Hi).
  apply (positive_sum_preserved m); auto;
    try (now apply kept_field);
    apply scaled_field; try assumption;
    apply literal_factor; unfold Q2R; cbn [Qnum Qden]; lra.
Qed.

Lemma entsoe_modified_positive m :
  normalized m ->
  nonneg (App.entsoeModifiedMix (H := NR) m) /\ 0 < exactSum (App.entsoeModifiedMix (H := NR) m).
Proof.
  intros Hm. pose proof (proj1 Hm) as (Hw & Hs & Hh & Hg & Hc & Hb & Hi).
  apply (positive_sum_preserved m); auto;
    apply scaled_field; try assumption;
    apply literal_factor; unfold Q2R; cbn [Qnum Qden]; lra.
Qed.

Lemma rescale_distribution f m :
  atLeast (1 / 1000) f -> normalized m ->
  isDistribution rndA (App.renormalize (H := NR) (scaleMix (H := NR) f m)).
Proof.
  intros Hf Hm. destruct (scaleMix_positive f m Hf Hm) as [Hn Hp].
  now apply renormalize_distribution.
Qed.

End RoundedMixes.

Lemma unrounded_relative : relative unrounded.
Proof.
  intros x. unfold unrounded. replace (x - x)%R with 0%R by ring. rewrite Rabs_R0.
  apply Rmult_le_pos; [apply Rlt_le, u_pos | apply Rabs_pos].
Qed.

Lemma unrounded_rounding : rounding unrounded unrounded.
Proof.
  split; [exact unrounded_relative|]. split.
  - intros x. pose proof (unrounded_relative x). pose proof eta_pos. lra.
  - intros x Hx. exact Hx.
Qed.

Lemma inflate_rounding : rounding inflate inflateM.
Proof.
  pose proof u_pos as Hu. pose proof eta_pos as He.
  split; [|split].
  - intros x. unfold inflate. replace (x * (1 + u) - x)%R with (u * x)%R by ring.
    rewrite Rabs_mult, (Rabs_pos_eq u (Rlt_le _ _ Hu)). apply Rle_refl.
  - intros x. unfold inflateM.
    replace (x * (1 + u) + eta - x)%R with (u * x + eta)%R by ring.
    apply Rle_trans with (Rabs (u * x) + Rabs eta)%R; [apply Rabs_triang|].
    rewrite Rabs_mult, (Rabs_pos_eq u (Rlt_le _ _ Hu)), (Rabs_pos_eq eta (Rlt_le _ _ He)).
    apply Rle_refl.
  - intros x Hx. unfold inflateM.
    assert (0 <= x * (1 + u))%R by (apply Rmult_le_pos; lra). lra.
Qed.

(** In exact arithmetic the normalized mix sums to exactly 1, whatever the
    signs of the fields. *)
Lemma normalize_exact (raw : PartialMix R) :
  exactSum (Mock.normalizeMix (H := Rounded unrounded unrounded) raw) = 1%R.
Proof.
  unfold Mock.normalizeMix.
  set (base := {| wind := nullish (wind_opt raw) (num 0) |}).
  change (fold_left (fun a b => (a + b)%js) (values base) (num 0))
    with (Q2R 0 + wind base + solar base + hydro base + gas base + coal base
          + biomass base + imports base)%R.
  set (total := (Q2R 0 + wind base + solar base + hydro base + gas base + coal base
                 + biomass base + imports base)%R).
  change (le total (num 0%Q)) with (Rle_bool total (Q2R 0)).
  assert (E0 : Q2R 0 = 0%R) by (unfold Q2R; simpl; lra).
  unfold Rle_bool. destruct (Rle_dec total (Q2R 0)) as [Hle|Hgt].
  - unfold exactSum. cbn [wind solar hydro gas coal biomass imports num Rounded].
    unfold unrounded, Q2R. cbn [Qnum Qden]. lra.
  - unfold exactSum, mapMix.
    cbn [wind solar hydro gas coal biomass imports div Rounded]. unfold unrounded.
    assert (Hne : total <> 0%R) by lra.
    replace (wind base / total + solar base / total + hydro base / total
             + gas base / total + coal base / total + biomass base / total
             + imports base / total)%R
      with ((total - Q2R 0) / total)%R by (unfold total; field; exact Hne).
    rewrite E0. field. exact Hne.
Qed.

(** C1 (amended): for every raw mix of non-negative fields, and for every raw
    mix whose total is at most 0, under arithmetic whose operations round as
    binary64 does when nothing overflows (relative error at most 2^-53, or
    absolute error at most 2^-1075 where a quotient underflows; exact
    arithmetic included), the normalized mix has its seven fields, they sum to
    1 within 1e-9, in exact arithmetic and as the program adds them, and none
    is negative, in the division branch and in the fallback branch alike; in
    exact arithmetic the normalized fields of every raw mix sum to 1; over
    binary64, the fallback branch sums to 1 within 1e-9 for every raw mix that
    takes it, and so does every mix the two generators publish on the example
    host, for the three ranges. *)
Theorem normalized_sums_to_one :
  (forall rndA rndM : R -> R, rounding rndA rndM ->
   forall raw : PartialMix R,
     nonnegRaw raw
     \/ (roundedSum rndA (baseOf (H := Rounded rndA rndM) raw) <= 0)%R ->
     let out := Mock.normalizeMix (H := Rounded rndA rndM) raw in
     (Rabs (exactSum out - 1) <= 1 / 1000000000)%R
     /\ (Rabs (roundedSum rndA out - 1) <= 1 / 1000000000)%R
     /\ List.length (values out) = 7%nat
     /\ nonneg out)
  /\ (forall raw : PartialMix R,
        exactSum (Mock.normalizeMix (H := Rounded unrounded unrounded) raw) = 1%R)
  /\ (forall raw : PartialMix float,
        PrimFloat.leb (sum7 (withDefaults raw)) 0 = true ->
        sumsToOne (Mock.normalizeMix raw) = true)
  /\ exampleMixesSumToOne = true.
Proof.
  split; [|split; [exact normalize_exact | split; [|vm_compute; reflexivity]]];
    [|intros raw Hle; rewrite normalizeMix_total, Hle; vm_compute; reflexivity].
  intros rndA rndM [HA HM] raw Hraw out.
  assert (D : isDistribution rndA out).
  { destruct Hraw as [Hraw | Hle].
    - exact (normalize_distribution rndA rndM HA HM raw Hraw).
    - exact (normalize_fallback_distribution rndA rndM HA raw Hle). }
  destruct D as ((H3 & H1) & H2).
  split; [exact H1|]. split; [exact H2|]. split; [reflexivity | exact H3].
Qed.

Lemma normalized_sums_to_one_witness :
  let out := Mock.normalizeMix (H := Rounded inflate inflateM) (allPresent exampleMixR) in
  (Rabs (exactSum out - 1) <= 1 / 1000000000)%R
  /\ (Rabs (roundedSum inflate out - 1) <= 1 / 1000000000)%R
  /\ List.length (values out) = 7%nat
  /\ nonneg out.
Proof.
  apply (proj1 normalized_sums_to_one inflate inflateM inflate_rounding
           (allPresent exampleMixR)).
  left. unfold nonnegRaw, allPresent, exampleMixR. simpl. repeat split; lra.
Defined.

Section RoundedIntensity.
Local Open Scope R_scope.
Variables rndA rndM : R -> R.
Hypothesis HA : relative rndA.
Hypothesis HM : gradual rndM.
Local Notation "'NR'" := (Rounded rndA rndM).

(** One term [mix[key] * EMISSION_FACTORS[key]]. *)
Lemma term_approx p q x x' (c : Q) (c' : R) :
  Q2R c = c' -> 0 <= c' -> 0 <= x' -> approx p q x x' ->
  nearly (2 + p) q (rndM (x * rndA (Q2R c))) (x' * c')
  /\ 0 <= rndM (x * rndA (Q2R c))
  /\ 0 <= x' * c'.
Proof.
  intros <- Hc Hx A.
  assert (Hp : 0 <= x' * Q2R c) by (apply Rmult_le_pos; assumption).
  pose proof (approx_mul p q 1 0 x x' _ _ Hx Hc A (num_approx rndA rndM HA c Hc)) as M.
  split; [|split; [|exact Hp]].
  - apply (nearly_rnd rndM HM); [exact Hp|]. weaken M. exact Hp.
  - apply (gradual_nonneg rndM HM). exact (approx_nonneg _ _ _ _ Hp M).
Qed.

Lemma roundedIntensity_unfold m :
  roundedIntensity rndA rndM m
  = rndA (rndA (rndA (rndA (rndA (rndA (rndA (0
      + rndM (wind m * rndA (Q2R 12)))
      + rndM (solar m * rndA (Q2R 50)))
      + rndM (hydro m * rndA (Q2R 24)))
      + rndM (gas m * rndA (Q2R 400)))
      + rndM (coal m * rndA (Q2R 900)))
      + rndM (biomass m * rndA (Q2R 230)))
      + rndM (imports m * rndA (Q2R 300))).
Proof.
  unfold roundedIntensity. cbn [fold_left keys get Mock.EMISSION_FACTORS num Rounded].
  rewrite (num_zero rndA HA). reflexivity.
Qed.

Lemma computeIntensity_rounded m :
  Mock.computeIntensity (H := NR) m
  = IZR (roundHalfUp (roundedIntensity rndA rndM m)).
Proof. reflexivity. Qed.

(** The weighted sum as the program adds it is the exact weighted sum within
    four parts in ten billion, up to the underflow of its terms. *)
Lemma intensity_bounds p q m m' :
  (2 + p <= 40)%nat -> (q <= 40)%nat ->
  nonneg m' -> approxMix p q m m' ->
  let total := roundedIntensity rndA rndM m in
  let E := exactIntensity m' in
  E * (1 - 4 / 10000000000) - / 10 ^ 300 <= total
  <= E * (1 + 4 / 10000000000) + / 10 ^ 300.
Proof.
  intros Hp Hq (Hw & Hs & Hh & Hg & Hc & Hb & Hi) (Aw & As & Ah & Ag & Ac & Ab & Ai)
    total E.
  assert (Q : forall z : Z, Q2R (inject_Z z) = IZR z).
  { intros z. unfold Q2R. simpl. lra. }
  destruct (term_approx p q _ _ 12%Q 12 (Q 12%Z) ltac:(lra) Hw Aw) as (Tw & Nw & Pw).
  destruct (term_approx p q _ _ 50%Q 50 (Q 50%Z) ltac:(lra) Hs As) as (Ts & Ns & Ps).
  destruct (term_approx p q _ _ 24%Q 24 (Q 24%Z) ltac:(lra) Hh Ah) as (Th & Nh & Ph).
  destruct (term_approx p q _ _ 400%Q 400 (Q 400%Z) ltac:(lra) Hg Ag) as (Tg & Ng & Pg).
  destruct (term_approx p q _ _ 900%Q 900 (Q 900%Z) ltac:(lra) Hc Ac) as (Tc & Nc & Pc).
  destruct (term_approx p q _ _ 230%Q 230 (Q 230%Z) ltac:(lra) Hb Ab) as (Tb & Nb & Pb).
  destruct (term_approx p q _ _ 300%Q 300 (Q 300%Z) ltac:(lra) Hi Ai) as (Ti & Ni & Pi).
  set (tw := rndM (wind m * rndA (Q2R 12))) in *.
  set (ts := rndM (solar m * rndA (Q2R 50))) in *.
  set (th := rndM (hydro m * rndA (Q2R 24))) in *.
  set (tg := rndM (gas m * rndA (Q2R 400))) in *.
  set (tc := rndM (coal m * rndA (Q2R 900))) in *.
  set (tb := rndM (biomass m * rndA (Q2R 230))) in *.
  set (ti := rndM (imports m * rndA (Q2R 300))) in *.
  (* the running sum of the seven terms *)
  assert (A : approx 7 0 total (0 + tw + ts + th + tg + tc + tb + ti)).
  { subst total. rewrite roundedIntensity_unfold. fold tw ts th tg tc tb ti.
    apply (approx_acc rndA HA) with (p0 := 0%nat); try lia; try lra;
      [|now apply approx_refl].
    apply (approx_acc rndA HA) with (p0 := 0%nat); try lia; try lra;
      [|now apply approx_refl].
    apply (approx_acc rndA HA) with (p0 := 0%nat); try lia; try lra;
      [|now apply approx_refl].
    apply (approx_acc rndA HA) with (p0 := 0%nat); try lia; try lra;
      [|now apply approx_refl].
    apply (approx_acc rndA HA) with (p0 := 0%nat); try lia; try lra;
      [|now apply approx_refl].
    apply (approx_acc rndA HA) with (p0 := 0%nat); try lia; try lra;
      [|now apply approx_refl].
    apply (approx_acc rndA HA) with (p0 := 0%nat); try lia; try lra;
      [|now apply approx_refl].
    apply approx_zero. }
  assert (HS0 : 0 <= 0 + tw + ts + th + tg + tc + tb + ti) by lra.
  apply (approx_bounds 7 0 _ _ ltac:(lia) ltac:(lia) HS0) in A.
  (* each term against its exact value *)
  apply (nearly_bounds (2 + p) q _ _ Hp Hq Pw) in Tw.
  apply (nearly_bounds (2 + p) q _ _ Hp Hq Ps) in Ts.
  apply (nearly_bounds (2 + p) q _ _ Hp Hq Ph) in Th.
  apply (nearly_bounds (2 + p) q _ _ Hp Hq Pg) in Tg.
  apply (nearly_bounds (2 + p) q _ _ Hp Hq Pc) in Tc.
  apply (nearly_bounds (2 + p) q _ _ Hp Hq Pb) in Tb.
  apply (nearly_bounds (2 + p) q _ _ Hp Hq Pi) in Ti.
  pose proof eta_tiny. pose proof eta_pos.
  assert (HE : 0 <= E) by (subst E; unfold exactIntensity; lra).
  assert (HE' : E = wind m' * 12 + solar m' * 50 + hydro m' * 24 + gas m' * 400
                    + coal m' * 900 + biomass m' * 230 + imports m' * 300)
    by reflexivity.
  set (S := 0 + tw + ts + th + tg + tc + tb + ti) in *.
  assert (SL : E * (1 - 1 / 10000000000) - 7 * eta <= S) by (subst S; lra).
  assert (SH : S <= E * (1 + 1 / 10000000000) + 7 * eta) by (subst S; lra).
  destruct A as [AL AH]. split; nra.
Qed.

Lemma roundHalfUp_nonneg x : 0 <= x -> (0 <= roundHalfUp x)%Z.
Proof.
  intros Hx. unfold roundHalfUp. apply Zfloor_lub. lra.
Qed.

Lemma roundedIntensity_nonneg m : nonneg m -> 0 <= roundedIntensity rndA rndM m.
Proof.
  intros (Hw & Hs & Hh & Hg & Hc & Hb & Hi).
  rewrite roundedIntensity_unfold.
  assert (T : forall v c, 0 <= v -> 0 <= Q2R c -> 0 <= rndM (v * rndA (Q2R c))).
  { intros v c Hv Hpos. apply (gradual_nonneg rndM HM).
    apply Rmult_le_pos; [exact Hv | now apply (rnd_nonneg rndA HA)]. }
  assert (Q : forall z : Z, (0 <= z)%Z -> 0 <= Q2R (inject_Z z)).
  { intros z Hz. unfold Q2R. simpl. apply IZR_le in Hz. lra. }
  assert (P : forall a b, 0 <= a -> 0 <= b -> 0 <= rndA (a + b)).
  { intros a b Ha Hb'. apply (rnd_nonneg rndA HA). lra. }
  repeat (apply P; [|apply T; [assumption | apply Q; lia]]). lra.
Qed.

Lemma intensity_of_nonneg m :
  nonneg m ->
  let total := roundedIntensity rndA rndM m in
  Mock.computeIntensity (H := NR) m = IZR (roundHalfUp total)
  /\ Rabs (total - exactIntensity m) <= exactIntensity m / 1000000000 + / 10 ^ 300
  /\ (0 <= roundHalfUp total)%Z.
Proof.
  intros Hm total.
  destruct (intensity_bounds 0 0 m m ltac:(lia) ltac:(lia) Hm (approxMix_refl 0 0 m Hm))
    as [BL BH].
  fold total in BL, BH.
  assert (HE : 0 <= exactIntensity m).
  { destruct Hm as (Hw & Hs & Hh & Hg & Hc & Hb & Hi). unfold exactIntensity. lra. }
  split; [apply computeIntensity_rounded|]. split.
  - apply Rabs_le. split; lra.
  - apply roundHalfUp_nonneg. exact (roundedIntensity_nonneg m Hm).
Qed.

(** The fallback distribution has intensity 259. *)
Lemma intensity_of_fallback :
  Mock.computeIntensity (H := NR) (Mock.normalizeMix (H := NR) nothingPresent) = 259.
Proof.
  rewrite (normalizeMix_rounded rndA rndM HA).
  assert (Hz : roundedSum rndA (baseOf (H := NR) (@nothingPresent R)) = 0).
  { rewrite (roundedSum_unfold rndA HA).
    cbn [baseOf nothingPresent nullish wind solar hydro gas coal biomass imports
         wind_opt solar_opt hydro_opt gas_opt coal_opt biomass_opt imports_opt
         num Rounded].
    rewrite (num_zero rndA HA).
    repeat (rewrite ?Rplus_0_l, ?(rnd_zero rndA HA)). reflexivity. }
  rewrite Hz. unfold Rle_bool. destruct (Rle_dec 0 0) as [_|Hn]; [|lra].
  rewrite computeIntensity_rounded.
  destruct exactFallback_distribution as [Hf _].
  destruct (intensity_bounds 1 7 _ exactFallback ltac:(lia) ltac:(lia) Hf
              (fallback_approx rndA rndM HA)) as [BL BH].
  assert (E : exactIntensity exactFallback = 2588 / 10)
    by (unfold exactIntensity, exactFallback; simpl; lra).
  rewrite E in BL, BH.
  assert (T : / 10 ^ 300 <= 1 / 10) by lra.
  f_equal. unfold roundHalfUp. apply Zfloor_eq. lra.
Qed.

(** The result against the exact weighted sum: it is the integer nearest to
    it, up to the rounding error of the sum the program forms. *)
Lemma intensity_near_exact m :
  nonneg m ->
  let E := exactIntensity m in
  let tol := E / 1000000000 + / 10 ^ 300 in
  exists n : Z,
    Mock.computeIntensity (H := NR) m = IZR n
    /\ (0 <= n)%Z
    /\ Rabs (IZR n - E) <= / 2 + tol
    /\ (forall k : Z,
          IZR k - / 2 + tol <= E < IZR k + / 2 - tol ->
          n = k /\ roundHalfUp E = k).
Proof.
  intros Hm E tol.
  destruct (intensity_of_nonneg m Hm) as (Hc & Hb & Hn).
  set (total := roundedIntensity rndA rndM m) in *.
  fold E in Hb. fold tol in Hb.
  assert (Hlo : - tol <= total - E <= tol).
  { unfold Rabs in Hb. destruct (Rcase_abs (total - E)); lra. }
  clear Hb.
  assert (HE : 0 <= E).
  { destruct Hm as (Hw & Hs & Hh & Hg & Hc' & Hb' & Hi). unfold E, exactIntensity. lra. }
  assert (Ht : 0 < tol).
  { unfold tol. assert (0 < / 10 ^ 300) by (apply Rinv_0_lt_compat; lra). lra. }
  exists (roundHalfUp total). split; [exact Hc|]. split; [exact Hn|]. split.
  - unfold roundHalfUp. pose proof (Zfloor_bound (total + / 2)) as Hf.
    apply Rabs_le. split; lra.
  - intros k Hk. split; unfold roundHalfUp; apply Zfloor_eq; lra.
Qed.

End RoundedIntensity.

(** C3, as stated, fails over binary64: the mix [tie24] has non-negative
    fields that sum to exactly 1 (and to 1 as the program adds them), its
    weighted sum with the factors 12, 50, 24, 400, 900, 230 and 300 is
    [24.5 - 2^-49], whose [round] is 24, and both copies of the intensity
    calculator return 25: the sum the program forms is rounded up to the tie
    24.5 before [Math.round] is applied. *)
Lemma intensity_not_round_of_weighted_sum :
  forallb (PrimFloat.leb 0) (values tie24) = true
  /\ (exactFieldSum tie24 == 1)%Q
  /\ sum7 tie24 = 1%float
  /\ (exactWeightedSum tie24 == (49 # 2) - (1 # 2 ^ 49))%Q
  /\ Qfloor (exactWeightedSum tie24 + (1 # 2)) = 24
  /\ Mock.computeIntensity tie24 = 25%float
  /\ Eirgrid.computeIntensity tie24 = 25%float
  /\ (exactValue (Mock.computeIntensity tie24) == 25)%Q.
Proof.
  repeat split; vm_compute; reflexivity.
Qed.

(** C3 (amended): for every mix of non-negative fields, in particular every
    normalized one, and under every rounding that behaves as binary64 does
    when nothing overflows, the intensity calculator returns a non-negative
    integer that lies within 1/2 + t of the weighted sum E of the seven fields
    with the factors 12, 50, 24, 400, 900, 230 and 300, where t = E * 1e-9 +
    1e-300 bounds the rounding error of the sum; whenever E is at least t
    away from the ties k - 1/2, the result is [round E].  The fallback
    distribution yields 259, under every rounding and over binary64; over
    binary64, every intensity the two generators publish on the example host,
    for the three ranges, is a non-negative integer. *)
Theorem intensity_is_rounded_weighted_sum :
  (forall rndA rndM : R -> R, rounding rndA rndM ->
   forall m : GenerationMixBreakdown R, nonneg m ->
     let E := exactIntensity m in
     let tol := (E / 1000000000 + / 10 ^ 300)%R in
     exists n : Z,
       Mock.computeIntensity (H := Rounded rndA rndM) m = IZR n
       /\ (0 <= n)%Z
       /\ (Rabs (IZR n - E) <= / 2 + tol)%R
       /\ (forall k : Z,
             (IZR k - / 2 + tol <= E < IZR k + / 2 - tol)%R ->
             n = k /\ roundHalfUp E = k))
  /\ (forall rndA rndM : R -> R, rounding rndA rndM ->
        Mock.computeIntensity (H := Rounded rndA rndM)
          (Mock.normalizeMix (H := Rounded rndA rndM) nothingPresent) = 259%R)
  /\ Mock.computeIntensity (H := B64Number) fallbackMix = 259%float
  /\ exampleIntensitiesAreIntegers = true.
Proof.
  split; [|split; [|split]].
  - intros rndA rndM [HA HM] m Hm. exact (intensity_near_exact rndA rndM HA HM m Hm).
  - intros rndA rndM [HA HM]. exact (intensity_of_fallback rndA rndM HA HM).
  - vm_compute. reflexivity.
  - vm_compute. reflexivity.
Qed.

Lemma intensity_is_rounded_weighted_sum_witness :
  nonneg quarterMixR
  /\ exactIntensity quarterMixR = 34%R
  /\ roundHalfUp (exactIntensity quarterMixR) = 34
  /\ Mock.computeIntensity (H := Rounded unrounded unrounded) quarterMixR = 34%R.
Proof.
  assert (Hm : nonneg quarterMixR).
  { unfold nonneg, quarterMixR. simpl. repeat split; lra. }
  assert (HE : exactIntensity quarterMixR = 34%R).
  { unfold exactIntensity, quarterMixR. simpl. lra. }
  destruct (proj1 intensity_is_rounded_weighted_sum unrounded unrounded
              unrounded_rounding quarterMixR Hm) as (n & Hc & _ & _ & Hk).
  assert (T : (/ 10 ^ 300 <= 1 / 10)%R) by lra.
  destruct (Hk 34) as [Hn Hr].
  { rewrite HE. lra. }
  subst n. split; [exact Hm | split; [exact HE | split; [exact Hr | exact Hc]]].
Defined.

(** C8: for every normalized mix (non-negative fields that sum to 1 within
    1e-9), both provider transforms (scaling, then re-normalization) yield
    non-negative fields that sum to 1 within 1e-9, under every rounding that
    behaves as binary64 does when nothing overflows; so does a second rescaling
    applied to the result, whatever the factors of at least 1/1000, the
    inverses of the provider factors included.  Over binary64 the ENTSO-E
    transform followed by the rescaling with the inverse factors does not give
    back the fallback distribution it started from, and its result still sums
    to 1; every mix of every provider variant on the example host sums to 1
    within 1e-9. *)
Theorem rescaled_mix_sums_to_one :
  (forall rndA rndM : R -> R, rounding rndA rndM ->
   forall m : GenerationMixBreakdown R, normalized m ->
     isDistribution rndA
       (App.renormalize (H := Rounded rndA rndM)
          (App.eirgridModifiedMix (H := Rounded rndA rndM) m))
     /\ isDistribution rndA
          (App.renormalize (H := Rounded rndA rndM)
             (App.entsoeModifiedMix (H := Rounded rndA rndM) m))
     /\ (forall f g : GenerationMixBreakdown R,
           atLeast (1 / 1000) f -> atLeast (1 / 1000) g ->
           isDistribution rndA
             (App.renormalize (H := Rounded rndA rndM)
                (scaleMix (H := Rounded rndA rndM) g
                   (App.renormalize (H := Rounded rndA rndM)
                      (scaleMix (H := Rounded rndA rndM) f m))))))
  /\ (let once := App.renormalize (App.entsoeModifiedMix fallbackMix) in
      let back := App.renormalize (scaleMix (inverseFactors entsoeFactors) once) in
      App.entsoeModifiedMix fallbackMix = scaleMix entsoeFactors fallbackMix
      /\ PrimFloat.eqb (wind back) (wind fallbackMix) = false
      /\ sumsToOne once = true
      /\ sumsToOne back = true)
  /\ exampleVariantsSumToOne = true.
Proof.
  split; [|split].
  - intros rndA rndM [HA HM] m Hm. split; [|split].
    + destruct (eirgrid_modified_positive rndA rndM HA HM m Hm) as [Hn Hp].
      exact (renormalize_distribution rndA rndM HA HM _ Hn Hp).
    + destruct (entsoe_modified_positive rndA rndM HA HM m Hm) as [Hn Hp].
      exact (renormalize_distribution rndA rndM HA HM _ Hn Hp).
    + intros f g Hf Hg.
      pose proof (rescale_distribution rndA rndM HA HM f m Hf Hm) as [D _].
      exact (rescale_distribution rndA rndM HA HM g _ Hg D).
  - cbv zeta. repeat split; vm_compute; reflexivity.
  - vm_compute. reflexivity.
Qed.

Lemma rescaled_mix_sums_to_one_witness :
  isDistribution inflate
    (App.renormalize (H := Rounded inflate inflateM)
       (App.eirgridModifiedMix (H := Rounded inflate inflateM) quarterMixR))
  /\ isDistribution inflate
       (App.renormalize (H := Rounded inflate inflateM)
          (App.entsoeModifiedMix (H := Rounded inflate inflateM) quarterMixR))
  /\ isDistribution inflate
       (App.renormalize (H := Rounded inflate inflateM)
          (scaleMix (H := Rounded inflate inflateM) onesR
             (App.renormalize (H := Rounded inflate inflateM)
                (scaleMix (H := Rounded inflate inflateM) onesR quarterMixR)))).
Proof.
  assert (Hm : normalized quarterMixR).
  { unfold normalized, nonneg, exactSum, quarterMixR. simpl.
    split; [repeat split; lra|].
    replace (1 / 4 + 1 / 2 + 1 / 4 + 0 + 0 + 0 + 0 - 1)%R with 0%R by lra.
    rewrite Rabs_R0. lra. }
  assert (H1 : atLeast (1 / 1000) onesR)
    by (unfold atLeast, onesR; simpl; repeat split; lra).
  destruct (proj1 rescaled_mix_sums_to_one inflate inflateM inflate_rounding
              quarterMixR Hm) as (A & B & C).
  split; [exact A|]. split; [exact B|]. exact (C onesR onesR H1 H1).
Defined.

(** ** Further properties over binary64 *)

Module B64Zero.

Lemma neg_zero_inj (a : float) : Prim2SF a = S754_zero true -> a = (-0)%float.
Proof. intros H. apply Prim2SF_inj. rewrite H. reflexivity. Qed.

Lemma pos_zero_inj (a : float) : Prim2SF a = S754_zero false -> a = 0%float.
Proof. intros H. apply Prim2SF_inj. rewrite H. reflexivity. Qed.

(** Adding to [+0] changes nothing but the sign of [-0]. *)
Lemma add_zero_l (a : float) : upToZeroSign (0 + a)%float a.
Proof.
  unfold upToZeroSign.
  destruct (Prim2SF a) as [s | s | | s m e] eqn:Ha.
  - destruct s.
    + right. split; [|now apply neg_zero_inj].
      apply Prim2SF_inj. rewrite FloatAxioms.add_spec, Ha. reflexivity.
    + left. apply Prim2SF_inj. rewrite FloatAxioms.add_spec, Ha. reflexivity.
  - left. apply Prim2SF_inj. rewrite FloatAxioms.add_spec, Ha. reflexivity.
  - left. apply Prim2SF_inj. rewrite FloatAxioms.add_spec, Ha. reflexivity.
  - left. apply Prim2SF_inj. rewrite FloatAxioms.add_spec, Ha. reflexivity.
Qed.

Lemma add_same (x y a : float) :
  upToZeroSign x y -> upToZeroSign (x + a)%float (y + a)%float.
Proof.
  intros [-> | [-> ->]]; [now left|].
  unfold upToZeroSign.
  destruct (Prim2SF a) as [s | s | | s m e] eqn:Ha.
  - destruct s.
    + right. split; apply Prim2SF_inj; rewrite FloatAxioms.add_spec, Ha; reflexivity.
    + left. apply Prim2SF_inj. rewrite !FloatAxioms.add_spec, Ha. reflexivity.
  - left. apply Prim2SF_inj. rewrite !FloatAxioms.add_spec, Ha. reflexivity.
  - left. apply Prim2SF_inj. rewrite !FloatAxioms.add_spec, Ha. reflexivity.
  - left. apply Prim2SF_inj. rewrite !FloatAxioms.add_spec, Ha. reflexivity.
Qed.

Lemma round_same (x y : float) :
  upToZeroSign x y -> upToZeroSign (B64.round x) (B64.round y).
Proof.
  intros [-> | [-> ->]]; [now left|]. right. split; reflexivity.
Qed.

Lemma eqb_refl (x : float) : PrimFloat.is_nan x = false -> PrimFloat.eqb x x = true.
Proof.
  intros Hx. rewrite FloatAxioms.eqb_spec. unfold SFeqb.
  rewrite B64Facts.SFcompare_refl; [reflexivity|].
  now apply B64Facts.is_nan_spec.
Qed.

Lemma same_eqb (x y : float) :
  upToZeroSign x y -> PrimFloat.is_nan y = false -> PrimFloat.eqb x y = true.
Proof.
  intros [-> | [-> ->]] Hy; [now apply eqb_refl | reflexivity].
Qed.

End B64Zero.

Lemma emissions_total_same (d : GenerationMixPoint float) :
  upToZeroSign (Mock.computeIntensity (mix d)) (em_total (Charts.emissionsRow d)).
Proof.
  unfold Charts.emissionsRow, Mock.computeIntensity. cbn [em_total].
  apply B64Zero.round_same.
  cbn [fold_left keys get Mock.EMISSION_FACTORS].
  repeat apply B64Zero.add_same.
  apply B64Zero.add_zero_l.
Qed.

(** X1: the total the emissions chart plots for a point is the intensity
    [computeIntensity] gives for the mix of that point: the same binary64
    value, or [-0] where the intensity is [+0] (the chart adds the seven
    products without the leading 0); each is NaN when the other is, and
    otherwise they compare equal.  The row keeps the time of the point. *)
Theorem chart_total_is_intensity :
  forall d : GenerationMixPoint float,
    let row := Charts.emissionsRow d in
    upToZeroSign (Mock.computeIntensity (mix d)) (em_total row)
    /\ (PrimFloat.is_nan (em_total row) = PrimFloat.is_nan (Mock.computeIntensity (mix d)))
    /\ (PrimFloat.is_nan (em_total row) = false ->
        PrimFloat.eqb (Mock.computeIntensity (mix d)) (em_total row) = true)
    /\ em_time row = gm_timestamp d.
Proof.
  intros d row.
  pose proof (emissions_total_same d) as Hsame. fold row in Hsame.
  split; [exact Hsame|]. split; [|split].
  - destruct Hsame as [-> | [-> ->]]; reflexivity.
  - intros Hn. now apply B64Zero.same_eqb.
  - reflexivity.
Qed.

Lemma chart_total_is_intensity_witness :
  PrimFloat.eqb (Mock.computeIntensity fallbackMix)
    (em_total (Charts.emissionsRow {| gm_timestamp := exampleNow; mix := fallbackMix |}))
  = true.
Proof.
  apply (chart_total_is_intensity {| gm_timestamp := exampleNow; mix := fallbackMix |}).
  reflexivity.
Defined.

(** ** binary64: the order of the numbers *)

Module B64Order.

Lemma SFcompare_rank (x y : spec_float) :
  x <> S754_nan -> y <> S754_nan ->
  SFcompare x y = Some (lexcmp (rank x) (rank y)).
Proof.
  destruct x as [sx|sx| |sx mx ex], y as [sy|sy| |sy my ey]; intros Hx Hy;
    try congruence; simpl;
    try reflexivity;
    try (destruct sx; reflexivity); try (destruct sy; reflexivity);
    try (destruct sx, sy; reflexivity).
  destruct sx, sy; simpl; try reflexivity; f_equal.
  rewrite Z.compare_opp, (Z.compare_antisym ex ey).
  destruct (ex ?= ey)%Z; reflexivity.
Qed.

Lemma lexcmp_trans (r1 r2 r3 : Z * Z * Z) :
  lexcmp r1 r2 <> Gt -> lexcmp r2 r3 <> Gt -> lexcmp r1 r3 <> Gt.
Proof.
  destruct r1 as [[a1 b1] c1], r2 as [[a2 b2] c2], r3 as [[a3 b3] c3].
  unfold lexcmp.
  destruct (Z.compare_spec a1 a2), (Z.compare_spec a2 a3), (Z.compare_spec a1 a3);
    try congruence; try lia;
    destruct (Z.compare_spec b1 b2), (Z.compare_spec b2 b3), (Z.compare_spec b1 b3);
    try congruence; try lia;
    destruct (Z.compare_spec c1 c2), (Z.compare_spec c2 c3), (Z.compare_spec c1 c3);
    try congruence; try lia.
Qed.

Lemma leb_rank (x y : float) :
  PrimFloat.leb x y = true
  <-> PrimFloat.is_nan x = false /\ PrimFloat.is_nan y = false
      /\ lexcmp (rank (Prim2SF x)) (rank (Prim2SF y)) <> Gt.
Proof.
  split.
  - intros H. destruct (B64Facts.leb_num _ _ H) as [Hx Hy].
    split; [exact Hx|]. split; [exact Hy|].
    rewrite FloatAxioms.leb_spec in H. unfold SFleb in H.
    rewrite SFcompare_rank in H by now apply B64Facts.is_nan_spec.
    destruct (lexcmp _ _); congruence.
  - intros (Hx & Hy & H).
    rewrite FloatAxioms.leb_spec. unfold SFleb.
    rewrite SFcompare_rank by now apply B64Facts.is_nan_spec.
    destruct (lexcmp _ _); congruence.
Qed.

Lemma leb_trans (x y z : float) :
  PrimFloat.leb x y = true -> PrimFloat.leb y z = true -> PrimFloat.leb x z = true.
Proof.
  rewrite !leb_rank. intros (Hx & _ & H1) (_ & Hz & H2).
  split; [exact Hx|]. split; [exact Hz|]. eapply lexcmp_trans; eassumption.
Qed.

(** Two numbers each at most the other compare equal. *)
Lemma leb_antisym (x y : float) :
  PrimFloat.leb x y = true -> PrimFloat.leb y x = true -> PrimFloat.eqb x y = true.
Proof.
  intros H1 H2.
  rewrite FloatAxioms.leb_spec in H1, H2. rewrite FloatAxioms.eqb_spec.
  unfold SFleb in H1, H2. unfold SFeqb.
  rewrite (B64Facts.SFcompare_antisym (Prim2SF x) (Prim2SF y)) in H2.
  destruct (SFcompare (Prim2SF x) (Prim2SF y)) as [[]|]; simpl in *; congruence.
Qed.

Lemma eqb_leb (x y : float) :
  PrimFloat.eqb x y = true -> PrimFloat.leb x y = true /\ PrimFloat.leb y x = true.
Proof.
  rewrite FloatAxioms.eqb_spec, !FloatAxioms.leb_spec. unfold SFeqb, SFleb.
  rewrite (B64Facts.SFcompare_antisym (Prim2SF x) (Prim2SF y)).
  destruct (SFcompare (Prim2SF x) (Prim2SF y)) as [[]|]; simpl; intros; split; congruence.
Qed.

Lemma eqb_sym (x y : float) : PrimFloat.eqb x y = true -> PrimFloat.eqb y x = true.
Proof.
  intros H. destruct (eqb_leb _ _ H). now apply leb_antisym.
Qed.

End B64Order.

(** ** [clamp], [Math.max] and [Math.min] over binary64 *)

Module B64Clamp.

Lemma ltb_rank (x y : float) :
  PrimFloat.ltb x y = true
  <-> PrimFloat.is_nan x = false /\ PrimFloat.is_nan y = false
      /\ lexcmp (rank (Prim2SF x)) (rank (Prim2SF y)) = Lt.
Proof.
  split.
  - intros H. destruct (B64Facts.leb_num _ _ (B64Facts.ltb_leb _ _ H)) as [Hx Hy].
    split; [exact Hx|]. split; [exact Hy|].
    rewrite FloatAxioms.ltb_spec in H. unfold SFltb in H.
    rewrite B64Order.SFcompare_rank in H by now apply B64Facts.is_nan_spec.
    destruct (lexcmp _ _); congruence.
  - intros (Hx & Hy & H).
    rewrite FloatAxioms.ltb_spec. unfold SFltb.
    rewrite B64Order.SFcompare_rank by now apply B64Facts.is_nan_spec.
    now rewrite H.
Qed.

Lemma leb_ltb_trans (x y z : float) :
  PrimFloat.leb x y = true -> PrimFloat.ltb y z = true -> PrimFloat.ltb x z = true.
Proof.
  rewrite B64Order.leb_rank, !ltb_rank. intros (Hx & _ & H1) (_ & Hz & H2).
  split; [exact Hx|]. split; [exact Hz|].
  destruct (rank (Prim2SF x)) as [[a1 b1] c1], (rank (Prim2SF y)) as [[a2 b2] c2],
    (rank (Prim2SF z)) as [[a3 b3] c3].
  unfold lexcmp in *.
  destruct (Z.compare_spec a1 a2), (Z.compare_spec a2 a3), (Z.compare_spec a1 a3);
    try congruence; try lia;
    destruct (Z.compare_spec b1 b2), (Z.compare_spec b2 b3), (Z.compare_spec b1 b3);
    try congruence; try lia;
    destruct (Z.compare_spec c1 c2), (Z.compare_spec c2 c3), (Z.compare_spec c1 c3);
    try congruence; try lia.
Qed.

Lemma eqb_trans (x y z : float) :
  PrimFloat.eqb x y = true -> PrimFloat.eqb y z = true -> PrimFloat.eqb x z = true.
Proof.
  intros H1 H2. destruct (B64Order.eqb_leb _ _ H1), (B64Order.eqb_leb _ _ H2).
  apply B64Order.leb_antisym; eapply B64Order.leb_trans; eassumption.
Qed.

(** [Math.min] of two numbers is the smaller one, [Math.max] the larger. *)
Lemma min_of_le (a b : float) :
  PrimFloat.leb b a = true -> PrimFloat.eqb (B64.min a b) b = true.
Proof.
  intros Hle. destruct (B64Facts.leb_num _ _ Hle) as [Hb Ha].
  unfold B64.min. rewrite Ha, Hb. simpl.
  rewrite (B64Facts.leb_not_ltb _ _ Hle).
  destruct (PrimFloat.ltb b a) eqn:Hba; [now apply B64Zero.eqb_refl|].
  assert (Hab : PrimFloat.leb a b = true) by now apply B64Facts.not_ltb_leb.
  destruct (PrimFloat.classify a);
    solve [now apply B64Zero.eqb_refl | now apply B64Order.leb_antisym].
Qed.

Lemma min_of_ge (a b : float) :
  PrimFloat.leb a b = true -> PrimFloat.eqb (B64.min a b) a = true.
Proof.
  intros Hle. destruct (B64Facts.leb_num _ _ Hle) as [Ha Hb].
  unfold B64.min. rewrite Ha, Hb. simpl.
  destruct (PrimFloat.ltb a b) eqn:Hab; [now apply B64Zero.eqb_refl|].
  rewrite (B64Facts.leb_not_ltb _ _ Hle).
  assert (Hba : PrimFloat.leb b a = true) by now apply B64Facts.not_ltb_leb.
  destruct (PrimFloat.classify a);
    solve [now apply B64Zero.eqb_refl | now apply B64Order.leb_antisym].
Qed.

Lemma max_of_le (a b : float) :
  PrimFloat.leb a b = true -> PrimFloat.eqb (B64.max a b) b = true.
Proof.
  intros Hle. destruct (B64Facts.leb_num _ _ Hle) as [Ha Hb].
  unfold B64.max. rewrite Ha, Hb. simpl.
  destruct (PrimFloat.ltb a b) eqn:Hab; [now apply B64Zero.eqb_refl|].
  rewrite (B64Facts.leb_not_ltb _ _ Hle).
  assert (Hba : PrimFloat.leb b a = true) by now apply B64Facts.not_ltb_leb.
  destruct (PrimFloat.classify a);
    solve [now apply B64Zero.eqb_refl | now apply B64Order.leb_antisym].
Qed.

Lemma max_of_ge (a b : float) :
  PrimFloat.leb b a = true -> PrimFloat.eqb (B64.max a b) a = true.
Proof.
  intros Hle. destruct (B64Facts.leb_num _ _ Hle) as [Hb Ha].
  unfold B64.max. rewrite Ha, Hb. simpl.
  rewrite (B64Facts.leb_not_ltb _ _ Hle).
  destruct (PrimFloat.ltb b a) eqn:Hba; [now apply B64Zero.eqb_refl|].
  assert (Hab : PrimFloat.leb a b = true) by now apply B64Facts.not_ltb_leb.
  destruct (PrimFloat.classify a);
    solve [now apply B64Zero.eqb_refl | now apply B64Order.leb_antisym].
Qed.

(** A comparison does not tell numbers that compare equal apart. *)
Lemma leb_eqb_l (x x' y : float) :
  PrimFloat.eqb x x' = true -> PrimFloat.leb x' y = true -> PrimFloat.leb x y = true.
Proof.
  intros He Hle. destruct (B64Order.eqb_leb _ _ He).
  eapply B64Order.leb_trans; eassumption.
Qed.

Lemma leb_eqb_r (x y y' : float) :
  PrimFloat.eqb y y' = true -> PrimFloat.leb x y' = true -> PrimFloat.leb x y = true.
Proof.
  intros He Hle. destruct (B64Order.eqb_leb _ _ He).
  eapply B64Order.leb_trans; eassumption.
Qed.

Lemma nan_min (a b : float) :
  PrimFloat.is_nan a = true \/ PrimFloat.is_nan b = true ->
  PrimFloat.is_nan (B64.min a b) = true.
Proof.
  intros Hn. unfold B64.min.
  destruct (PrimFloat.is_nan a), (PrimFloat.is_nan b); simpl;
    solve [reflexivity | destruct Hn; discriminate].
Qed.

Lemma nan_max (a b : float) :
  PrimFloat.is_nan a = true \/ PrimFloat.is_nan b = true ->
  PrimFloat.is_nan (B64.max a b) = true.
Proof.
  intros Hn. unfold B64.max.
  destruct (PrimFloat.is_nan a), (PrimFloat.is_nan b); simpl;
    solve [reflexivity | destruct Hn; discriminate].
Qed.

End B64Clamp.

(** X2: [clamp(value, min, max)] over binary64.  A NaN among the three
    arguments makes the result NaN: a NaN value is not clamped.  For a value
    that is a number and [min <= max], the result is in [[min, max]]: it is
    the value itself where [min <= value <= max], [min] where the value is
    below, [max] where it is above (as numbers: the sign of a zero may be that
    of the bound).  With the bounds the wrong way round, [max < min], the
    result is [min] whatever the value. *)
Theorem clamp_edge_cases :
  forall value min max : float,
    let r := Mock.clamp value min max in
    (PrimFloat.is_nan value = true \/ PrimFloat.is_nan min = true
     \/ PrimFloat.is_nan max = true -> PrimFloat.is_nan r = true)
    /\ (PrimFloat.is_nan value = false -> PrimFloat.leb min max = true ->
        PrimFloat.leb min r = true /\ PrimFloat.leb r max = true)
    /\ (PrimFloat.leb min value = true -> PrimFloat.leb value max = true ->
        PrimFloat.eqb r value = true)
    /\ (PrimFloat.leb value min = true -> PrimFloat.leb min max = true ->
        PrimFloat.eqb r min = true)
    /\ (PrimFloat.leb max value = true -> PrimFloat.leb min max = true ->
        PrimFloat.eqb r max = true)
    /\ (PrimFloat.is_nan value = false -> PrimFloat.ltb max min = true -> r = min).
Proof.
  intros value min max r. subst r. unfold Mock.clamp.
  change (Math_max min (Math_min max value)) with (B64.max min (B64.min max value)).
  split; [|split; [|split; [|split; [|split]]]].
  - intros [Hv | [Hmin | Hmax]].
    + apply B64Clamp.nan_max. right. apply B64Clamp.nan_min. now right.
    + apply B64Clamp.nan_max. now left.
    + apply B64Clamp.nan_max. right. apply B64Clamp.nan_min. now left.
  - intros Hv Hle. now apply B64Facts.clamp_band.
  - intros Hlo Hhi.
    assert (Hw : PrimFloat.eqb (B64.min max value) value = true)
      by now apply B64Clamp.min_of_le.
    apply B64Clamp.eqb_trans with (y := B64.min max value); [|exact Hw].
    apply B64Clamp.max_of_le.
    apply B64Clamp.leb_eqb_r with (y' := value); assumption.
  - intros Hlo Hle.
    assert (Hhi : PrimFloat.leb value max = true)
      by (eapply B64Order.leb_trans; eassumption).
    assert (Hw : PrimFloat.eqb (B64.min max value) value = true)
      by now apply B64Clamp.min_of_le.
    apply B64Clamp.max_of_ge.
    apply B64Clamp.leb_eqb_l with (x' := value); assumption.
  - intros Hhi Hle.
    assert (Hw : PrimFloat.eqb (B64.min max value) max = true)
      by now apply B64Clamp.min_of_ge.
    apply B64Clamp.eqb_trans with (y := B64.min max value); [|exact Hw].
    apply B64Clamp.max_of_le.
    apply B64Clamp.leb_eqb_r with (y' := max); assumption.
  - intros Hv Hlt.
    destruct (B64Facts.leb_num _ _ (B64Facts.ltb_leb _ _ Hlt)) as [Hmax Hmin].
    assert (Hwn : PrimFloat.is_nan (B64.min max value) = false).
    { destruct (B64Facts.min_cases max value Hmax Hv) as [-> | ->]; assumption. }
    assert (Hw : PrimFloat.ltb (B64.min max value) min = true).
    { apply B64Clamp.leb_ltb_trans with (y := max); [|exact Hlt].
      now apply B64Facts.min_le_l. }
    unfold B64.max at 1. rewrite Hmin, Hwn. simpl.
    rewrite (B64Facts.leb_not_ltb _ _ (B64Facts.ltb_leb _ _ Hw)), Hw. reflexivity.
Qed.

Lemma clamp_edge_cases_witness :
  (PrimFloat.is_nan (Mock.clamp PrimFloat.nan 0.1 0.75) = true)%float
  /\ (PrimFloat.leb 0.1 (Mock.clamp 0.9 0.1 0.75) = true
      /\ PrimFloat.leb (Mock.clamp 0.9 0.1 0.75) 0.75 = true)%float
  /\ (PrimFloat.eqb (Mock.clamp 0.5 0.1 0.75) 0.5 = true)%float
  /\ (PrimFloat.eqb (Mock.clamp 0.05 0.1 0.75) 0.1 = true)%float
  /\ (PrimFloat.eqb (Mock.clamp 0.9 0.1 0.75) 0.75 = true)%float
  /\ (Mock.clamp 0.5 0.75 0.1 = 0.75)%float.
Proof.
  split; [|split; [|split; [|split; [|split]]]].
  - apply (clamp_edge_cases PrimFloat.nan 0.1 0.75). left. reflexivity.
  - apply (clamp_edge_cases 0.9 0.1 0.75); reflexivity.
  - apply (clamp_edge_cases 0.5 0.1 0.75); reflexivity.
  - apply (clamp_edge_cases 0.05 0.1 0.75); reflexivity.
  - apply (clamp_edge_cases 0.9 0.1 0.75); reflexivity.
  - apply (clamp_edge_cases 0.5 0.75 0.1); reflexivity.
Defined.

(** ** The generators over binary64, further *)

Section HostSolar.
Variables sinf cosf : float -> float.
Let M : JsMath float := B64Math sinf cosf.

Lemma solarBase_num (h : float) :
  sin_total sinf -> PrimFloat.is_finite (solarArg h) = true ->
  PrimFloat.is_nan (B64.max 0 (sinf (solarArg h))) = false.
Proof.
  intros Hsin Hfin.
  destruct (B64Facts.max_cases 0 (sinf (solarArg h)) eq_refl (Hsin _ Hfin))
    as [-> | ->]; [reflexivity | now apply Hsin].
Qed.

Lemma mock_solar_band (h : float) :
  sin_total sinf -> PrimFloat.is_finite (solarArg h) = true ->
  let s := Mock.solarAt (H0 := M) h in
  (num 0 <=? s)%js = true /\ (s <=? num 0.25)%js = true.
Proof.
  intros Hsin Hfin.
  unfold Mock.solarAt, Mock.clamp, Mock.solarBase.
  change (Math_max (num 0) (Math_sin (Math_PI * (h - num 6) / num 12))%js)
    with (B64.max 0 (sinf (solarArg h))).
  apply B64Facts.clamp_band; [vm_compute; reflexivity|].
  apply lit_finite; [vm_compute; eauto|].
  now apply solarBase_num.
Qed.

Lemma eirgrid_solar_band (h : float) :
  sin_total sinf -> PrimFloat.is_finite (solarArg h) = true ->
  let s := Eirgrid.solarAt (H0 := M) h in
  (num 0 <=? s)%js = true /\ (s <=? num 0.15)%js = true.
Proof.
  intros Hsin Hfin.
  unfold Eirgrid.solarAt, Eirgrid.solarBase.
  change (Math_max (num 0) (Math_sin (Math_PI * (h - num 6) / num 12))%js)
    with (B64.max 0 (sinf (solarArg h))).
  apply B64Facts.clamp_band; [vm_compute; reflexivity|].
  apply lit_finite; [vm_compute; eauto|].
  now apply solarBase_num.
Qed.

End HostSolar.

Lemma solarArg_finite tza t :
  PrimFloat.is_finite (solarArg (Mock.hourOfDay tza t)) = true.
Proof.
  apply (clock_forall (fun h => PrimFloat.is_finite (solarArg h))).
  vm_compute. reflexivity.
Qed.

(** X3: the raw solar share of every sample, in daylight as well, stays in
    the band of its clamp, [[0, 0.25]] in the mock generator and [[0, 0.15]]
    in the realistic one, for every host whose [Math.sin] returns a number on
    finite arguments: it is never negative and never NaN, at any time of day
    and at any index of either loop. *)
Theorem solar_within_band :
  forall (sinf cosf : float -> float) (tza : Z -> Z),
    sin_total sinf ->
    let M := B64Math sinf cosf in
    forall (startDate : Date) (stepMinutes points i : Z),
      let t := addMinutes startDate (i * stepMinutes) in
      (exists s,
          solar_opt (Mock.rawMix (H0 := M) points i (Mock.hourOfDay tza t)) = Some s
          /\ (num 0 <=? s)%js = true /\ (s <=? num 0.25)%js = true)
      /\ (let s := eg_solar (Eirgrid.dataPoint (H0 := M) tza startDate stepMinutes points i) in
          (num 0 <=? s)%js = true /\ (s <=? num 0.15)%js = true).
Proof.
  intros sinf cosf tza Hsin M startDate stepMinutes points i t. split.
  - eexists. split; [reflexivity|].
    apply mock_solar_band; [exact Hsin | apply solarArg_finite].
  - unfold Eirgrid.dataPoint. cbv zeta. cbn [eg_solar].
    fold t. rewrite eirgrid_hourOfDay.
    apply eirgrid_solar_band; [exact Hsin | apply solarArg_finite].
Qed.

Lemma solar_within_band_witness :
  (exists s, solar_opt (Mock.rawMix (H0 := B64Math squareSin constCos) 96 50
                          (Mock.hourOfDay (fun _ => 0%Z) (addMinutes 0 (50 * 15)))) = Some s
             /\ (num 0 <=? s)%js = true /\ (s <=? num 0.25)%js = true)
  /\ (let s := eg_solar (Eirgrid.dataPoint (H0 := B64Math squareSin constCos)
                           (fun _ => 0%Z) 0%Z 15 96 50) in
      (num 0 <=? s)%js = true /\ (s <=? num 0.15)%js = true).
Proof.
  refine (solar_within_band squareSin constCos (fun _ => 0%Z) _ 0%Z 15%Z 96%Z 50%Z).
  intros x _. unfold squareSin. destruct (inNegArc x); reflexivity.
Defined.

(** *** The [total] of a raw data point *)

Lemma wind_not_neg_zero (w : float) :
  PrimFloat.leb (B64.lit 0.1) w = true -> (0 + w)%float = w.
Proof.
  intros Hw. destruct (B64Zero.add_zero_l w) as [E | [_ E]]; [exact E|].
  rewrite E in Hw. vm_compute in Hw. discriminate.
Qed.

(** X4: the [total] a raw data point of the realistic generator records is
    the very total [normalizeMix] divides by when [fetchRealEirGridData]
    publishes the point: the published mix is the fallback when that total is
    at most 0 and, otherwise, each raw field divided by it; over binary64, for
    every host whose [Math.sin] returns a number on finite arguments. *)
Theorem raw_total_is_divisor :
  forall (sinf cosf : float -> float) (tza : Z -> Z),
    sin_total sinf ->
    let M := B64Math sinf cosf in
    forall (now : Date) (range : DateRange)
           (dataPoints : list (EirGridDataPoint float)) (point : EirGridDataPoint float),
      Eirgrid.generateRealisticIrishData (H0 := M) tza now range = Ok dataPoints ->
      In point dataPoints ->
      eg_total point = sum7 (withDefaults (rawOf point))
      /\ (forall acc : Series float,
            generation (Eirgrid.pushPoint acc point)
            = generation acc
              ++ [{| gm_timestamp := newDateOf (eg_timestamp point);
                     mix := if PrimFloat.leb (eg_total point) 0 then fallbackMix
                            else mapMix (fun v => (v / eg_total point)%float)
                                        (withDefaults (rawOf point)) |}]).
Proof.
  intros sinf cosf tza Hsin M now range dataPoints point Hgen Hin.
  destruct (eirgrid_data_points tza now range dataPoints point Hgen Hin)
    as (i & _ & Hp).
  assert (Hw : PrimFloat.leb (B64.lit 0.1) (eg_wind point) = true).
  { rewrite Hp. unfold Eirgrid.dataPoint. cbv zeta. cbn [eg_wind].
    rewrite eirgrid_hourOfDay.
    apply (eirgrid_wind_band sinf cosf); [exact Hsin|].
    apply windArg_finite. vm_compute. reflexivity. }
  assert (Htotal : eg_total point = sum7 (withDefaults (rawOf point))).
  { unfold sum7, withDefaults, rawOf. cbn [wind solar hydro gas coal biomass imports
      nullish wind_opt solar_opt hydro_opt gas_opt coal_opt biomass_opt imports_opt].
    rewrite (wind_not_neg_zero _ Hw).
    rewrite Hp. reflexivity. }
  split; [exact Htotal|].
  intros acc. unfold Eirgrid.pushPoint. cbn [generation].
  rewrite Htotal. reflexivity.
Qed.

Lemma raw_total_is_divisor_witness :
  let point := Eirgrid.dataPoint (H0 := B64Math squareSin constCos)
                 utc (subHours exampleNow 24) 15 96 7 in
  eg_total point = sum7 (withDefaults (rawOf point)).
Proof.
  intros point.
  refine (proj1 (raw_total_is_divisor squareSin constCos utc _ exampleNow Range24h
                   _ point eq_refl _)).
  - intros x _. unfold squareSin. destruct (inNegArc x); reflexivity.
  - unfold for_upto. rewrite for_from_push.
    apply in_or_app. right. apply in_map_iff. exists 7%Z.
    split; [reflexivity|]. apply zseq_In. vm_compute. split; [discriminate | reflexivity].
Defined.

(** ** The provider branches over binary64 *)

Lemma SF_eqb_eq (x y : spec_float) : SF_eqb x y = true -> x = y.
Proof.
  destruct x as [s|s| |s m e], y as [s'|s'| |s' m' e']; simpl; try discriminate.
  - intros H. apply Bool.eqb_prop in H. now subst.
  - intros H. apply Bool.eqb_prop in H. now subst.
  - reflexivity.
  - intros H. apply andb_prop in H. destruct H as [H He].
    apply andb_prop in H. destruct H as [Hs Hm].
    apply Bool.eqb_prop in Hs. apply Pos.eqb_eq in Hm. apply Z.eqb_eq in He.
    now subst.
Qed.

Lemma identical_eq (x y : float) : identical x y = true -> x = y.
Proof. intros H. apply Prim2SF_inj. now apply SF_eqb_eq. Qed.

Lemma scalingIsNearest_upto_900 :
  forallb scalingIsNearest (zseq 0 901) = true.
Proof. vm_compute. reflexivity. Qed.

(** X5: over binary64, for every integer intensity [b] from 0 to 900 (the
    range of the intensities of normalized mixes), the EirGrid branch publishes
    the integer nearest to [0.8 b], which is [(8 b + 5) / 10] rounded down, and
    the ENTSO-E branch the integer nearest to [0.6 b]: the binary64 factors 0.8
    and 0.6 and the product's rounding never move the result to a neighbouring
    integer.  So the ENTSO-E value is at most the EirGrid value, which is at
    most [b]. *)
Theorem provider_scaling_is_nearest :
  forall (t : Date) (b : Z),
    (0 <= b <= 900)%Z ->
    gramsCO2PerKWh (App.eirgridIntensity (intensityPoint t b)) = numZ ((8 * b + 5) / 10)
    /\ gramsCO2PerKWh (App.entsoeIntensity (intensityPoint t b)) = numZ ((6 * b + 5) / 10)
    /\ ((6 * b + 5) / 10 <= (8 * b + 5) / 10 <= b)%Z
    /\ ci_timestamp (App.eirgridIntensity (intensityPoint t b)) = t
    /\ ci_timestamp (App.entsoeIntensity (intensityPoint t b)) = t.
Proof.
  intros t b Hb.
  pose proof scalingIsNearest_upto_900 as Hall.
  rewrite forallb_forall in Hall.
  specialize (Hall b (zseq_In 901 0 b ltac:(lia))).
  unfold scalingIsNearest in Hall. apply andb_prop in Hall. destruct Hall as [H8 H6].
  apply identical_eq in H8. apply identical_eq in H6.
  split; [exact H8|]. split; [exact H6|]. split; [|split; reflexivity].
  split.
  - apply Z.div_le_mono; lia.
  - pose proof (Z.div_lt_upper_bound (8 * b + 5) 10 (b + 1)). lia.
Qed.

Lemma provider_scaling_is_nearest_witness :
  gramsCO2PerKWh (App.eirgridIntensity (intensityPoint exampleNow 259)) = 207%float
  /\ gramsCO2PerKWh (App.entsoeIntensity (intensityPoint exampleNow 259)) = 155%float.
Proof.
  destruct (provider_scaling_is_nearest exampleNow 259 ltac:(lia)) as (H8 & H6 & _).
  split; [exact H8 | exact H6].
Defined.

(** *** The inline normalization of the provider branches *)

Lemma total_zero (t : float) :
  PrimFloat.eqb t 0 = true -> exists s, Prim2SF t = S754_zero s.
Proof.
  rewrite FloatAxioms.eqb_spec. unfold SFeqb.
  change (Prim2SF 0) with (S754_zero false).
  destruct (Prim2SF t) as [s|s| |s m e]; simpl; try discriminate.
  - intros _. now exists s.
  - destruct s; discriminate.
  - destruct s; discriminate.
Qed.

Lemma div_by_zero (v t : float) :
  PrimFloat.eqb t 0 = true -> PrimFloat.is_finite (v / t) = false.
Proof.
  intros Ht. destruct (total_zero t Ht) as [s Hs].
  assert (H : Prim2SF (v / t) = S754_nan
              \/ exists s', Prim2SF (v / t) = S754_infinity s').
  { rewrite FloatAxioms.div_spec, Hs. unfold SF64div, SFdiv.
    destruct (Prim2SF v) as [sv|sv| |sv mv ev]; eauto. }
  destruct H as [H | [s' H]].
  - replace (v / t)%float with PrimFloat.nan; [reflexivity|].
    apply Prim2SF_inj. rewrite H. reflexivity.
  - destruct s'.
    + replace (v / t)%float with PrimFloat.neg_infinity; [reflexivity|].
      apply Prim2SF_inj. rewrite H. reflexivity.
    + replace (v / t)%float with PrimFloat.infinity; [reflexivity|].
      apply Prim2SF_inj. rewrite H. reflexivity.
Qed.

(** X6: the normalization the provider branches of
    [generateProviderSpecificData] write out themselves is [normalizeMix]
    without its guard.  At every reading of the numbers, it returns what
    [normalizeMix] returns whenever the total of the fields is not [<= 0];
    over binary64, when the fields sum to zero [normalizeMix] returns the
    fallback distribution, while the inline normalization divides by zero:
    none of the seven fields it returns is a finite number. *)
Theorem inline_normalization_is_unguarded :
  (forall (T : Type) (N : JsNumber T) (m : GenerationMixBreakdown T),
      (fold_left (fun a b => a + b) (values m) (num 0) <=? num 0)%js = false ->
      App.renormalize m = Mock.normalizeMix (allPresent m))
  /\ (forall m : GenerationMixBreakdown float,
        PrimFloat.eqb (sum7 m) 0 = true ->
        Mock.normalizeMix (allPresent m) = fallbackMix
        /\ Forall (fun v => PrimFloat.is_finite v = false) (values (App.renormalize m))).
Proof.
  split.
  - intros T N m Hpos. unfold App.renormalize, Mock.normalizeMix.
    cbn [allPresent nullish wind_opt solar_opt hydro_opt gas_opt coal_opt
         biomass_opt imports_opt].
    replace {| wind := wind m; solar := solar m; hydro := hydro m; gas := gas m;
               coal := coal m; biomass := biomass m; imports := imports m |}
      with m by now destruct m.
    rewrite Hpos. reflexivity.
  - intros m Hz. split.
    + rewrite normalizeMix_total.
      replace (withDefaults (allPresent m)) with m by now destruct m.
      destruct (B64Order.eqb_leb _ _ Hz) as [Hle _]. now rewrite Hle.
    + unfold App.renormalize, values, keys. cbn [map get wind solar hydro gas coal
        biomass imports].
      change (fold_left (fun sum val => (sum + val)%js)
                (map (fun k => get k m) [Wind; Solar; Hydro; Gas; Coal; Biomass; Imports])
                (num 0)) with (sum7 m).
      repeat constructor; now apply div_by_zero.
Qed.

Lemma inline_normalization_is_unguarded_witness :
  App.renormalize evenMix = Mock.normalizeMix (allPresent evenMix)
  /\ Mock.normalizeMix (allPresent zeroMix) = fallbackMix
  /\ Forall (fun v => PrimFloat.is_finite v = false) (values (App.renormalize zeroMix)).
Proof.
  split.
  - apply (proj1 inline_normalization_is_unguarded float B64Number evenMix). reflexivity.
  - apply (proj2 inline_normalization_is_unguarded zeroMix). reflexivity.
Defined.

(** ** The series and the charts *)

Lemma mock_series_paired {T} `{JsNumber T} `{JsMath T} tza now range :
  let s := Mock.generateMockSeries (T := T) tza now range in
  intensity s
  = map (fun p => {| ci_timestamp := gm_timestamp p;
                     gramsCO2PerKWh := Mock.computeIntensity (mix p) |})
        (generation s).
Proof.
  cbv zeta. unfold Mock.generateMockSeries, for_upto, Mock.body.
  rewrite for_from_push2. cbn [intensity generation app].
  rewrite map_map. reflexivity.
Qed.

Lemma eirgrid_series_paired {T} `{JsNumber T} `{JsMath T} tza now range :
  exists s : Series T,
    Eirgrid.fetchRealEirGridData tza now range = Ok s
    /\ intensity s
       = map (fun p => {| ci_timestamp := gm_timestamp p;
                          gramsCO2PerKWh := Eirgrid.computeIntensity (mix p) |})
             (generation s).
Proof.
  unfold Eirgrid.fetchRealEirGridData, Eirgrid.fetchEirGridData,
    Eirgrid.generateRealisticIrishData, for_upto.
  rewrite for_from_push. cbn [app].
  eexists. split; [reflexivity|].
  unfold Eirgrid.pushPoint. rewrite fold_left_push2.
  cbn [intensity generation app]. rewrite !map_map. reflexivity.
Qed.

(** X7: in the result of either generator the two series are paired: the
    intensity series is the generation series with each mix replaced by its
    [computeIntensity], so the two have the same length, the i-th points carry
    the same timestamp, and the i-th intensity is the intensity of the i-th
    mix (which the provider variants of [generateProviderSpecificData] do not
    keep). *)
Theorem series_points_are_paired :
  forall (T : Type) (N : JsNumber T) (M : JsMath T)
         (tza : Z -> Z) (now : Date) (range : DateRange),
    (let s := Mock.generateMockSeries tza now range in
     intensity s
     = map (fun p => {| ci_timestamp := gm_timestamp p;
                        gramsCO2PerKWh := Mock.computeIntensity (mix p) |})
           (generation s))
    /\ (exists s : Series T,
          Eirgrid.fetchRealEirGridData tza now range = Ok s
          /\ intensity s
             = map (fun p => {| ci_timestamp := gm_timestamp p;
                                gramsCO2PerKWh := Eirgrid.computeIntensity (mix p) |})
                   (generation s))
    /\ (let s := App.generateProviderSpecificData tza now MockOffline range in
        intensity s
        = map (fun p => {| ci_timestamp := gm_timestamp p;
                           gramsCO2PerKWh := Mock.computeIntensity (mix p) |})
              (generation s)).
Proof.
  intros T N M tza now range. split; [|split].
  - apply mock_series_paired.
  - apply eirgrid_series_paired.
  - apply mock_series_paired.
Qed.

(** *** What the application shows *)

Lemma plot_domain {Row : Type} (time : Row -> Z) (rows : list Row) :
  rows <> [] ->
  (match at_index rows 0 with
   | Some row => AxisAt (time row)
   | None => AxisDataMin
   end,
   match at_index rows (Z.of_nat (List.length rows) - 1) with
   | Some row => AxisAt (time row)
   | None => AxisDataMax
   end)
  = (AxisAt (nth 0 (map time rows) 0%Z),
     AxisAt (nth (List.length rows - 1) (map time rows) 0%Z)).
Proof.
  intros Hne.
  assert (Hlen : (0 < List.length rows)%nat).
  { destruct rows; [congruence | simpl; lia]. }
  assert (Hat : forall k, (k < List.length rows)%nat ->
            exists row, nth_error rows k = Some row
                        /\ nth k (map time rows) 0%Z = time row).
  { intros k Hk. destruct (nth_error rows k) as [row|] eqn:E.
    - exists row. split; [reflexivity|].
      apply nth_error_nth. now apply map_nth_error.
    - apply nth_error_None in E. lia. }
  unfold at_index.
  replace (Z.of_nat (List.length rows) - 1 <? 0)%Z with false
    by (symmetry; apply Z.ltb_ge; lia).
  replace (Z.to_nat (Z.of_nat (List.length rows) - 1)) with (List.length rows - 1)%nat by lia.
  cbn [Z.ltb Z.compare Z.to_nat].
  destruct (Hat 0%nat Hlen) as (r0 & -> & ->).
  destruct (Hat (List.length rows - 1)%nat ltac:(lia)) as (r1 & -> & ->).
  reflexivity.
Qed.

Lemma intensity_chart_plot {T} `{JsNumber T} (data : list (CarbonIntensityPoint T)) :
  data <> [] ->
  let ts := map (@ci_timestamp T) data in
  let rows := map (fun d => {| ir_time := getTime (ci_timestamp d);
                              ir_label := ci_timestamp d;
                              ir_ci := gramsCO2PerKWh d |}) data in
  Charts.CarbonIntensityChart (Some data)
  = Plot rows (AxisAt (nth 0 ts 0%Z), AxisAt (nth (List.length ts - 1) ts 0%Z))
  /\ map (@ir_time T) rows = ts.
Proof.
  intros Hne ts rows.
  assert (Hts : map (@ir_time T) rows = ts).
  { subst rows ts. rewrite map_map. reflexivity. }
  split; [|exact Hts].
  unfold Charts.CarbonIntensityChart.
  replace (Z.of_nat (List.length data) =? 0)%Z with false
    by (symmetry; apply Z.eqb_neq; destruct data; [congruence | simpl; lia]).
  fold rows. rewrite (plot_domain (@ir_time T) rows).
  - rewrite Hts. subst rows ts. rewrite !length_map. reflexivity.
  - subst rows. destruct data; [congruence | discriminate].
Qed.

Lemma generation_chart_plot {T} `{JsNumber T} (data : list (GenerationMixPoint T)) :
  data <> [] ->
  let ts := map (@gm_timestamp T) data in
  let rows := map Charts.emissionsRow data in
  Charts.GenerationMixChart (Some data)
  = Plot rows (AxisAt (nth 0 ts 0%Z), AxisAt (nth (List.length ts - 1) ts 0%Z))
  /\ map (@em_time T) rows = ts.
Proof.
  intros Hne ts rows.
  assert (Hts : map (@em_time T) rows = ts).
  { subst rows ts. rewrite map_map. reflexivity. }
  split; [|exact Hts].
  unfold Charts.GenerationMixChart.
  replace (Z.of_nat (List.length data) =? 0)%Z with false
    by (symmetry; apply Z.eqb_neq; destruct data; [congruence | simpl; lia]).
  fold rows. rewrite (plot_domain (@em_time T) rows).
  - rewrite Hts. subst rows ts. rewrite !length_map. reflexivity.
  - subst rows. destruct data; [congruence | discriminate].
Qed.

(** The state [fetchData] leaves: the series of the mock generator or of the
    realistic one, on the grid of the range, and paired. *)
Lemma fetchData_state {T} `{JsNumber T} `{JsMath T} tza now later provider range
    (st : AppState T) :
  let clock := match provider with ENTSOERealtime => later | _ => now end in
  let hours := Mock.getRangeHours range in
  let step := Mock.stepMinutesOf range in
  exists s : Series T,
    App.fetchData tza now later provider range st
    = {| data := Some s; loading := false;
         error := match provider with
                  | ENTSOERealtime => Some "ENTSO-E integration requires API key setup"%string
                  | _ => None
                  end |}
    /\ on_grid clock hours step (map (@ci_timestamp T) (intensity s))
    /\ on_grid clock hours step (map (@gm_timestamp T) (generation s))
    /\ intensity s
       = map (fun p => {| ci_timestamp := gm_timestamp p;
                          gramsCO2PerKWh := Mock.computeIntensity (mix p) |})
             (generation s).
Proof.
  intros clock hours step.
  assert (Hgrid : forall c, on_grid c hours step
            (map (fun i => addMinutes (subHours c hours) (i * step))
                 (zseq 0 (Z.to_nat (hours * 60 / step + 1))))).
  { intros c. apply grid_of_indices; subst hours step; destruct range; simpl; try lia;
      reflexivity. }
  assert (Hmock : forall c,
            let s := Mock.generateMockSeries (T := T) tza c range in
            on_grid c hours step (map (@ci_timestamp T) (intensity s))
            /\ on_grid c hours step (map (@gm_timestamp T) (generation s))
            /\ intensity s
               = map (fun p => {| ci_timestamp := gm_timestamp p;
                                  gramsCO2PerKWh := Mock.computeIntensity (mix p) |})
                     (generation s)).
  { intros c s. destruct (mock_timestamps (T := T) tza c range) as [Hi Hg].
    cbv zeta in Hi, Hg. subst s. rewrite Hi, Hg.
    split; [apply Hgrid|]. split; [apply Hgrid|]. apply mock_series_paired. }
  destruct provider; subst clock.
  - exists (Mock.generateMockSeries tza now range). split; [reflexivity|]. apply Hmock.
  - destruct (eirgrid_series (T := T) tza now range) as (s & Hs & Hi & Hg).
    destruct (eirgrid_series_paired (T := T) tza now range) as (s' & Hs' & Hpair).
    rewrite Hs in Hs'. injection Hs' as <-.
    exists s. split.
    + unfold App.fetchData, App.fetchResult. rewrite Hs. reflexivity.
    + replace (Eirgrid.getRangeHours range) with hours in Hi, Hg by now destruct range.
      replace (Eirgrid.stepMinutesOf range) with step in Hi, Hg by now destruct range.
      rewrite Hi, Hg. split; [apply Hgrid|]. split; [apply Hgrid|]. exact Hpair.
  - exists (Mock.generateMockSeries tza later range). split; [reflexivity|]. apply Hmock.
Qed.

Lemma on_grid_nonempty now hours step (ts : list Date) :
  (0 <= hours * 60 / step)%Z -> on_grid now hours step ts -> ts <> [].
Proof.
  intros Hp (Hlen & _) ->. simpl in Hlen. lia.
Qed.

Lemma range_points_nonneg range :
  (0 <= Mock.getRangeHours range * 60 / Mock.stepMinutesOf range)%Z.
Proof. destruct range; cbv; discriminate. Qed.

(** X8: whatever the provider, the range and the state before, once
    [fetchData] has run the application shows no loading box, shows the error
    box for the ENTSO-E provider only, and draws both charts, never a
    placeholder and never the "No data available" box: each chart has one row
    per point of the sampling grid of the range, and the domain of its X axis
    is exactly [[clock - hours, clock]], [clock] being the time at which the
    series was generated; recharts' ['dataMin'] and ['dataMax'] are never
    used. *)
Theorem app_draws_both_charts :
  forall (T : Type) (N : JsNumber T) (M : JsMath T)
         (tza : Z -> Z) (now later : Date) (provider : Provider) (range : DateRange)
         (st : AppState T),
    let view := App.main_content (App.fetchData tza now later provider range st) in
    let clock := match provider with ENTSOERealtime => later | _ => now end in
    let hours := Mock.getRangeHours range in
    let step := Mock.stepMinutesOf range in
    let domain := (AxisAt (clock - hours * 3600000), AxisAt clock) in
    App.loading_message view = false
    /\ App.error_message view
       = match provider with
         | ENTSOERealtime => Some "ENTSO-E integration requires API key setup"%string
         | _ => None
         end
    /\ (exists rows,
          App.intensity_card view = Some (App.Component (Plot rows domain))
          /\ on_grid clock hours step (map (@ir_time T) rows))
    /\ (exists rows,
          App.generation_card view = Some (App.Component (Plot rows domain))
          /\ on_grid clock hours step (map (@em_time T) rows)).
Proof.
  intros T N M tza now later provider range st view clock hours step domain.
  destruct (fetchData_state tza now later provider range st)
    as (s & Hst & Hi & Hg & _).
  fold clock hours step in Hi, Hg.
  pose proof (range_points_nonneg range) as Hp. fold hours step in Hp.
  assert (Hine : intensity s <> []).
  { intros E. apply (on_grid_nonempty _ _ _ _ Hp Hi). now rewrite E. }
  assert (Hgne : generation s <> []).
  { intros E. apply (on_grid_nonempty _ _ _ _ Hp Hg). now rewrite E. }
  subst view. rewrite Hst. unfold App.main_content.
  cbn [data loading error].
  split; [reflexivity|]. split; [now destruct provider|]. split.
  - destruct (intensity_chart_plot (intensity s) Hine) as [Hplot Hts].
    cbv zeta in Hplot, Hts.
    eexists. split.
    + replace (0 <? Z.of_nat (List.length (intensity s)))%Z with true
        by (symmetry; apply Z.ltb_lt; destruct (intensity s); [congruence | simpl; lia]).
      rewrite Hplot.
      destruct Hi as (_ & _ & Hfirst & Hlast & _). rewrite Hfirst, Hlast.
      reflexivity.
    + rewrite Hts. exact Hi.
  - destruct (generation_chart_plot (generation s) Hgne) as [Hplot Hts].
    cbv zeta in Hplot, Hts.
    eexists. split.
    + replace (0 <? Z.of_nat (List.length (generation s)))%Z with true
        by (symmetry; apply Z.ltb_lt; destruct (generation s); [congruence | simpl; lia]).
      rewrite Hplot.
      destruct Hg as (_ & _ & Hfirst & Hlast & _). rewrite Hfirst, Hlast.
      reflexivity.
    + rewrite Hts. exact Hg.
Qed.

(** X17: the provider variants of [generateProviderSpecificData] change the
    values only: for every provider, both series carry the timestamps of the
    mock series, point by point, so they cover the range on the same sampling
    grid, with [hours*60/step + 1] points from [now - hours] to [now]. *)
Theorem provider_variants_keep_the_grid :
  forall (T : Type) (N : JsNumber T) (M : JsMath T)
         (tza : Z -> Z) (now : Date) (provider : Provider) (range : DateRange),
    let s := App.generateProviderSpecificData tza now provider range in
    let base := Mock.generateMockSeries tza now range in
    let hours := Mock.getRangeHours range in
    let step := Mock.stepMinutesOf range in
    map (@ci_timestamp T) (intensity s) = map (@ci_timestamp T) (intensity base)
    /\ map (@gm_timestamp T) (generation s) = map (@gm_timestamp T) (generation base)
    /\ on_grid now hours step (map (@ci_timestamp T) (intensity s))
    /\ on_grid now hours step (map (@gm_timestamp T) (generation s)).
Proof.
  intros T N M tza now provider range s base hours step.
  assert (Hi : map (@ci_timestamp T) (intensity s)
               = map (@ci_timestamp T) (intensity base)).
  { subst s base. unfold App.generateProviderSpecificData.
    destruct provider; cbn [intensity]; rewrite ?map_map; reflexivity. }
  assert (Hg : map (@gm_timestamp T) (generation s)
               = map (@gm_timestamp T) (generation base)).
  { subst s base. unfold App.generateProviderSpecificData.
    destruct provider; cbn [generation]; rewrite ?map_map; reflexivity. }
  split; [exact Hi|]. split; [exact Hg|].
  rewrite Hi, Hg.
  destruct (mock_timestamps (T := T) tza now range) as [Hti Htg].
  cbv zeta in Hti, Htg. subst base. rewrite Hti, Htg.
  assert (Hgrid : on_grid now hours step
            (map (fun i => addMinutes (subHours now hours) (i * step))
                 (zseq 0 (Z.to_nat (hours * 60 / step + 1))))).
  { apply grid_of_indices; subst hours step; destruct range; simpl; try lia;
      reflexivity. }
  split; exact Hgrid.
Qed.

(** ** The two charts over binary64 *)

Lemma Forall2_map_same {A B C : Type} (R : B -> C -> Prop) (f : A -> B) (g : A -> C)
    (l : list A) :
  (forall x, R (f x) (g x)) -> Forall2 R (map f l) (map g l).
Proof.
  intros H. induction l as [|x l IH]; simpl; constructor; auto.
Qed.

(** X9: over binary64, for every host, provider, range and previous state,
    the two charts the application draws after [fetchData] are aligned: they
    have the same X domain, the same number of rows, the i-th rows carry the
    same time, and the total the emissions chart plots in a row is the carbon
    intensity the intensity chart plots in the row beside it (the same value,
    or [-0] beside [+0]). *)
Theorem charts_show_the_same_totals :
  forall (sinf cosf : float -> float) (tza : Z -> Z) (now later : Date)
         (provider : Provider) (range : DateRange) (st : AppState float),
    let view :=
      App.main_content
        (App.fetchData (H0 := B64Math sinf cosf) tza now later provider range st) in
    exists (intensityRows : list (IntensityRow float))
           (emissionsRows : list (EmissionsRow float))
           (domain : AxisBound * AxisBound),
      App.intensity_card view = Some (App.Component (Plot intensityRows domain))
      /\ App.generation_card view = Some (App.Component (Plot emissionsRows domain))
      /\ Forall2 (fun r e => ir_time r = em_time e
                             /\ upToZeroSign (ir_ci r) (em_total e))
                 intensityRows emissionsRows.
Proof.
  intros sinf cosf tza now later provider range st view.
  destruct (fetchData_state (H0 := B64Math sinf cosf) tza now later provider range st)
    as (s & Hst & Hi & Hg & Hpair).
  pose proof (range_points_nonneg range) as Hp.
  assert (Hine : intensity s <> []).
  { intros E. apply (on_grid_nonempty _ _ _ _ Hp Hi). now rewrite E. }
  assert (Hgne : generation s <> []).
  { intros E. apply (on_grid_nonempty _ _ _ _ Hp Hg). now rewrite E. }
  destruct (intensity_chart_plot (intensity s) Hine) as [HplotI _].
  destruct (generation_chart_plot (generation s) Hgne) as [HplotG _].
  cbv zeta in HplotI, HplotG.
  destruct Hi as (_ & _ & HfirstI & HlastI & _).
  destruct Hg as (_ & _ & HfirstG & HlastG & _).
  rewrite HfirstI, HlastI in HplotI. rewrite HfirstG, HlastG in HplotG.
  subst view. rewrite Hst. unfold App.main_content. cbn [data loading error].
  replace (0 <? Z.of_nat (List.length (intensity s)))%Z with true
    by (symmetry; apply Z.ltb_lt; destruct (intensity s); [congruence | simpl; lia]).
  replace (0 <? Z.of_nat (List.length (generation s)))%Z with true
    by (symmetry; apply Z.ltb_lt; destruct (generation s); [congruence | simpl; lia]).
  rewrite HplotI, HplotG.
  do 3 eexists. split; [reflexivity|]. split; [reflexivity|].
  rewrite Hpair, map_map. apply Forall2_map_same.
  intros p. cbn [ir_time ir_ci ci_timestamp gramsCO2PerKWh]. split.
  - reflexivity.
  - apply emissions_total_same.
Qed.

(** ** Further properties under every rounding *)

Section RoundedRange.
Local Open Scope R_scope.
Variables rndA rndM : R -> R.
Hypothesis HA : relative rndA.
Hypothesis HM : gradual rndM.
Local Notation "'NR'" := (Rounded rndA rndM).

Lemma exactIntensity_range m :
  nonneg m -> 12 * exactSum m <= exactIntensity m <= 900 * exactSum m.
Proof.
  intros (Hw & Hs & Hh & Hg & Hc & Hb & Hi). unfold exactIntensity, exactSum.
  split; lra.
Qed.

Lemma intensity_range m :
  normalized m -> (12 <= roundHalfUp (roundedIntensity rndA rndM m) <= 900)%Z.
Proof.
  intros [Hm Hsum].
  destruct (intensity_bounds rndA rndM HA HM 0 0 m m ltac:(lia) ltac:(lia) Hm
              (approxMix_refl 0 0 m Hm)) as [BL BH].
  cbv zeta in BL, BH.
  destruct (exactIntensity_range m Hm) as [EL EH].
  apply Rabs_le_both in Hsum.
  assert (T : / 10 ^ 300 <= 1 / 10) by lra.
  unfold roundHalfUp. split.
  - apply Zfloor_lub. lra.
  - pose proof (Zfloor_bound (roundedIntensity rndA rndM m + / 2)) as [Hf _].
    assert (Hlt : IZR (Zfloor (roundedIntensity rndA rndM m + / 2)) < IZR 901) by lra.
    apply lt_IZR in Hlt. lia.
Qed.

Lemma intensity_exact_value m (n : Z) :
  nonneg m -> exactIntensity m = IZR n -> (0 <= n <= 1000)%Z ->
  Mock.computeIntensity (H := NR) m = IZR n.
Proof.
  intros Hm HE Hn.
  destruct (intensity_bounds rndA rndM HA HM 0 0 m m ltac:(lia) ltac:(lia) Hm
              (approxMix_refl 0 0 m Hm)) as [BL BH].
  cbv zeta in BL, BH. rewrite HE in BL, BH.
  assert (T : / 10 ^ 300 <= 1 / 10) by lra.
  assert (H0 : 0 <= IZR n) by (apply IZR_le; lia).
  assert (H1 : IZR n <= 1000) by (apply IZR_le; lia).
  rewrite (computeIntensity_rounded rndA rndM).
  f_equal. unfold roundHalfUp. apply Zfloor_eq. lra.
Qed.

End RoundedRange.

(** X10: the intensity of a normalized mix (non-negative fields that sum to
    1 within 1e-9) is an integer from 12 to 900, the smallest and the largest
    emission factor, under every rounding that behaves as binary64 does when
    nothing overflows; both ends are reached: a mix that is all wind has
    intensity 12, a mix that is all coal has intensity 900. *)
Theorem intensity_between_12_and_900 :
  forall rndA rndM : R -> R, rounding rndA rndM ->
    (forall m : GenerationMixBreakdown R, normalized m ->
       exists n : Z,
         (12 <= n <= 900)%Z
         /\ Mock.computeIntensity (H := Rounded rndA rndM) m = IZR n)
    /\ Mock.computeIntensity (H := Rounded rndA rndM) windOnly = 12%R
    /\ Mock.computeIntensity (H := Rounded rndA rndM) coalOnly = 900%R.
Proof.
  intros rndA rndM [HA HM]. split; [|split].
  - intros m Hm. exists (roundHalfUp (roundedIntensity rndA rndM m)).
    split; [now apply intensity_range|]. apply computeIntensity_rounded.
  - apply (intensity_exact_value rndA rndM HA HM windOnly 12).
    + unfold nonneg, windOnly. simpl. repeat split; lra.
    + unfold exactIntensity, windOnly. simpl. lra.
    + lia.
  - apply (intensity_exact_value rndA rndM HA HM coalOnly 900).
    + unfold nonneg, coalOnly. simpl. repeat split; lra.
    + unfold exactIntensity, coalOnly. simpl. lra.
    + lia.
Qed.

Lemma intensity_between_12_and_900_witness :
  exists n : Z,
    (12 <= n <= 900)%Z
    /\ Mock.computeIntensity (H := Rounded inflate inflateM) quarterMixR = IZR n.
Proof.
  apply (proj1 (intensity_between_12_and_900 inflate inflateM inflate_rounding)).
  unfold normalized, nonneg, exactSum, quarterMixR. simpl.
  split; [repeat split; lra|].
  replace (1 / 4 + 1 / 2 + 1 / 4 + 0 + 0 + 0 + 0 - 1)%R with 0%R by lra.
  rewrite Rabs_R0. lra.
Defined.

(** ** The generators under every rounding *)

Section RoundedGenerators.
Local Open Scope R_scope.
Variables rndA rndM : R -> R.
Hypothesis HA : relative rndA.
Hypothesis HM : gradual rndM.
Variables sinR cosR : R -> R.
Hypothesis Hsin : sin_bounded sinR.
Local Notation "'NR'" := (Rounded rndA rndM).
Local Notation "'MR'" := (RoundedMath rndA sinR cosR).

Lemma literal_nonneg (c : Q) : 0 <= Q2R c -> 0 <= rndA (Q2R c).
Proof. apply (rnd_nonneg rndA HA). Qed.

Lemma literal_pos (c : Q) : 0 < Q2R c -> 0 < rndA (Q2R c).
Proof.
  intros Hc. pose proof (rnd_bounds rndA HA (Q2R c) (Rlt_le _ _ Hc)) as [Hl _].
  pose proof u_lt_1. apply Rlt_le_trans with (Q2R c * (1 - u)); [|exact Hl].
  apply Rmult_lt_0_compat; lra.
Qed.

(** [a + b * sin(x)] with [2 b <= a]: the sum stays non-negative. *)
Lemma offset_sine_nonneg (a b : Q) (x : R) :
  1 / 100 <= Q2R a -> 0 <= Q2R b -> 2 * Q2R b <= Q2R a ->
  0 <= rndA (rndA (Q2R a) + rndM (rndA (Q2R b) * sinR x)).
Proof.
  intros Ha Hb Hab.
  apply (rnd_nonneg rndA HA).
  pose proof (rnd_bounds rndA HA (Q2R a) ltac:(lra)) as [Al _].
  pose proof (rnd_bounds rndA HA (Q2R b) Hb) as [Bl Bh].
  destruct (Hsin x) as [Sl Sh].
  destruct HM as [Hg _].
  pose proof (Hg (rndA (Q2R b) * sinR x)) as G.
  pose proof u_pos. pose proof u_lt_1.
  assert (Hu : u <= 1 / 1000) by (unfold u; lra).
  assert (He : eta <= 1 / 100000) by (unfold eta; lra).
  assert (Hrb : 0 <= rndA (Q2R b)) by now apply literal_nonneg.
  set (rb := rndA (Q2R b)) in *.
  set (y := rb * sinR x) in *.
  assert (Hy : Rabs y <= rb).
  { apply Rabs_le. subst y. split; nra. }
  apply Rabs_le_both in G.
  assert (Hyl : - rb <= y) by (apply Rabs_le_both in Hy; lra).
  assert (Hlow : - rb - u * rb - eta <= rndM y).
  { assert (u * Rabs y <= u * rb) by (apply Rmult_le_compat_l; lra). lra. }
  nra.
Qed.

Lemma clamp_ge_min (value min max : R) : min <= Mock.clamp (H := NR) value min max.
Proof. unfold Mock.clamp. apply Rmax_l. Qed.

(** A raw mix with all its fields present, none negative, and a positive
    wind share. *)
Lemma raw_positive (w s h g c b i : R) :
  0 < w -> 0 <= s -> 0 <= h -> 0 <= g -> 0 <= c -> 0 <= b -> 0 <= i ->
  let raw := {| wind_opt := Some w; solar_opt := Some s; hydro_opt := Some h;
                gas_opt := Some g; coal_opt := Some c; biomass_opt := Some b;
                imports_opt := Some i |} in
  nonnegRaw raw /\ 0 < exactSum (baseOf (H := NR) raw).
Proof.
  intros Hw Hs Hh Hg Hc Hb Hi raw. subst raw. split.
  - unfold nonnegRaw. cbn [nonnegField wind_opt solar_opt hydro_opt gas_opt coal_opt
      biomass_opt imports_opt].
    repeat split; try assumption; lra.
  - unfold exactSum, baseOf. cbn [nullish wind solar hydro gas coal biomass imports
      wind_opt solar_opt hydro_opt gas_opt coal_opt biomass_opt imports_opt].
    lra.
Qed.

(** The raw mix of one iteration of the mock generator. *)
Lemma mock_raw_positive (points i : Z) (h : R) :
  let raw := Mock.rawMix (H := NR) (H0 := MR) points i h in
  nonnegRaw raw /\ 0 < exactSum (baseOf (H := NR) raw).
Proof.
  unfold Mock.rawMix. cbv zeta. apply raw_positive.
  - unfold Mock.windAt. eapply Rlt_le_trans; [|apply clamp_ge_min].
    apply literal_pos. unfold Q2R. simpl. lra.
  - unfold Mock.solarAt. eapply Rle_trans; [|apply clamp_ge_min].
    apply literal_nonneg. unfold Q2R. simpl. lra.
  - apply (offset_sine_nonneg 0.05 0.02); unfold Q2R; simpl; lra.
  - unfold Mock.gasAt. eapply Rle_trans; [|apply clamp_ge_min].
    apply literal_nonneg. unfold Q2R. simpl. lra.
  - apply (offset_sine_nonneg 0.04 0.01); unfold Q2R; simpl; lra.
  - apply literal_nonneg. unfold Q2R. simpl. lra.
  - eapply Rle_trans; [|apply clamp_ge_min].
    apply literal_nonneg. unfold Q2R. simpl. lra.
Qed.

(** The raw data point of one iteration of the realistic generator. *)
Lemma eirgrid_raw_positive (tza : Z -> Z) (startDate : Date) (stepMinutes points i : Z) :
  let raw := rawOf (Eirgrid.dataPoint (H := NR) (H0 := MR) tza startDate stepMinutes
                      points i) in
  nonnegRaw raw /\ 0 < exactSum (baseOf (H := NR) raw).
Proof.
  unfold rawOf, Eirgrid.dataPoint. cbv zeta.
  cbn [eg_wind eg_solar eg_hydro eg_gas eg_coal eg_biomass eg_imports].
  apply raw_positive.
  - unfold Eirgrid.windAt. eapply Rlt_le_trans; [|apply Rmax_l].
    apply literal_pos. unfold Q2R. simpl. lra.
  - unfold Eirgrid.solarAt. eapply Rle_trans; [|apply Rmax_l].
    apply literal_nonneg. unfold Q2R. simpl. lra.
  - apply (offset_sine_nonneg 0.08 0.03); unfold Q2R; simpl; lra.
  - unfold Eirgrid.gasAt. eapply Rle_trans; [|apply Rmax_l].
    apply literal_nonneg. unfold Q2R. simpl. lra.
  - apply (offset_sine_nonneg 0.02 0.01); unfold Q2R; simpl; lra.
  - apply literal_nonneg. unfold Q2R. simpl. lra.
  - eapply Rle_trans; [|apply Rmax_l].
    apply literal_nonneg. unfold Q2R. simpl. lra.
Qed.

(** The normalizer on a raw mix of non-negative fields and positive sum: the
    division branch, and a distribution. *)
Lemma normalize_positive raw :
  nonnegRaw raw -> 0 < exactSum (baseOf (H := NR) raw) ->
  let total := roundedSum rndA (baseOf (H := NR) raw) in
  0 < total
  /\ Mock.normalizeMix (H := NR) raw = mapMix (fun v => rndM (v / total)) (baseOf (H := NR) raw)
  /\ isDistribution rndA (Mock.normalizeMix (H := NR) raw).
Proof.
  intros Hraw Hpos total.
  pose proof (baseOf_nonneg rndA rndM HA raw Hraw) as Hb.
  destruct (divide_approx rndA rndM HA HM _ Hb Hpos) as (Ht & _).
  fold total in Ht.
  split; [exact Ht|]. split.
  - rewrite (normalizeMix_rounded rndA rndM HA). fold total. unfold Rle_bool.
    destruct (Rle_dec total 0) as [Hle|_]; [lra | reflexivity].
  - now apply (normalize_distribution rndA rndM HA HM).
Qed.

End RoundedGenerators.

Lemma eirgrid_generation_points {T} `{JsNumber T} `{JsMath T} tza now range
    (s : Series T) (point : GenerationMixPoint T) :
  Eirgrid.fetchRealEirGridData tza now range = Ok s ->
  In point (generation s) ->
  exists i : Z,
    mix point
    = Eirgrid.normalizeMix
        (rawOf (Eirgrid.dataPoint tza (subHours now (Eirgrid.getRangeHours range))
                  (Eirgrid.stepMinutesOf range)
                  (Eirgrid.getRangeHours range * 60 / Eirgrid.stepMinutesOf range) i)).
Proof.
  unfold Eirgrid.fetchRealEirGridData, Eirgrid.fetchEirGridData,
    Eirgrid.generateRealisticIrishData, for_upto.
  rewrite for_from_push. cbn [app].
  unfold Eirgrid.pushPoint. rewrite fold_left_push2.
  intros Hs. injection Hs as <-. cbn [generation app].
  rewrite map_map. intros Hin. apply in_map_iff in Hin.
  destruct Hin as (i & <- & _). exists i. reflexivity.
Qed.

Lemma sin_is_bounded : sin_bounded sin.
Proof. exact SIN_bound. Qed.

(** X11: on the raw mix of every iteration of either generator
    [normalizeMix] takes the division branch, never the fallback: for every
    index and every time of day the seven raw shares are non-negative, their
    total as the program adds it is positive, and the published mix is each
    raw share divided by that total; under every rounding that behaves as
    binary64 does when nothing overflows, for every host whose [Math.sin]
    stays in [[-1, 1]]. *)
Theorem generators_never_fall_back :
  forall rndA rndM : R -> R, rounding rndA rndM ->
  forall sinR cosR : R -> R, sin_bounded sinR ->
    (forall (points i : Z) (h : R),
        let raw := Mock.rawMix (H := Rounded rndA rndM)
                     (H0 := RoundedMath rndA sinR cosR) points i h in
        let total := roundedSum rndA (baseOf (H := Rounded rndA rndM) raw) in
        nonnegRaw raw
        /\ (0 < total)%R
        /\ Mock.normalizeMix (H := Rounded rndA rndM) raw
           = mapMix (fun v => rndM (v / total)%R) (baseOf (H := Rounded rndA rndM) raw))
    /\ (forall (tza : Z -> Z) (startDate : Date) (stepMinutes points i : Z),
          let point := Eirgrid.dataPoint (H := Rounded rndA rndM)
                         (H0 := RoundedMath rndA sinR cosR)
                         tza startDate stepMinutes points i in
          let total := roundedSum rndA (baseOf (H := Rounded rndA rndM) (rawOf point)) in
          nonnegRaw (rawOf point)
          /\ (0 < total)%R
          /\ (forall acc : Series R,
                generation (Eirgrid.pushPoint (H := Rounded rndA rndM) acc point)
                = generation acc
                  ++ [{| gm_timestamp := newDateOf (eg_timestamp point);
                         mix := mapMix (fun v => rndM (v / total)%R)
                                  (baseOf (H := Rounded rndA rndM) (rawOf point)) |}])).
Proof.
  intros rndA rndM [HA HM] sinR cosR Hsin. split.
  - intros points i h raw total.
    destruct (mock_raw_positive rndA rndM HA HM sinR cosR Hsin points i h) as [Hn Hp].
    destruct (normalize_positive rndA rndM HA HM _ Hn Hp) as (Ht & Hmix & _).
    split; [exact Hn|]. split; [exact Ht | exact Hmix].
  - intros tza startDate stepMinutes points i point total.
    destruct (eirgrid_raw_positive rndA rndM HA HM sinR cosR Hsin
                tza startDate stepMinutes points i) as [Hn Hp].
    destruct (normalize_positive rndA rndM HA HM _ Hn Hp) as (Ht & Hmix & _).
    split; [exact Hn|]. split; [exact Ht|].
    intros acc. unfold Eirgrid.pushPoint. cbn [generation].
    do 3 f_equal. exact Hmix.
Qed.

Lemma generators_never_fall_back_witness :
  let raw := Mock.rawMix (H := Rounded unrounded unrounded)
               (H0 := RoundedMath unrounded sin cos) 96 7 (41 / 4)%R in
  nonnegRaw raw
  /\ (0 < roundedSum unrounded (baseOf (H := Rounded unrounded unrounded) raw))%R.
Proof.
  intros raw.
  destruct (proj1 (generators_never_fall_back unrounded unrounded unrounded_rounding
                     sin cos sin_is_bounded) 96%Z 7%Z (41 / 4)%R) as (Hn & Ht & _).
  split; [exact Hn | exact Ht].
Defined.

Section PublishedRange.
Local Open Scope R_scope.
Variables rndA rndM : R -> R.
Hypothesis HA : relative rndA.
Hypothesis HM : gradual rndM.
Variables sinR cosR : R -> R.
Hypothesis Hsin : sin_bounded sinR.
Local Notation "'NR'" := (Rounded rndA rndM).
Local Notation "'MR'" := (RoundedMath rndA sinR cosR).

Lemma paired_intensity_range (s : Series R) :
  intensity s
  = map (fun p => {| ci_timestamp := gm_timestamp p;
                     gramsCO2PerKWh := Mock.computeIntensity (H := NR) (mix p) |})
        (generation s) ->
  (forall p, In p (generation s) -> isDistribution rndA (mix p)) ->
  forall p, In p (intensity s) ->
    exists n : Z, (12 <= n <= 900)%Z /\ gramsCO2PerKWh p = IZR n.
Proof.
  intros Hpair Hdist p Hin. rewrite Hpair in Hin. apply in_map_iff in Hin.
  destruct Hin as (g & <- & Hg). cbn [gramsCO2PerKWh].
  destruct (Hdist g Hg) as [Hnorm _].
  exists (roundHalfUp (roundedIntensity rndA rndM (mix g))).
  split; [now apply (intensity_range rndA rndM HA HM)|].
  apply computeIntensity_rounded.
Qed.

Lemma mock_published_range tza now range :
  let s := Mock.generateMockSeries (H := NR) (H0 := MR) tza now range in
  (forall p, In p (generation s) -> isDistribution rndA (mix p))
  /\ (forall p, In p (intensity s) ->
        exists n : Z, (12 <= n <= 900)%Z /\ gramsCO2PerKWh p = IZR n).
Proof.
  intros s.
  assert (Hdist : forall p, In p (generation s) -> isDistribution rndA (mix p)).
  { intros p Hin.
    destruct (mock_generation_points tza now range p Hin) as (i & _ & _ & Hmix).
    cbv zeta in Hmix. rewrite Hmix.
    destruct (mock_raw_positive rndA rndM HA HM sinR cosR Hsin
                (Mock.getRangeHours range * 60 / Mock.stepMinutesOf range) i
                (Mock.hourOfDay (H := NR) tza (gm_timestamp p))) as [Hn Hp].
    now apply (normalize_distribution rndA rndM HA HM). }
  split; [exact Hdist|].
  apply paired_intensity_range; [|exact Hdist].
  apply (mock_series_paired (H := NR) (H0 := MR)).
Qed.

Lemma eirgrid_published_range tza now range (s : Series R) :
  Eirgrid.fetchRealEirGridData (H := NR) (H0 := MR) tza now range = Ok s ->
  (forall p, In p (generation s) -> isDistribution rndA (mix p))
  /\ (forall p, In p (intensity s) ->
        exists n : Z, (12 <= n <= 900)%Z /\ gramsCO2PerKWh p = IZR n).
Proof.
  intros Hs.
  assert (Hdist : forall p, In p (generation s) -> isDistribution rndA (mix p)).
  { intros p Hin.
    destruct (eirgrid_generation_points tza now range s p Hs Hin) as (i & Hmix).
    rewrite Hmix.
    destruct (eirgrid_raw_positive rndA rndM HA HM sinR cosR Hsin tza
                (subHours now (Eirgrid.getRangeHours range))
                (Eirgrid.stepMinutesOf range)
                (Eirgrid.getRangeHours range * 60 / Eirgrid.stepMinutesOf range) i)
      as [Hn Hp].
    now apply (normalize_distribution rndA rndM HA HM). }
  split; [exact Hdist|].
  apply paired_intensity_range; [|exact Hdist].
  destruct (eirgrid_series_paired (H := NR) (H0 := MR) tza now range)
    as (s' & Hs' & Hpair).
  rewrite Hs in Hs'. injection Hs' as <-. exact Hpair.
Qed.

End PublishedRange.

(** X12: every mix either generator publishes is a distribution (none of its
    seven shares is negative and they sum to 1 within 1e-9, in exact
    arithmetic and as the program adds them), and every intensity either
    generator publishes is an integer from 12 to 900; for the three ranges, at
    any time and in any time zone, under every rounding that behaves as
    binary64 does when nothing overflows, for every host whose [Math.sin]
    stays in [[-1, 1]]. *)
Theorem published_values_are_in_range :
  forall rndA rndM : R -> R, rounding rndA rndM ->
  forall sinR cosR : R -> R, sin_bounded sinR ->
  forall (tza : Z -> Z) (now : Date) (range : DateRange) (s : Series R),
    s = Mock.generateMockSeries (H := Rounded rndA rndM)
          (H0 := RoundedMath rndA sinR cosR) tza now range
    \/ Eirgrid.fetchRealEirGridData (H := Rounded rndA rndM)
         (H0 := RoundedMath rndA sinR cosR) tza now range = Ok s ->
    Forall (fun p => isDistribution rndA (mix p)) (generation s)
    /\ Forall (fun p => exists n : Z, (12 <= n <= 900)%Z /\ gramsCO2PerKWh p = IZR n)
              (intensity s).
Proof.
  intros rndA rndM [HA HM] sinR cosR Hsin tza now range s Hs.
  rewrite !Forall_forall.
  destruct Hs as [-> | Hs].
  - apply (mock_published_range rndA rndM HA HM sinR cosR Hsin).
  - now apply (eirgrid_published_range rndA rndM HA HM sinR cosR Hsin tza now range).
Qed.

Lemma published_values_are_in_range_witness :
  let s := Mock.generateMockSeries (H := Rounded unrounded unrounded)
             (H0 := RoundedMath unrounded sin cos) utc exampleNow Range24h in
  Forall (fun p => isDistribution unrounded (mix p)) (generation s)
  /\ Forall (fun p => exists n : Z, (12 <= n <= 900)%Z /\ gramsCO2PerKWh p = IZR n)
            (intensity s).
Proof.
  intros s.
  apply (published_values_are_in_range unrounded unrounded unrounded_rounding
           sin cos sin_is_bounded utc exampleNow Range24h s).
  left. reflexivity.
Defined.

(** ** Normalizing twice *)

Lemma baseOf_allPresent {T} `{JsNumber T} (m : GenerationMixBreakdown T) :
  baseOf (allPresent m) = m.
Proof. now destruct m. Qed.

Lemma allPresent_nonneg (m : GenerationMixBreakdown R) :
  nonneg m -> nonnegRaw (allPresent m).
Proof. intros H. exact H. Qed.

Section Idempotent.
Local Open Scope R_scope.
Variables rndA rndM : R -> R.
Hypothesis HA : relative rndA.
Hypothesis HM : gradual rndM.
Local Notation "'NR'" := (Rounded rndA rndM).

(** A share divided by a total that is 1 within 1e-9. *)
Lemma share_kept (v t : R) :
  0 <= v -> Rabs (t - 1) <= 1 / 1000000000 ->
  Rabs (rndM (v / t) - v) <= v * (2 / 1000000000) + eta.
Proof.
  intros Hv Ht. apply Rabs_le_both in Ht.
  assert (Htpos : 0 < t) by lra.
  assert (Hq : 0 <= v / t).
  { apply Rmult_le_pos; [exact Hv | apply Rlt_le, Rinv_0_lt_compat, Htpos]. }
  destruct (gradual_bounds rndM HM _ Hq) as [Gl Gh].
  assert (Hu : u <= 1 / 10000000000) by (unfold u; lra).
  pose proof u_pos.
  assert (Qh : v / t <= v * (1 + 11 / 10000000000)).
  { apply div_le; [exact Htpos|]. nra. }
  assert (Ql : v * (1 - 11 / 10000000000) <= v / t).
  { apply div_ge; [exact Htpos|]. nra. }
  apply Rabs_le. split; nra.
Qed.

Lemma normalize_again raw :
  nonnegRaw raw ->
  let out := Mock.normalizeMix (H := NR) raw in
  let again := Mock.normalizeMix (H := NR) (allPresent out) in
  isDistribution rndA again
  /\ forall k : Source,
       Rabs (get k again - get k out) <= get k out * (2 / 1000000000) + eta.
Proof.
  intros Hraw out again.
  pose proof (normalize_distribution rndA rndM HA HM raw Hraw) as Hd.
  fold out in Hd. destruct Hd as [[Hn Hs] Ht].
  assert (Hpos : 0 < exactSum (baseOf (H := NR) (allPresent out))).
  { rewrite baseOf_allPresent. apply Rabs_le_both in Hs. lra. }
  destruct (normalize_positive rndA rndM HA HM (allPresent out)
              (allPresent_nonneg out Hn) Hpos) as (_ & Hmix & Hdist).
  cbv zeta in Hmix. rewrite baseOf_allPresent in Hmix. fold again in Hmix, Hdist.
  split; [exact Hdist|].
  intros k. rewrite Hmix.
  destruct Hn as (Hw & Hso & Hh & Hg & Hc & Hb & Hi).
  destruct k; cbn [get mapMix wind solar hydro gas coal biomass imports];
    now apply share_kept.
Qed.

End Idempotent.

Lemma normalize_again_exact (raw : PartialMix R) :
  let out := Mock.normalizeMix (H := Rounded unrounded unrounded) raw in
  Mock.normalizeMix (H := Rounded unrounded unrounded) (allPresent out) = out.
Proof.
  intros out.
  pose proof (normalize_exact raw) as H1. fold out in H1.
  rewrite (normalizeMix_rounded unrounded unrounded unrounded_relative).
  rewrite baseOf_allPresent.
  assert (Ht : roundedSum unrounded out = 1%R).
  { rewrite (roundedSum_unfold unrounded unrounded_relative). unfold unrounded.
    unfold exactSum in H1. lra. }
  rewrite Ht. unfold Rle_bool. destruct (Rle_dec 1 0) as [Hle|_]; [lra|].
  destruct out as [w s h g c b i]. unfold mapMix, unrounded.
  cbn [wind solar hydro gas coal biomass imports].
  f_equal; field.
Qed.

(** X13: normalizing a normalized mix again leaves it as it is.  In exact
    arithmetic the second normalization returns its argument, for every raw
    mix; under every rounding that behaves as binary64 does when nothing
    overflows, for every raw mix of non-negative fields, it returns a
    distribution each share of which is the share it was given within two
    parts in a billion (and an underflow).  Over binary64 the fallback
    distribution is returned unchanged, while some mix the mock generator
    publishes on the example host comes back with other last digits. *)
Theorem normalizing_twice_changes_nothing :
  (forall raw : PartialMix R,
      let out := Mock.normalizeMix (H := Rounded unrounded unrounded) raw in
      Mock.normalizeMix (H := Rounded unrounded unrounded) (allPresent out) = out)
  /\ (forall rndA rndM : R -> R, rounding rndA rndM ->
      forall raw : PartialMix R, nonnegRaw raw ->
        let out := Mock.normalizeMix (H := Rounded rndA rndM) raw in
        let again := Mock.normalizeMix (H := Rounded rndA rndM) (allPresent out) in
        isDistribution rndA again
        /\ forall k : Source,
             (Rabs (get k again - get k out)
              <= get k out * (2 / 1000000000) + eta)%R)
  /\ Mock.normalizeMix (allPresent fallbackMix) = fallbackMix
  /\ exampleRenormalizationMoves = true.
Proof.
  split; [exact normalize_again_exact|]. split; [|split].
  - intros rndA rndM [HA HM] raw Hraw. now apply normalize_again.
  - reflexivity.
  - vm_compute. reflexivity.
Qed.

Lemma normalizing_twice_changes_nothing_witness :
  let out := Mock.normalizeMix (H := Rounded inflate inflateM) (allPresent exampleMixR) in
  let again := Mock.normalizeMix (H := Rounded inflate inflateM) (allPresent out) in
  isDistribution inflate again
  /\ forall k : Source,
       (Rabs (get k again - get k out) <= get k out * (2 / 1000000000) + eta)%R.
Proof.
  apply (proj1 (proj2 normalizing_twice_changes_nothing) inflate inflateM
           inflate_rounding (allPresent exampleMixR)).
  unfold nonnegRaw, allPresent, exampleMixR. simpl. repeat split; lra.
Defined.

(** ** Tick labels *)

Lemma addLeadingZeros_two (n : Z) :
  (0 <= n < 100)%Z -> addLeadingZeros n 2 = twoDigits n.
Proof.
  intros Hn.
  assert (Hall : forallb (fun n => String.eqb (addLeadingZeros n 2) (twoDigits n))
                   (zseq 0 100) = true) by (vm_compute; reflexivity).
  rewrite forallb_forall in Hall.
  apply String.eqb_eq. apply Hall. apply zseq_In. lia.
Qed.

Lemma getSeconds_range tza t : (0 <= getSeconds tza t < 60)%Z.
Proof. unfold getSeconds. apply Z.mod_pos_bound. lia. Qed.

Lemma digitChar_inj (d d' : Z) :
  (0 <= d < 10)%Z -> (0 <= d' < 10)%Z -> digitChar d = digitChar d' -> d = d'.
Proof.
  intros Hd Hd' E. unfold digitChar in E.
  apply (f_equal nat_of_ascii) in E.
  rewrite !nat_ascii_embedding in E by lia. lia.
Qed.

Lemma twoDigits_inj (n n' : Z) :
  (0 <= n < 100)%Z -> (0 <= n' < 100)%Z -> twoDigits n = twoDigits n' -> n = n'.
Proof.
  intros Hn Hn' E. unfold twoDigits in E. injection E as E1 E0.
  apply digitChar_inj in E1;
    [|split; [apply Z.div_pos; lia | apply Z.div_lt_upper_bound; lia]
     |split; [apply Z.div_pos; lia | apply Z.div_lt_upper_bound; lia]].
  apply digitChar_inj in E0; [|apply Z.mod_pos_bound; lia|apply Z.mod_pos_bound; lia].
  rewrite (Z.div_mod n 10), (Z.div_mod n' 10) by lia. lia.
Qed.

Lemma formatTickTime_label tza date :
  Mock.formatTickTime tza date = clockLabel (getHours tza date) (getMinutes tza date).
Proof.
  unfold Mock.formatTickTime, formatISO9075_time.
  pose proof (getHours_range tza date). pose proof (getMinutes_range tza date).
  pose proof (getSeconds_range tza date).
  rewrite !addLeadingZeros_two by lia.
  reflexivity.
Qed.

(** X14: [formatTickTime] returns the local time of day of its date as
    [HH:mm]: five characters, the two digits of the hour, a colon and the two
    digits of the minute, the seconds being cut off; two dates get the same
    label exactly when they read the same hour and minute on the clock; the
    copies in [mock.ts] and [eirgrid.ts] return the same label. *)
Theorem tick_label_is_clock_time :
  forall (tza : Z -> Z) (date : Date),
    Mock.formatTickTime tza date = clockLabel (getHours tza date) (getMinutes tza date)
    /\ String.length (Mock.formatTickTime tza date) = 5%nat
    /\ Eirgrid.formatTickTime tza date = Mock.formatTickTime tza date
    /\ (forall date' : Date,
          Mock.formatTickTime tza date = Mock.formatTickTime tza date'
          <-> getHours tza date = getHours tza date'
              /\ getMinutes tza date = getMinutes tza date').
Proof.
  intros tza date.
  split; [apply formatTickTime_label|].
  split; [rewrite formatTickTime_label; reflexivity|].
  split; [reflexivity|].
  intros date'. rewrite !formatTickTime_label.
  pose proof (getHours_range tza date). pose proof (getMinutes_range tza date).
  pose proof (getHours_range tza date'). pose proof (getMinutes_range tza date').
  split.
  - unfold clockLabel. intros E.
    assert (Hh : twoDigits (getHours tza date) = twoDigits (getHours tza date')).
    { unfold twoDigits in *. cbn [String.append] in E. injection E as E1 E2 E3 E4.
      now rewrite E1, E2. }
    assert (Hm : twoDigits (getMinutes tza date) = twoDigits (getMinutes tza date')).
    { unfold twoDigits in *. cbn [String.append] in E. injection E as E1 E2 E3 E4.
      now rewrite E3, E4. }
    split; apply twoDigits_inj; try assumption; lia.
  - intros [-> ->]. reflexivity.
Qed.

Lemma tick_label_is_clock_time_witness :
  Mock.formatTickTime utc exampleNow
  = Mock.formatTickTime utc (exampleNow + 86400000 + 30000).
Proof.
  apply (proj2 (proj2 (proj2 (tick_label_is_clock_time utc exampleNow)))
           (exampleNow + 86400000 + 30000)%Z).
  split; reflexivity.
Defined.

(** ** Clamps that never bind *)

Section IdleClamps.
Local Open Scope R_scope.
Variables rndA rndM : R -> R.
Hypothesis HA : relative rndA.
Hypothesis HM : gradual rndM.
Variables sinR cosR : R -> R.
Hypothesis Hsin : sin_bounded sinR.
Local Notation "'NR'" := (Rounded rndA rndM).
Local Notation "'MR'" := (RoundedMath rndA sinR cosR).

Lemma u_small : u <= 1 / 1000000.
Proof. unfold u. lra. Qed.

Lemma eta_small : eta <= 1 / 1000000.
Proof. unfold eta. lra. Qed.

(** A rounded literal is the literal within a millionth. *)
Lemma literal_near (c : Q) :
  0 <= Q2R c ->
  Q2R c * (1 - 1 / 1000000) <= rndA (Q2R c) <= Q2R c * (1 + 1 / 1000000).
Proof.
  intros Hc. destruct (rnd_bounds rndA HA _ Hc) as [Hl Hh].
  pose proof u_small. pose proof u_pos. split; nra.
Qed.

(** A rounded product of a value in [[-b, b]] with a factor in [[-1, 1]]. *)
Lemma product_near (v s b : R) :
  0 <= v <= b -> -1 <= s <= 1 -> b <= 1 ->
  - b - 3 / 1000000 <= rndM (v * s) <= b + 3 / 1000000.
Proof.
  intros Hv Hs Hb. destruct HM as [Hg _]. pose proof (Hg (v * s)) as G.
  apply Rabs_le_both in G.
  assert (Hy : Rabs (v * s) <= b).
  { apply Rabs_le. split; nra. }
  pose proof (Rabs_le_both _ _ Hy) as [Yl Yh].
  pose proof u_small. pose proof eta_small. pose proof u_pos. pose proof eta_pos.
  assert (u * Rabs (v * s) <= 1 / 1000000).
  { apply Rle_trans with (u * b); [apply Rmult_le_compat_l; lra | nra]. }
  split; lra.
Qed.

(** A rounded sum of two values of magnitude at most 1. *)
Lemma sum_near (x : R) :
  -2 <= x <= 2 -> x - 3 / 1000000 <= rndA x <= x + 3 / 1000000.
Proof.
  intros Hx. pose proof (HA x) as G. apply Rabs_le_both in G.
  assert (Habs : Rabs x <= 2) by (apply Rabs_le; lra).
  pose proof u_small. pose proof u_pos. pose proof (Rabs_pos x).
  assert (u * Rabs x <= 2 / 1000000) by nra.
  split; lra.
Qed.

Lemma mock_wind_unclamped (h : R) :
  Mock.windAt (H := NR) (H0 := MR) h = mockWindRaw (H := NR) (H0 := MR) h
  /\ 1499 / 10000 <= mockWindRaw (H := NR) (H0 := MR) h <= 5501 / 10000.
Proof.
  assert (Hw : 1499 / 10000 <= mockWindRaw (H := NR) (H0 := MR) h <= 5501 / 10000).
  { unfold mockWindRaw. cbn [add mul num Rounded].
    destruct (literal_near 0.35 ltac:(unfold Q2R; simpl; lra)) as [Al Ah].
    destruct (literal_near 0.2 ltac:(unfold Q2R; simpl; lra)) as [Bl Bh].
    replace (Q2R 0.35) with (35 / 100) in * by (unfold Q2R; simpl; lra).
    replace (Q2R 0.2) with (2 / 10) in * by (unfold Q2R; simpl; lra).
    pose proof (product_near (rndA (2 / 10)) (Mock.dayFactor (H := NR) (H0 := MR) h)
                  (2000003 / 10000000) ltac:(lra) (Hsin _) ltac:(lra)) as [Pl Ph].
    pose proof (sum_near (rndA (35 / 100)
                  + rndM (rndA (2 / 10) * Mock.dayFactor (H := NR) (H0 := MR) h))
                  ltac:(lra)) as [Sl Sh].
    lra. }
  split; [|exact Hw].
  unfold Mock.windAt, Mock.clamp.
  change (num (JsNumber := NR) 0.35 + num (JsNumber := NR) 0.2
          * Mock.dayFactor (H := NR) (H0 := MR) h)%js
    with (mockWindRaw (H := NR) (H0 := MR) h).
  cbn [Math_max Math_min Rounded num].
  destruct (literal_near 0.1 ltac:(unfold Q2R; simpl; lra)) as [Ll Lh].
  destruct (literal_near 0.75 ltac:(unfold Q2R; simpl; lra)) as [Ul Uh].
  replace (Q2R 0.1) with (1 / 10) in * by (unfold Q2R; simpl; lra).
  replace (Q2R 0.75) with (75 / 100) in * by (unfold Q2R; simpl; lra).
  rewrite Rmin_right by lra. rewrite Rmax_right by lra. reflexivity.
Qed.

Lemma solarBase_range (h : R) :
  0 <= Mock.solarBase (H := NR) (H0 := MR) h <= 1.
Proof.
  unfold Mock.solarBase. cbn [Math_max Rounded num].
  rewrite (num_zero rndA HA).
  cbn [Math_sin RoundedMath].
  split; [apply Rmax_l|]. apply Rmax_lub; [lra|]. apply Hsin.
Qed.

Lemma solar_unclamped (c hi : Q) (b : R) :
  0 <= Q2R c -> Q2R c * (1 + 1 / 1000000) + 4 / 1000000 <= Q2R hi ->
  Q2R hi <= 1 -> 0 <= b <= 1 ->
  Rmax (rndA (Q2R 0)) (Rmin (rndA (Q2R hi)) (rndM (rndA (Q2R c) * b)))
  = rndM (rndA (Q2R c) * b)
  /\ 0 <= rndM (rndA (Q2R c) * b) <= Q2R c + 4 / 1000000.
Proof.
  intros Hc Hhi Hhi1 Hb.
  destruct (literal_near c Hc) as [Cl Ch].
  assert (Hhi0 : 0 <= Q2R hi) by lra.
  destruct (literal_near hi Hhi0) as [Ul Uh].
  assert (Hpos : 0 <= rndM (rndA (Q2R c) * b)).
  { apply (gradual_nonneg rndM HM). apply Rmult_le_pos; [|lra].
    now apply (rnd_nonneg rndA HA). }
  assert (Hrc : 0 <= rndA (Q2R c)) by now apply (rnd_nonneg rndA HA).
  assert (Hy : 0 <= rndA (Q2R c) * b) by (apply Rmult_le_pos; lra).
  destruct (gradual_bounds rndM HM _ Hy) as [_ Gh].
  pose proof u_small. pose proof eta_small. pose proof u_pos.
  assert (Hle : rndA (Q2R c) * b <= rndA (Q2R c)) by nra.
  assert (Hc1 : Q2R c <= 1) by nra.
  assert (Hup : rndM (rndA (Q2R c) * b) <= Q2R c * (1 + 1 / 1000000) + 3 / 1000000)
    by nra.
  rewrite (num_zero rndA HA).
  split; [|split; [exact Hpos | nra]].
  rewrite Rmin_right by nra. rewrite Rmax_right by lra. reflexivity.
Qed.

End IdleClamps.

(** X15: in the mock generator the clamps on wind and on solar never change
    the value they are given, and neither does the clamp on solar in the
    realistic generator: the raw wind share is [0.35 + 0.2 * dayFactor], which
    stays within [[0.1499, 0.5501]], well inside the band [[0.1, 0.75]] of its
    clamp, and the raw solar shares are [0.18 * solarBase] and
    [0.12 * solarBase], at most 0.1801 and 0.1201; under every rounding that
    behaves as binary64 does when nothing overflows, for every host whose
    [Math.sin] stays in [[-1, 1]], and over binary64 on the example host at
    each of the 1440 clock readings. *)
Theorem wind_and_solar_clamps_never_bind :
  (forall rndA rndM : R -> R, rounding rndA rndM ->
   forall sinR cosR : R -> R, sin_bounded sinR ->
   forall h : R,
     (Mock.windAt (H := Rounded rndA rndM) (H0 := RoundedMath rndA sinR cosR) h
      = mockWindRaw (H := Rounded rndA rndM) (H0 := RoundedMath rndA sinR cosR) h
      /\ (1499 / 10000
          <= mockWindRaw (H := Rounded rndA rndM) (H0 := RoundedMath rndA sinR cosR) h
          <= 5501 / 10000)%R)
     /\ (Mock.solarAt (H := Rounded rndA rndM) (H0 := RoundedMath rndA sinR cosR) h
         = mockSolarRaw (H := Rounded rndA rndM) (H0 := RoundedMath rndA sinR cosR) h
         /\ (0 <= mockSolarRaw (H := Rounded rndA rndM)
                    (H0 := RoundedMath rndA sinR cosR) h
             <= 1801 / 10000)%R)
     /\ (Eirgrid.solarAt (H := Rounded rndA rndM) (H0 := RoundedMath rndA sinR cosR) h
         = eirgridSolarRaw (H := Rounded rndA rndM) (H0 := RoundedMath rndA sinR cosR) h
         /\ (0 <= eirgridSolarRaw (H := Rounded rndA rndM)
                    (H0 := RoundedMath rndA sinR cosR) h
             <= 1201 / 10000)%R))
  /\ exampleClampsIdle = true.
Proof.
  split; [|vm_compute; reflexivity].
  intros rndA rndM [HA HM] sinR cosR Hsin h.
  pose proof (solarBase_range rndA rndM HA sinR cosR Hsin h) as Hb.
  split; [|split].
  - apply (mock_wind_unclamped rndA rndM HA HM sinR cosR Hsin).
  - destruct (solar_unclamped rndA rndM HA HM 0.18 0.25 _
                ltac:(unfold Q2R; simpl; lra) ltac:(unfold Q2R; simpl; lra)
                ltac:(unfold Q2R; simpl; lra) Hb) as [He Hr].
    split; [exact He|].
    assert (Hq : Q2R 0.18 = (18 / 100)%R) by (unfold Q2R; simpl; lra).
    unfold mockSolarRaw. cbn [mul num Rounded]. lra.
  - destruct (solar_unclamped rndA rndM HA HM 0.12 0.15 _
                ltac:(unfold Q2R; simpl; lra) ltac:(unfold Q2R; simpl; lra)
                ltac:(unfold Q2R; simpl; lra) Hb) as [He Hr].
    split; [exact He|].
    assert (Hq : Q2R 0.12 = (12 / 100)%R) by (unfold Q2R; simpl; lra).
    unfold eirgridSolarRaw. cbn [mul num Rounded].
    change (Eirgrid.solarBase (H := Rounded rndA rndM)
              (H0 := RoundedMath rndA sinR cosR) h)
      with (Mock.solarBase (H := Rounded rndA rndM)
              (H0 := RoundedMath rndA sinR cosR) h).
    lra.
Qed.

Lemma wind_and_solar_clamps_never_bind_witness :
  Mock.windAt (H := Rounded unrounded unrounded) (H0 := RoundedMath unrounded sin cos)
    (41 / 4)%R
  = mockWindRaw (H := Rounded unrounded unrounded) (H0 := RoundedMath unrounded sin cos)
      (41 / 4)%R.
Proof.
  apply (proj1 wind_and_solar_clamps_never_bind unrounded unrounded unrounded_rounding
           sin cos sin_is_bounded (41 / 4)%R).
Defined.

(** ** The text of a timestamp *)

Ltac div_lia := Z.div_mod_to_equations; lia.

Module ISOFacts.
Import ISO.

Lemma DayFromYear_step (y : Z) : DayFromYear (y + 1) = DayFromYear y + DaysInYear y.
Proof.
  unfold DayFromYear, DaysInYear.
  destruct (Z.eqb_spec (y mod 4) 0); cbn [negb];
    [destruct (Z.eqb_spec (y mod 100) 0); cbn [negb];
       [destruct (Z.eqb_spec (y mod 400) 0); cbn [negb]|]|]; div_lia.
Qed.

Lemma DaysInYear_cases (y : Z) : DaysInYear y = 365 \/ DaysInYear y = 366.
Proof.
  unfold DaysInYear.
  destruct (y mod 4 =? 0), (y mod 100 =? 0), (y mod 400 =? 0); simpl; auto.
Qed.

Lemma YearFromTime_spec (t : Z) :
  DayFromYear (YearFromTime t) <= Day t < DayFromYear (YearFromTime t + 1).
Proof.
  unfold YearFromTime. set (d := Day t). cbv zeta.
  set (y := 1970 + 400 * d / 146097).
  assert (Hlow : DayFromYear (y - 1) <= d).
  { unfold DayFromYear. subst y. div_lia. }
  assert (Hhigh : d < DayFromYear (y + 2)).
  { unfold DayFromYear. subst y. div_lia. }
  destruct (Z.ltb_spec d (DayFromYear y)) as [H1|H1].
  - replace (y - 1 + 1) with y by lia. lia.
  - destruct (Z.leb_spec (DayFromYear (y + 1)) d) as [H2|H2].
    + replace (y + 1 + 1) with (y + 2) by lia. lia.
    + lia.
Qed.

(** [YearFromTime(t)] is the largest [y] with [TimeFromYear(y) <= t]. *)
Lemma DayFromYear_mono (y y' : Z) : y <= y' -> DayFromYear y <= DayFromYear y'.
Proof. unfold DayFromYear. intros H. div_lia. Qed.

Lemma YearFromTime_largest (t y : Z) :
  TimeFromYear y <= t <-> y <= YearFromTime t.
Proof.
  pose proof (YearFromTime_spec t) as [Hl Hh].
  unfold TimeFromYear, Day, msPerDay in *. split.
  - intros H. destruct (Z.le_gt_cases y (YearFromTime t)) as [|Hgt]; [assumption|].
    pose proof (DayFromYear_mono (YearFromTime t + 1) y ltac:(lia)).
    div_lia.
  - intros H. pose proof (DayFromYear_mono y (YearFromTime t) H). div_lia.
Qed.

Lemma DayWithinYear_range (t : Z) :
  0 <= DayWithinYear t < DaysInYear (YearFromTime t).
Proof.
  unfold DayWithinYear. pose proof (YearFromTime_spec t) as [Hl Hh].
  rewrite DayFromYear_step in Hh. lia.
Qed.

Lemma InLeapYear_days (t : Z) : DaysInYear (YearFromTime t) = 365 + InLeapYear t.
Proof.
  unfold InLeapYear. destruct (DaysInYear_cases (YearFromTime t)) as [-> | ->]; reflexivity.
Qed.

Lemma MonthFromTime_range (t : Z) : 0 <= MonthFromTime t <= 11.
Proof.
  unfold MonthFromTime. cbv zeta.
  repeat match goal with |- context [if ?c then _ else _] => destruct c end; lia.
Qed.

Lemma month_date (t : Z) :
  daysBeforeMonth (MonthFromTime t) (InLeapYear t) + DateFromTime t - 1 = DayWithinYear t
  /\ 1 <= DateFromTime t <= 31.
Proof.
  pose proof (DayWithinYear_range t) as Hr. rewrite InLeapYear_days in Hr.
  assert (Hl : InLeapYear t = 0 \/ InLeapYear t = 1).
  { unfold InLeapYear. destruct (_ =? _); auto. }
  unfold DateFromTime, MonthFromTime. cbv zeta.
  set (d := DayWithinYear t) in *. set (leap := InLeapYear t) in *.
  repeat match goal with
         | |- context [if ?a <? ?b then _ else _] => destruct (Z.ltb_spec a b)
         end; cbn [daysBeforeMonth]; lia.
Qed.

Lemma MakeDay_fields (t : Z) :
  MakeDay (YearFromTime t) (MonthFromTime t) (DateFromTime t) = Day t.
Proof.
  pose proof (MonthFromTime_range t) as Hm.
  destruct (month_date t) as [Hd _].
  unfold MakeDay. cbv zeta.
  replace (MonthFromTime t / 12) with 0 by div_lia.
  replace (MonthFromTime t mod 12) with (MonthFromTime t) by div_lia.
  rewrite Z.add_0_r. fold (InLeapYear t).
  unfold DayWithinYear in Hd. lia.
Qed.

Lemma MakeTime_fields (t : Z) :
  MakeTime (HourFromTime t) (MinFromTime t) (SecFromTime t) (msFromTime t)
  = TimeWithinDay t.
Proof.
  unfold MakeTime, HourFromTime, MinFromTime, SecFromTime, msFromTime, TimeWithinDay,
    msPerDay, msPerHour, msPerMinute, msPerSecond.
  div_lia.
Qed.

Lemma MakeDate_fields (t : Z) :
  MakeDate (MakeDay (YearFromTime t) (MonthFromTime t) (DateFromTime t))
           (MakeTime (HourFromTime t) (MinFromTime t) (SecFromTime t) (msFromTime t))
  = t.
Proof.
  rewrite MakeDay_fields, MakeTime_fields.
  unfold MakeDate, Day, TimeWithinDay, msPerDay. div_lia.
Qed.

Lemma time_ranges (t : Z) :
  0 <= HourFromTime t <= 23 /\ 0 <= MinFromTime t <= 59
  /\ 0 <= SecFromTime t <= 59 /\ 0 <= msFromTime t <= 999.
Proof.
  unfold HourFromTime, MinFromTime, SecFromTime, msFromTime,
    msPerHour, msPerMinute, msPerSecond.
  repeat split; div_lia.
Qed.

Lemma year_range (t : Z) :
  Z.abs t <= 8640000000000000 -> -271821 <= YearFromTime t <= 275760.
Proof.
  intros Ht. pose proof (YearFromTime_spec t) as [Hl Hh].
  unfold Day, msPerDay in *.
  assert (Hd : -100000000 <= t / 86400000 <= 100000000) by div_lia.
  split.
  - destruct (Z.le_gt_cases (-271821) (YearFromTime t)) as [|Hlt]; [assumption|].
    pose proof (DayFromYear_mono (YearFromTime t + 1) (-271821) ltac:(lia)) as Hm.
    assert (DayFromYear (-271821) = -100000109) by (vm_compute; reflexivity).
    lia.
  - destruct (Z.le_gt_cases (YearFromTime t) 275760) as [|Hgt]; [assumption|].
    pose proof (DayFromYear_mono 275761 (YearFromTime t) ltac:(lia)) as Hm.
    assert (DayFromYear 275761 = 100000110) by (vm_compute; reflexivity).
    lia.
Qed.

(** *** Writing and reading the fields *)

Lemma valueOfDigit_digitOf (d : Z) :
  0 <= d <= 9 -> valueOfDigit (digitOf d) = Some d.
Proof.
  intros Hd. unfold valueOfDigit, digitOf.
  rewrite nat_ascii_embedding by lia.
  replace (Z.of_nat (48 + Z.to_nat d)) with (48 + d) by lia.
  destruct (Z.leb_spec 48 (48 + d)); [|lia].
  destruct (Z.leb_spec (48 + d) 57); [|lia].
  cbn [andb]. f_equal. lia.
Qed.

Lemma number_snoc (k : nat) :
  forall acc cs a c r v,
    number k acc cs = Some (a, c :: r) -> valueOfDigit c = Some v ->
    number (Datatypes.S k) acc cs = Some (10 * a + v, r).
Proof.
  induction k as [|k IH]; intros acc cs a c r v Hn Hv.
  - simpl in Hn. injection Hn as <- ->. simpl. now rewrite Hv.
  - destruct cs as [|c0 cs0]; [discriminate|].
    cbn [number] in Hn. cbn [number].
    destruct (valueOfDigit c0) as [v0|]; [|discriminate].
    exact (IH _ _ _ _ _ _ Hn Hv).
Qed.

Lemma number_digits (k : nat) :
  forall n acc rest,
    0 <= n < 10 ^ Z.of_nat k ->
    number k acc (digits k n ++ rest) = Some (acc * 10 ^ Z.of_nat k + n, rest).
Proof.
  induction k as [|k IH]; intros n acc rest Hn.
  - simpl in *. f_equal. f_equal. lia.
  - rewrite Nat2Z.inj_succ, Z.pow_succ_r in * by lia.
    cbn [digits]. rewrite <- app_assoc. cbn [app].
    assert (Hq : 0 <= n / 10 < 10 ^ Z.of_nat k) by div_lia.
    pose proof (IH (n / 10) acc (digitOf (n mod 10) :: rest) Hq) as Hk.
    rewrite (number_snoc k _ _ _ _ _ (n mod 10) Hk)
      by (apply valueOfDigit_digitOf; div_lia).
    f_equal. f_equal. div_lia.
Qed.

Lemma character_here (c : ascii) (rest : list ascii) :
  character c (c :: rest) = Some rest.
Proof. unfold character. now rewrite Ascii.eqb_refl. Qed.

Lemma digitOf_not_sign (d : Z) :
  0 <= d <= 9 ->
  Ascii.eqb (digitOf d) "+" = false /\ Ascii.eqb (digitOf d) "-" = false.
Proof.
  intros Hd.
  assert (H : d = 0 \/ d = 1 \/ d = 2 \/ d = 3 \/ d = 4 \/ d = 5 \/ d = 6 \/ d = 7
              \/ d = 8 \/ d = 9) by lia.
  repeat destruct H as [-> | H]; try subst d; split; reflexivity.
Qed.

(** The year is read back from either of its forms. *)
Lemma yearOf_written (year : Z) (rest : list ascii) :
  -999999 <= year <= 999999 ->
  yearOf ((if (0 <=? year) && (year <=? 9999) then digits 4 year
           else (if year <? 0 then "-"%char else "+"%char) :: digits 6 (Z.abs year))
          ++ rest)
  = Some (year, rest).
Proof.
  intros Hy.
  destruct (Z.leb_spec 0 year) as [H0|H0]; cbn [andb].
  - destruct (Z.leb_spec year 9999) as [H9|H9].
    + pose proof (number_digits 4 year 0 rest ltac:(simpl; lia)) as Hn.
      rewrite Z.mul_0_l, Z.add_0_l in Hn. rewrite <- Hn.
      cbn [digits app].
      destruct (digitOf_not_sign (year / 10 / 10 / 10 mod 10) ltac:(div_lia))
        as [Hp Hm].
      unfold yearOf. rewrite Hp, Hm. reflexivity.
    + destruct (Z.ltb_spec year 0) as [Hneg|_]; [lia|].
      cbn [app]. unfold yearOf.
      change (Ascii.eqb "+" "+") with true. cbv iota.
      rewrite (number_digits 6 (Z.abs year) 0 rest) by (simpl; lia).
      f_equal. f_equal. lia.
  - destruct (Z.ltb_spec year 0) as [_|Hpos]; [|lia].
    cbn [app]. unfold yearOf.
    change (Ascii.eqb "-" "+") with false. change (Ascii.eqb "-" "-") with true.
    cbv iota.
    rewrite (number_digits 6 (Z.abs year) 0 rest) by (simpl; lia).
    replace (0 * 10 ^ Z.of_nat 6 + Z.abs year) with (Z.abs year) by lia.
    destruct (Z.eqb_spec (Z.abs year) 0) as [E|_]; [lia|].
    f_equal. f_equal. lia.
Qed.

(** [Date.parse] gives back the time value [toISOString] was given. *)
Lemma parse_toISOString (t : Z) :
  Z.abs t <= 8640000000000000 -> parse (toISOString t) = Some t.
Proof.
  intros Ht.
  pose proof (year_range t Ht) as Hy.
  pose proof (MonthFromTime_range t) as Hm.
  destruct (month_date t) as [_ Hd].
  destruct (time_ranges t) as (Hh & Hmin & Hs & Hms).
  unfold parse, toISOString. cbv zeta.
  rewrite list_ascii_of_string_of_list_ascii.
  rewrite yearOf_written by lia.
  cbn [app]. rewrite character_here.
  rewrite (number_digits 2 (MonthFromTime t + 1) 0) by (simpl; lia).
  rewrite character_here.
  rewrite (number_digits 2 (DateFromTime t) 0) by (simpl; lia).
  rewrite character_here.
  rewrite (number_digits 2 (HourFromTime t) 0) by (simpl; lia).
  rewrite character_here.
  rewrite (number_digits 2 (MinFromTime t) 0) by (simpl; lia).
  rewrite character_here.
  rewrite (number_digits 2 (SecFromTime t) 0) by (simpl; lia).
  rewrite character_here.
  rewrite (number_digits 3 (msFromTime t) 0 ["Z"%char]) by (simpl; lia).
  rewrite character_here.
  rewrite !Z.mul_0_l, !Z.add_0_l.
  replace (MonthFromTime t + 1 - 1) with (MonthFromTime t) by lia.
  rewrite MakeDate_fields.
  replace (1 <=? MonthFromTime t + 1) with true by (symmetry; apply Z.leb_le; lia).
  replace (MonthFromTime t + 1 <=? 12) with true by (symmetry; apply Z.leb_le; lia).
  replace (1 <=? DateFromTime t) with true by (symmetry; apply Z.leb_le; lia).
  replace (DateFromTime t <=? 31) with true by (symmetry; apply Z.leb_le; lia).
  replace (HourFromTime t <=? 24) with true by (symmetry; apply Z.leb_le; lia).
  replace (MinFromTime t <=? 59) with true by (symmetry; apply Z.leb_le; lia).
  replace (SecFromTime t <=? 59) with true by (symmetry; apply Z.leb_le; lia).
  replace (HourFromTime t <? 24) with true by (symmetry; apply Z.ltb_lt; lia).
  cbn [andb orb]. unfold TimeClip.
  destruct (Z.leb_spec (Z.abs t) 8640000000000000); [reflexivity | lia].
Qed.

End ISOFacts.

(** X16: the text [toISOString] writes for a time value is read back by
    [new Date] as the same time value, for every time value a [Date] can hold
    (at most 8.64e15 ms from the epoch on either side, years -271821 to
    275760, the expanded years included): so every timestamp
    [generateRealisticIrishData] stores as text is the timestamp
    [fetchRealEirGridData] reads back, as its model assumes.  The year the
    text shows is the largest [y] with [TimeFromYear(y) <= t], as ECMAScript
    defines it; 1700000000000 is written [2023-11-14T22:13:20.000Z] and the
    last time value [+275760-09-13T00:00:00.000Z]. *)
Theorem timestamp_text_round_trip :
  (forall t : Z,
      (Z.abs t <= 8640000000000000)%Z ->
      ISO.parse (ISO.toISOString t) = Some t
      /\ Some (newDateOf (toISOString t)) = ISO.parse (ISO.toISOString t))
  /\ (forall (T : Type) (N : JsNumber T) (M : JsMath T) (tza : Z -> Z) (now : Date)
             (range : DateRange) (dataPoints : list (EirGridDataPoint T))
             (point : EirGridDataPoint T),
        (Z.abs now <= 8640000000000000 - 7 * ISO.msPerDay)%Z ->
        Eirgrid.generateRealisticIrishData tza now range = Ok dataPoints ->
        In point dataPoints ->
        let timestamp := newDateOf (eg_timestamp point) in
        ISO.parse (ISO.toISOString timestamp) = Some timestamp)
  /\ (forall t y : Z, (ISO.TimeFromYear y <= t <-> y <= ISO.YearFromTime t)%Z)
  /\ ISO.toISOString exampleNow = "2023-11-14T22:13:20.000Z"%string
  /\ ISO.toISOString 8640000000000000 = "+275760-09-13T00:00:00.000Z"%string
  /\ ISO.toISOString (-62198755200000) = "-000001-01-01T00:00:00.000Z"%string.
Proof.
  split; [|split; [|split; [|split; [|split]]]].
  - intros t Ht. rewrite (ISOFacts.parse_toISOString t Ht). split; reflexivity.
  - intros T N M tza now range dataPoints point Hnow Hgen Hin timestamp.
    apply ISOFacts.parse_toISOString.
    destruct (eirgrid_data_points tza now range dataPoints point Hgen Hin)
      as (i & Hi & Hp).
    cbv zeta in Hi. subst timestamp. rewrite Hp.
    unfold Eirgrid.dataPoint. cbv zeta. cbn [eg_timestamp newDateOf toISOString].
    unfold addMinutes, subHours, ISO.msPerDay in *.
    destruct range; cbn [Eirgrid.getRangeHours Eirgrid.stepMinutesOf] in *;
      change (24 * 60 / 15)%Z with 96%Z in Hi;
      change (48 * 60 / 15)%Z with 192%Z in Hi;
      change (24 * 7 * 60 / 30)%Z with 336%Z in Hi; lia.
  - exact ISOFacts.YearFromTime_largest.
  - vm_compute. reflexivity.
  - vm_compute. reflexivity.
  - vm_compute. reflexivity.
Qed.

Lemma timestamp_text_round_trip_witness :
  ISO.parse (ISO.toISOString exampleNow) = Some exampleNow.
Proof.
  apply (proj1 timestamp_text_round_trip exampleNow). vm_compute. discriminate.
Defined.

(** ** The sign of a quotient over binary64 *)

Module B64Sign.

Lemma leb_zero (x : float) : PrimFloat.leb 0 x = true <-> notNegative (Prim2SF x).
Proof.
  rewrite FloatAxioms.leb_spec. unfold SFleb.
  change (Prim2SF 0) with (S754_zero false).
  destruct (Prim2SF x) as [s|s| |s m e]; simpl.
  - tauto.
  - destruct s; split; congruence.
  - split; [discriminate | contradiction].
  - destruct s; split; congruence.
Qed.

Lemma ltb_zero (x : float) :
  PrimFloat.ltb 0 x = true
  <-> (exists m e, Prim2SF x = S754_finite false m e) \/ Prim2SF x = S754_infinity false.
Proof.
  rewrite FloatAxioms.ltb_spec. unfold SFltb.
  change (Prim2SF 0) with (S754_zero false).
  destruct (Prim2SF x) as [s|s| |s m e]; simpl.
  - split; [discriminate|]. intros [(m & e & H) | H]; discriminate.
  - destruct s; split; try congruence; auto.
    intros [(m & e & H) | H]; discriminate.
  - split; [discriminate|]. intros [(m & e & H) | H]; discriminate.
  - destruct s; split; try congruence; eauto.
    intros [(m' & e' & H) | H]; discriminate.
Qed.

Lemma below_infinity (x : float) :
  PrimFloat.ltb x PrimFloat.infinity = true ->
  Prim2SF x <> S754_nan /\ Prim2SF x <> S754_infinity false.
Proof.
  rewrite FloatAxioms.ltb_spec. unfold SFltb.
  change (Prim2SF PrimFloat.infinity) with (S754_infinity false).
  destruct (Prim2SF x) as [s|s| |s m e]; simpl; intros H;
    try discriminate; try (split; congruence).
  destruct s; [split; congruence | discriminate].
Qed.

(** Rounding keeps the sign it is given. *)
Lemma binary_round_aux_sign (sx : bool) (mx ex : Z) (lx : location) :
  (0 <= mx)%Z ->
  match binary_round_aux prec emax sx mx ex lx with
  | S754_zero s | S754_infinity s | S754_finite s _ _ => s = sx
  | S754_nan => False
  end.
Proof.
  intros Hm. pose proof (B64Facts.binary_round_aux_num sx mx ex lx Hm) as Hn.
  unfold binary_round_aux in *.
  destruct (shr_fexp prec emax mx ex lx) as [mrs' e'].
  destruct (shr_fexp prec emax _ e' loc_Exact) as [mrs'' e''].
  destruct (shr_m mrs'') as [|p|p]; [reflexivity | | congruence].
  destruct (Z.leb _ _); reflexivity.
Qed.

Lemma div_core_nonneg (m1 m2 : positive) (e1 e2 : Z) :
  (0 <= fst (fst (SFdiv_core_binary prec emax (Z.pos m1) e1 (Z.pos m2) e2)))%Z.
Proof.
  unfold SFdiv_core_binary. cbv zeta.
  set (s := (e1 - e2 - _)%Z).
  set (m' := match s with 0%Z => Z.pos m1 | Z.pos _ => _ | Z.neg _ => 0%Z end).
  assert (Hm' : (0 <= m')%Z).
  { subst m'. destruct s; [lia | | lia].
    change (0 <= Z.shiftl (Z.pos m1) (Z.pos p))%Z. apply Z.shiftl_nonneg. lia. }
  change (IntDef.Z.div_eucl m' (Z.pos m2)) with (Z.div_eucl m' (Z.pos m2)).
  assert (Hdiv : (0 <= m' / Z.pos m2)%Z) by (apply Z.div_pos; lia).
  unfold Z.div in Hdiv.
  destruct (Z.div_eucl m' (Z.pos m2)) as [q r]. exact Hdiv.
Qed.

(** A number that is not negative, divided by a positive number, is not
    negative, unless both are infinite. *)
Lemma div_notNegative (v t : float) :
  notNegative (Prim2SF v) -> Prim2SF v <> S754_infinity false ->
  PrimFloat.ltb 0 t = true ->
  PrimFloat.leb 0 (v / t) = true.
Proof.
  intros Hv Hfin Ht. apply leb_zero. apply ltb_zero in Ht.
  rewrite FloatAxioms.div_spec. unfold SF64div, SFdiv.
  destruct (Prim2SF v) as [sv|sv| |sv mv ev]; simpl in Hv; try contradiction.
  - destruct Ht as [(m & e & ->) | ->]; exact I.
  - subst sv. congruence.
  - subst sv. destruct Ht as [(m & e & ->) | ->]; [|exact I].
    pose proof (div_core_nonneg mv m ev e) as Hq.
    destruct (SFdiv_core_binary prec emax (Z.pos mv) ev (Z.pos m) e) as [[mz ez] lz].
    simpl in Hq.
    pose proof (binary_round_aux_sign (xorb false false) mz ez lz Hq) as Hs.
    destruct (binary_round_aux prec emax (xorb false false) mz ez lz);
      simpl in *; try assumption; exact I.
Qed.

(** Adding a finite number to a number gives a number. *)
Lemma add_num_r (a b : float) :
  PrimFloat.is_nan a = false ->
  Prim2SF b <> S754_nan -> Prim2SF b <> S754_infinity false ->
  Prim2SF b <> S754_infinity true ->
  PrimFloat.is_nan (a + b) = false.
Proof.
  rewrite !B64Facts.is_nan_spec, FloatAxioms.add_spec. unfold SF64add.
  intros Ha Hb1 Hb2 Hb3.
  destruct (Prim2SF a) as [sa|sa| |sa ma ea], (Prim2SF b) as [sb|[]| |sb mb eb];
    simpl; try congruence; try discriminate.
  - destruct sa, sb; discriminate.
  - apply B64Facts.binary_normalize_num.
Qed.

End B64Sign.

Lemma finiteNonNeg_forms (v : float) :
  finiteNonNeg v ->
  notNegative (Prim2SF v) /\ Prim2SF v <> S754_nan
  /\ Prim2SF v <> S754_infinity false /\ Prim2SF v <> S754_infinity true.
Proof.
  intros [H0 Hinf]. apply B64Sign.leb_zero in H0.
  destruct (B64Sign.below_infinity v Hinf) as [Hn Hi].
  split; [exact H0|]. split; [exact Hn|]. split; [exact Hi|].
  intros E. rewrite E in H0. simpl in H0. discriminate.
Qed.

Lemma add_finiteNonNeg (acc v : float) :
  PrimFloat.is_nan acc = false -> finiteNonNeg v -> PrimFloat.is_nan (acc + v) = false.
Proof.
  intros Ha Hv. destruct (finiteNonNeg_forms v Hv) as (_ & Hn & Hi & Hi').
  now apply B64Sign.add_num_r.
Qed.

Lemma share_not_negative (v total : float) :
  finiteNonNeg v -> PrimFloat.ltb 0 total = true -> PrimFloat.leb 0 (v / total) = true.
Proof.
  intros Hv Ht. destruct (finiteNonNeg_forms v Hv) as (H0 & _ & Hi & _).
  now apply B64Sign.div_notNegative.
Qed.

(** X18: over binary64, for every raw mix whose fields are numbers that are
    neither negative nor infinite (absent fields count as 0), none of the
    seven shares [normalizeMix] returns is negative or NaN, in either branch
    and also when the total overflows; a raw mix with an infinite field does
    get a NaN share. *)
Theorem normalized_shares_are_never_negative :
  (forall raw : PartialMix float,
      Forall finiteNonNeg (values (withDefaults raw)) ->
      Forall (fun v => PrimFloat.leb 0 v = true) (values (Mock.normalizeMix raw)))
  /\ PrimFloat.is_nan (wind (Mock.normalizeMix infiniteMix)) = true.
Proof.
  split; [|vm_compute; reflexivity].
  intros raw Hraw. rewrite normalizeMix_total.
  set (base := withDefaults raw) in *.
  unfold values, keys in Hraw. cbn [map get] in Hraw.
  inversion_clear Hraw as [|? ? Hw Hraw1].
  inversion_clear Hraw1 as [|? ? Hs Hraw2].
  inversion_clear Hraw2 as [|? ? Hh Hraw3].
  inversion_clear Hraw3 as [|? ? Hg Hraw4].
  inversion_clear Hraw4 as [|? ? Hc Hraw5].
  inversion_clear Hraw5 as [|? ? Hb Hraw6].
  inversion_clear Hraw6 as [|? ? Hi _].
  assert (Hnum : PrimFloat.is_nan (sum7 base) = false).
  { unfold sum7. repeat (apply add_finiteNonNeg; [|assumption]). reflexivity. }
  destruct (PrimFloat.leb (sum7 base) 0) eqn:Hle.
  - unfold values, keys. cbn [map get]. repeat constructor.
  - assert (Hpos : PrimFloat.ltb 0 (sum7 base) = true).
    { destruct (PrimFloat.ltb 0 (sum7 base)) eqn:Hlt; [reflexivity|].
      rewrite (B64Facts.not_ltb_leb 0 (sum7 base) eq_refl Hnum Hlt) in Hle.
      discriminate. }
    unfold values, keys. cbn [map get mapMix wind solar hydro gas coal biomass imports].
    repeat constructor; now apply share_not_negative.
Qed.

Lemma normalized_shares_are_never_negative_witness :
  Forall (fun v => PrimFloat.leb 0 v = true) (values (Mock.normalizeMix hugeMix)).
Proof.
  apply (proj1 normalized_shares_are_never_negative hugeMix).
  unfold finiteNonNeg. repeat constructor.
Defined.

(** ** The sign of the intensity over binary64 *)

Module B64Intensity.

Lemma round_aux_notNegative (mx ex : Z) (lx : location) :
  (0 <= mx)%Z -> notNegative (binary_round_aux prec emax false mx ex lx).
Proof.
  intros Hm. pose proof (B64Sign.binary_round_aux_sign false mx ex lx Hm) as H.
  destruct (binary_round_aux prec emax false mx ex lx); simpl; auto.
Qed.

Lemma normalize_notNegative (m e : Z) (szero : bool) :
  (0 <= m)%Z -> notNegative (binary_normalize prec emax m e szero).
Proof.
  intros Hm. unfold binary_normalize. destruct m as [|p|p]; [exact I | | lia].
  unfold binary_round. destruct (shl_align _ _ _) as [mz ez].
  apply round_aux_notNegative. lia.
Qed.

(** A share that is not negative, times a positive finite factor. *)
Lemma mul_notNegative (v f : float) (m : positive) (e : Z) :
  notNegative (Prim2SF v) -> Prim2SF f = S754_finite false m e ->
  notNegative (Prim2SF (v * f)).
Proof.
  intros Hv Hf. rewrite FloatAxioms.mul_spec, Hf. unfold SF64mul, SFmul.
  destruct (Prim2SF v) as [sv|sv| |sv mv ev]; simpl in *; try contradiction.
  - exact I.
  - subst sv. reflexivity.
  - subst sv. apply round_aux_notNegative. lia.
Qed.

Lemma add_notNegative (a b : float) :
  notNegative (Prim2SF a) -> notNegative (Prim2SF b) -> notNegative (Prim2SF (a + b)).
Proof.
  intros Ha Hb. rewrite FloatAxioms.add_spec. unfold SF64add, SFadd.
  destruct (Prim2SF a) as [sa|sa| |sa ma ea], (Prim2SF b) as [sb|sb| |sb mb eb];
    simpl in *; try contradiction; subst; try exact I; try reflexivity.
  - destruct sa, sb; exact I.
  - apply normalize_notNegative. simpl. lia.
Qed.

Lemma ofZ_notNegative (n : Z) : (0 < n)%Z -> notNegative (Prim2SF (B64.ofZ n)).
Proof.
  intros Hn. unfold B64.ofZ.
  destruct (Z.ltb_spec n 0) as [|_]; [lia|].
  rewrite FloatAxioms.of_uint63_spec.
  apply normalize_notNegative.
  pose proof (Uint63.to_Z_bounded (Uint63.of_Z n)). lia.
Qed.

Lemma round_notNegative (x : float) :
  notNegative (Prim2SF x) -> notNegative (Prim2SF (B64.round x)).
Proof.
  intros Hx. unfold B64.round.
  destruct (Prim2SF x) as [s|s| |s m e] eqn:E; try (rewrite E; exact Hx).
  simpl in Hx. subst s.
  destruct (Z.leb_spec 0 e) as [_|He]; [rewrite E; reflexivity|].
  cbv zeta.
  set (n := ((2 * Z.pos m + 2 ^ (- e)) / 2 ^ (- e + 1))%Z).
  assert (Hn : (0 <= n)%Z).
  { subst n. apply Z.div_pos.
    - assert (0 <= 2 ^ (- e))%Z by (apply Z.pow_nonneg; lia). lia.
    - apply Z.pow_pos_nonneg; lia. }
  destruct (Z.eqb_spec n 0) as [_|Hne]; [exact I|].
  apply ofZ_notNegative. lia.
Qed.

End B64Intensity.

(** X19: over binary64, for every mix whose seven shares are numbers that
    are not negative, [computeIntensity] returns a number that is not
    negative: never NaN and never below zero, whatever rounding, underflow or
    overflow its products and sums undergo. *)
Theorem intensity_is_never_negative :
  forall m : GenerationMixBreakdown float,
    Forall (fun v => PrimFloat.leb 0 v = true) (values m) ->
    PrimFloat.leb 0 (Mock.computeIntensity m) = true
    /\ PrimFloat.is_nan (Mock.computeIntensity m) = false.
Proof.
  intros m Hm.
  unfold values, keys in Hm. cbn [map get] in Hm.
  inversion_clear Hm as [|? ? Hw Hm1]. inversion_clear Hm1 as [|? ? Hs Hm2].
  inversion_clear Hm2 as [|? ? Hh Hm3]. inversion_clear Hm3 as [|? ? Hg Hm4].
  inversion_clear Hm4 as [|? ? Hc Hm5]. inversion_clear Hm5 as [|? ? Hb Hm6].
  inversion_clear Hm6 as [|? ? Hi _].
  apply B64Sign.leb_zero in Hw, Hs, Hh, Hg, Hc, Hb, Hi.
  assert (H0 : PrimFloat.leb 0 (Mock.computeIntensity m) = true).
  { apply B64Sign.leb_zero. unfold Mock.computeIntensity.
    apply B64Intensity.round_notNegative.
    cbn [fold_left keys get Mock.EMISSION_FACTORS].
    repeat (apply B64Intensity.add_notNegative;
            [|eapply B64Intensity.mul_notNegative;
              [assumption | vm_compute; reflexivity]]).
    exact I. }
  split; [exact H0|].
  now destruct (B64Facts.leb_num _ _ H0).
Qed.

Lemma intensity_is_never_negative_witness :
  PrimFloat.leb 0 (Mock.computeIntensity fallbackMix) = true.
Proof.
  apply (intensity_is_never_negative fallbackMix). repeat constructor.
Defined.
